(** * Payment settlement and dynamic pricing: a shallow embedding

    The development follows the backend sources:
    - [db.ts]                      the two collections and their row types;
    - [payment/engine.ts]          [processPayment], [refundCredits],
                                   [mintCredits], [getUserCredits];
    - [agent/negotiationAgent.ts]  the in-memory pricing state and
                                   [runNegotiationAgent];
    - [payment/middleware.ts]      [requirePayment];
    - the on-chain verifier        [verifyTransaction];
    - [api/x402Express.ts]         [handleX402Request];
    - [index.ts]                   the wallet history and funding routes.

    Amounts are JavaScript numbers holding whole cents; they are modelled
    as [Z].  Dates are milliseconds since the epoch, also [Z]. *)

From Stdlib Require Import ZArith Lia List Ascii String.
From stdpp Require Import base option gmap strings list sorting.

Local Open Scope Z_scope.

(** ** db.ts: rows of the two collections *)

Inductive TransactionType : Type :=
  | PURCHASE | USAGE | DIRECT_USDC | REFUND | ADJUSTMENT.

Inductive TransactionStatus : Type :=
  | PENDING | CONFIRMED | FAILED.

(** [metadata?: any].  The code writes three shapes:
    [{ requiredCost }] on USAGE rows, [{ originalTxId, reason }] on REFUND
    rows and [{ action }] on DIRECT_USDC rows. *)
Inductive Metadata : Type :=
  | MetaUsage (requiredCost : Z)
  | MetaRefund (originalTxId : string) (reason : string)
  | MetaAction (action : string).

Record UserCredit : Type := mkUserCredit {
  balance : Z;
  lifetimePurchased : Z;
  lifetimeUsed : Z;
  updatedAt : Z
}.

Record CreditTransaction : Type := mkTx {
  tx_id : string;
  tx_userId : string;
  tx_type : TransactionType;
  tx_amount : Z;
  tx_txHash : option string;
  tx_status : TransactionStatus;
  tx_metadata : option Metadata;
  tx_createdAt : Z
}.

#[global] Instance TransactionType_eq_dec : EqDecision TransactionType.
Proof. solve_decision. Defined.
#[global] Instance TransactionStatus_eq_dec : EqDecision TransactionStatus.
Proof. solve_decision. Defined.

(** The store: [userCredits] holds one document per [userId];
    [creditTransactions] is kept in insertion order, [insertOne] appends. *)
Record Store : Type := mkStore {
  userCredits : gmap string UserCredit;
  creditTransactions : list CreditTransaction
}.

(** What a call draws from its environment: the value of
    [crypto.randomUUID()] and the instant read by [new Date()]. *)
Record Env : Type := mkEnv {
  uuid : string;
  now : Z
}.

(** ** Collection operations *)

(** [txCol.findOne(q)]: the first row, in insertion order, matching [q]. *)
Definition findOneTx (q : CreditTransaction -> bool) (s : Store)
  : option CreditTransaction :=
  List.find q (creditTransactions s).

(** [txCol.insertOne(row)] *)
Definition insertOneTx (row : CreditTransaction) (s : Store) : Store :=
  mkStore (userCredits s) (creditTransactions s ++ [row]).

(** [creditsCol.findOne({ userId })] *)
Definition findOneCredit (userId : string) (s : Store) : option UserCredit :=
  userCredits s !! userId.

(** The field [metadata.originalTxId] of a row, when it has one. *)
Definition meta_originalTxId (t : CreditTransaction) : option string :=
  match tx_metadata t with
  | Some (MetaRefund o _) => Some o
  | _ => None
  end.

(** ** payment/engine.ts *)

(** [getUserCredits]: [user?.balance || 0]. *)
Definition getUserCredits (userId : string) (s : Store) : Z :=
  match findOneCredit userId s with
  | Some c => balance c
  | None => 0
  end.

(** Query [{ txHash, status: 'CONFIRMED' }]. *)
Definition q_confirmedDeposit (txHash : string) (t : CreditTransaction) : bool :=
  bool_decide (tx_txHash t = Some txHash)
  && bool_decide (tx_status t = CONFIRMED).

(** The upsert of [mintCredits]:
    [$inc { balance, lifetimePurchased }], [$set { updatedAt }],
    [$setOnInsert { lifetimeUsed: 0 }]. *)
Definition upsertPurchase (userId : string) (amountCents : Z) (at_ : Z)
    (s : Store) : Store :=
  let doc :=
    match userCredits s !! userId with
    | Some c => mkUserCredit (balance c + amountCents)
                             (lifetimePurchased c + amountCents)
                             (lifetimeUsed c) at_
    | None => mkUserCredit amountCents amountCents 0 at_
    end in
  mkStore (<[userId := doc]> (userCredits s)) (creditTransactions s).

Definition mintCredits (e : Env) (userId : string) (amountCents : Z)
    (txHash : string) (s : Store) : bool * Store :=
  match findOneTx (q_confirmedDeposit txHash) s with
  | Some _ => (true, s) (* Already processed *)
  | None =>
      let txId := uuid e in
      let s1 := insertOneTx
        (mkTx txId userId PURCHASE amountCents (Some txHash) CONFIRMED None
              (now e)) s in
      let s2 := upsertPurchase userId amountCents (now e) s1 in
      (true, s2)
  end.

(** Query [{ id, type: 'USAGE', status: 'CONFIRMED' }]. *)
Definition q_confirmedUsage (id : string) (t : CreditTransaction) : bool :=
  bool_decide (tx_id t = id)
  && bool_decide (tx_type t = USAGE)
  && bool_decide (tx_status t = CONFIRMED).

(** Query [{ type: 'REFUND', "metadata.originalTxId": id }]. *)
Definition q_refundOf (id : string) (t : CreditTransaction) : bool :=
  bool_decide (tx_type t = REFUND)
  && bool_decide (meta_originalTxId t = Some id).

(** [creditsCol.updateOne({ userId }, { $inc: { balance }, $set: { updatedAt } })]
    without upsert: a missing document stays missing. *)
Definition incBalance (userId : string) (by_ : Z) (at_ : Z) (s : Store) : Store :=
  mkStore
    (alter (fun c => mkUserCredit (balance c + by_) (lifetimePurchased c)
                                  (lifetimeUsed c) at_)
           userId (userCredits s))
    (creditTransactions s).

Definition refundCredits (e : Env) (originalTransactionId : string)
    (s : Store) : bool * Store :=
  match findOneTx (q_confirmedUsage originalTransactionId) s with
  | None => (false, s)
  | Some originalTx =>
      let refundTxId := uuid e in
      (* Prevent double refunds *)
      match findOneTx (q_refundOf originalTransactionId) s with
      | Some _ => (false, s)
      | None =>
          let refundAmount := Z.abs (tx_amount originalTx) in
          let s1 := incBalance (tx_userId originalTx) refundAmount (now e) s in
          let s2 := insertOneTx
            (mkTx refundTxId (tx_userId originalTx) REFUND refundAmount None
                  CONFIRMED
                  (Some (MetaRefund originalTransactionId "USDC_FALLBACK_FAILED"))
                  (now e)) s1 in
          (true, s2)
      end
  end.

(** *** processPayment

    [processPayment] is an [async] function: between two [await]s on the
    store other requests run.  It is embedded as a task that advances by one
    store operation per step; the constructors of [PaymentTask] are the
    points where the function is suspended. *)

Inductive PaymentPreference : Type :=
  | CREDITS_FIRST | PAY_DIRECT_USDC.

#[global] Instance PaymentPreference_eq_dec : EqDecision PaymentPreference.
Proof. solve_decision. Defined.

Record PaymentProcessResult : Type := mkResult {
  remainingCostCents : Z;
  creditsDeducted : Z;
  transactionId : option string
}.

Record PaymentCall : Type := mkCall {
  actionCostCents : Z;
  call_userId : string;
  paymentPreference : PaymentPreference
}.

Inductive PaymentTask : Type :=
  | AwaitFindOne (txId : string)
      (* suspended at [creditsCol.findOne({ userId })] *)
  | AwaitFindOneAndUpdate (txId : string) (toDeduct : Z)
      (* suspended at [creditsCol.findOneAndUpdate(...)] *)
  | AwaitInsertOne (txId : string) (deducted : Z)
      (* suspended at [txCol.insertOne(...)] *)
  | Returned (r : PaymentProcessResult).

(** [creditsCol.findOneAndUpdate({ userId, balance: { $gte: toDeduct } },
      { $inc: { balance: -toDeduct, lifetimeUsed: toDeduct },
        $set: { updatedAt } })]:
    [None] when no document matches the filter. *)
Definition findOneAndUpdate_deduct (userId : string) (toDeduct : Z) (at_ : Z)
    (s : Store) : option Store :=
  match userCredits s !! userId with
  | Some c =>
      if toDeduct <=? balance c then
        Some (mkStore
                (<[userId := mkUserCredit (balance c - toDeduct)
                                           (lifetimePurchased c)
                                           (lifetimeUsed c + toDeduct) at_]>
                   (userCredits s))
                (creditTransactions s))
      else None
  | None => None
  end.

(** Entry of the function, up to the first store operation. *)
Definition processPayment_enter (e : Env) (c : PaymentCall) : PaymentTask :=
  if actionCostCents c <=? 0 then Returned (mkResult 0 0 None)
  else if bool_decide (paymentPreference c = PAY_DIRECT_USDC)
  then Returned (mkResult (actionCostCents c) 0 None)
  else AwaitFindOne (uuid e).

(** One store operation of a suspended call.  A rejected conditional update
    re-enters the function ([return await processPayment(...)]). *)
Definition processPayment_step (e : Env) (c : PaymentCall) (t : PaymentTask)
    (s : Store) : PaymentTask * Store :=
  match t with
  | AwaitFindOne txId =>
      match findOneCredit (call_userId c) s with
      | None => (Returned (mkResult (actionCostCents c) 0 None), s)
      | Some userCredit =>
          if balance userCredit <=? 0
          then (Returned (mkResult (actionCostCents c) 0 None), s)
          else (AwaitFindOneAndUpdate txId
                  (Z.min (balance userCredit) (actionCostCents c)), s)
      end
  | AwaitFindOneAndUpdate txId toDeduct =>
      match findOneAndUpdate_deduct (call_userId c) toDeduct (now e) s with
      | None => (processPayment_enter e c, s)
      | Some s' => (AwaitInsertOne txId toDeduct, s')
      end
  | AwaitInsertOne txId deducted =>
      let remainingCents := actionCostCents c - deducted in
      (Returned (mkResult remainingCents deducted (Some txId)),
       insertOneTx
         (mkTx txId (call_userId c) USAGE (- deducted) None CONFIRMED
               (Some (MetaUsage (actionCostCents c))) (now e)) s)
  | Returned r => (Returned r, s)
  end.

(** A call running with no other request in between: the task is stepped
    until it returns.  [envs k] is the environment of the [k]-th step. *)
Fixpoint runPayment (fuel : nat) (envs : nat -> Env) (k : nat)
    (c : PaymentCall) (t : PaymentTask) (s : Store)
  : option (PaymentProcessResult * Store) :=
  match t with
  | Returned r => Some (r, s)
  | _ =>
      match fuel with
      | O => None
      | S fuel' =>
          let '(t', s') := processPayment_step (envs k) c t s in
          runPayment fuel' envs (S k) c t' s'
      end
  end.

Definition processPayment (fuel : nat) (envs : nat -> Env)
    (actionCostCents : Z) (userId : string)
    (paymentPreference : PaymentPreference) (s : Store)
  : option (PaymentProcessResult * Store) :=
  let c := mkCall actionCostCents userId paymentPreference in
  runPayment fuel envs 1 c (processPayment_enter (envs O) c) s.

(** *** Concurrent calls

    Any number of [processPayment] calls share the store; a step of the
    system is the arrival of a call or one store operation of one call. *)

Record Thread : Type := mkThread {
  th_call : PaymentCall;
  th_task : PaymentTask
}.

Definition System : Type := Store * list Thread.

Inductive sys_step : System -> System -> Prop :=
  | sys_arrive (s : Store) (ths : list Thread) (e : Env) (c : PaymentCall) :
      sys_step (s, ths) (s, ths ++ [mkThread c (processPayment_enter e c)])
  | sys_advance (s s' : Store) (ths : list Thread) (i : nat) (th : Thread)
      (e : Env) (t' : PaymentTask) :
      ths !! i = Some th ->
      processPayment_step e (th_call th) (th_task th) s = (t', s') ->
      sys_step (s, ths) (s', <[i := mkThread (th_call th) t']> ths).

(** *** Ledger totals *)

Definition sumZ {A : Type} (f : A -> Z) (l : list A) : Z :=
  foldr (fun x acc => f x + acc) 0 l.

(** Amount a row contributes to the confirmed USAGE total of [userId]. *)
Definition usageOf (userId : string) (t : CreditTransaction) : Z :=
  if bool_decide (tx_userId t = userId)
     && bool_decide (tx_type t = USAGE)
     && bool_decide (tx_status t = CONFIRMED)
  then - tx_amount t else 0.

(** Amount a row contributes to the confirmed credit-increasing total
    (PURCHASE, REFUND, ADJUSTMENT) of [userId]. *)
Definition creditOf (userId : string) (t : CreditTransaction) : Z :=
  if bool_decide (tx_userId t = userId)
     && bool_decide (tx_status t = CONFIRMED)
     && (bool_decide (tx_type t = PURCHASE)
         || bool_decide (tx_type t = REFUND)
         || bool_decide (tx_type t = ADJUSTMENT))
  then tx_amount t else 0.

Definition usageSum (userId : string) (s : Store) : Z :=
  sumZ (usageOf userId) (creditTransactions s).

Definition creditSum (userId : string) (s : Store) : Z :=
  sumZ (creditOf userId) (creditTransactions s).

(** ** agent/negotiationAgent.ts *)

(** [lib/zkVerifier] is imported by the agent but is not among the sources;
    the three price functions it exports are taken as an interface. *)
Class ZkVerifier : Type := {
  getStartingPrice : string -> Z;
  getFloorPrice : string -> Z;
  getNextPrice : string -> Z -> Z
}.

(** JavaScript text built-ins the agent applies with fixed patterns. *)
Class TextOps : Type := {
  (* [(cents / 100).toFixed(2)] *)
  toFixed2 : Z -> string;
  (* [message.match(topicPattern)], group 1, trimmed *)
  matchTopic : string -> option string;
  (* [/\$\d+\.\d+/.test(m)] *)
  testPrice : string -> bool;
  (* [m.replace(/\$\d+\.\d+/, r)] *)
  replacePrice : string -> string -> string;
  (* [/\$\d+\.?\d*/i.test(m)] *)
  testOffer : string -> bool
}.

Record PricingEntry : Type := mkEntry {
  cents : Z;
  round : Z;
  domain : string;
  topic : option string;
  negotiationAttempts : Z
}.

(** [pricingState]: the in-memory [Map] from wallet address to its entry. *)
Abbreviation PricingState := (gmap string PricingEntry).

Record PriceView : Type := mkView {
  view_cents : Z;
  view_round : Z;
  view_negotiationAttempts : Z
}.

Record UpdateResult : Type := mkUpdate {
  upd_success : bool;
  upd_cents : Z;
  upd_message : string
}.

Section Pricing.
Context `{zk : ZkVerifier} `{txt : TextOps}.

Definition getCurrentPrice (walletAddress domain : string)
    (ps : PricingState) : PriceView * PricingState :=
  match ps !! walletAddress with
  | Some existing =>
      (mkView (cents existing) (round existing) (negotiationAttempts existing),
       ps)
  | None =>
      let startingCents := getStartingPrice domain in
      (mkView startingCents 0 0,
       <[walletAddress := mkEntry startingCents 0 domain None 0]> ps)
  end.

Definition updatePrice (walletAddress : string) (newPriceCents : Z)
    (ps : PricingState) : UpdateResult * PricingState :=
  match ps !! walletAddress with
  | None => (mkUpdate false 10 "No pricing session found", ps)
  | Some existing =>
      let floor := getFloorPrice (domain existing) in
      if newPriceCents <? floor then
        (mkUpdate false floor
           (String.append "Cannot go below floor price of $" (toFixed2 floor)),
         ps)
      else
        (mkUpdate true newPriceCents
           (String.append "Price updated to $" (toFixed2 newPriceCents)),
         <[walletAddress := mkEntry newPriceCents (round existing + 1)
                                    (domain existing) (topic existing)
                                    (negotiationAttempts existing)]> ps)
  end.

Definition incrementNegotiationAttempts (walletAddress : string)
    (ps : PricingState) : Z * PricingState :=
  match ps !! walletAddress with
  | None => (0, ps)
  | Some existing =>
      let newAttempts := negotiationAttempts existing + 1 in
      (newAttempts,
       <[walletAddress := mkEntry (cents existing) (round existing)
                                  (domain existing) (topic existing)
                                  newAttempts]> ps)
  end.

Definition setTopic (walletAddress topic' : string) (ps : PricingState)
  : PricingState :=
  match ps !! walletAddress with
  | Some existing =>
      <[walletAddress := mkEntry (cents existing) (round existing)
                                 (domain existing) (Some topic')
                                 (negotiationAttempts existing)]> ps
  | None => ps
  end.

Definition getTopic (walletAddress : string) (ps : PricingState)
  : option string :=
  match ps !! walletAddress with
  | Some e => topic e
  | None => None
  end.

(** The advisory reply.  [A_other] stands for any other truthy [action]
    value, which the [switch] sends to [default]. *)
Inductive Action : Type :=
  | A_quote_price | A_pushback | A_discount | A_floor | A_chat | A_other.

Record AIResponse : Type := mkAI {
  action : Action;
  message : string;
  suggestedPriceCents : option Z
}.

Record AgentResult : Type := mkAgent {
  response : string;
  currentPrice_cents : Z;
  currentPrice_dollars : string;
  isDataOffer : bool
}.

(** [runNegotiationAgent] is an [async] function with a single [await],
    the call of the model (l.422).  It is embedded as the two parts that
    each run without interruption.

    [runNegotiationAgent_begin] is the part before the [await].  [apiKey]
    is [process.env.GEMINI_API_KEY]; a missing key throws before any state
    is read: the result is [None].  Otherwise the part ends with
    [currentState], the copy of price, round and attempts that
    [getCurrentPrice] returns (l.391) and that the turn keeps over the
    [await].  The prompt sent to the model (built from that copy,
    [getTopic] and [isPriceComplaint]) only bears on what the model
    replies, which is an input of the second part.  When the call of the
    model fails, the turn ends with this part. *)
Definition runNegotiationAgent_begin (apiKey : option string)
    (walletAddress domain_ : string) (ps : PricingState)
  : option PriceView * PricingState :=
  match apiKey with
  | None => (None, ps)
  | Some _ =>
      let '(currentState, ps0) := getCurrentPrice walletAddress domain_ ps in
      (Some currentState, ps0)
  end.

(** [runNegotiationAgent_resume] is the part after the [await] (l.430 to
    the end).  [currentState] is the copy taken before the [await];
    [reply] is [parseAIResponse(result.response.text())], the parsed reply
    of the model ([None] when parsing fails); [ps] is the pricing state as
    it is when the turn resumes, which other requests may have changed in
    the meantime.  [floor] is [getFloorPrice(domain)] (l.392), a function
    of the request's domain alone. *)
Definition runNegotiationAgent_resume (currentState : PriceView)
    (reply : option AIResponse)
    (message_ walletAddress domain_ : string) (ps : PricingState)
  : AgentResult * PricingState :=
  let floor := getFloorPrice domain_ in
  match reply with
  | None =>
      (mkAgent
         "I sell premium guides, not free answers ðŸ˜‰ What topic do you want?"
         (view_cents currentState) (toFixed2 (view_cents currentState))
         false, ps)
  | Some aiResponse =>
      let '(finalPrice, finalMessage, isDataOffer_, ps') :=
        match action aiResponse with
        | A_quote_price =>
            let ps1 :=
              match matchTopic message_ with
              | Some extractedTopic => setTopic walletAddress extractedTopic ps
              | None => ps
              end in
            (view_cents currentState,
             replacePrice (message aiResponse)
               (String.append "$" (toFixed2 (view_cents currentState))),
             true, ps1)
        | A_pushback =>
            let ps1 := (incrementNegotiationAttempts walletAddress ps).2 in
            (view_cents currentState, message aiResponse, false, ps1)
        | A_discount =>
            let attempts := view_negotiationAttempts currentState in
            if attempts =? 0 then
              let ps1 := (incrementNegotiationAttempts walletAddress ps).2 in
              (view_cents currentState,
               "Too expensive? That's already a steal for premium docs!",
               false, ps1)
            else
              let ps1 := (incrementNegotiationAttempts walletAddress ps).2 in
              let nextPrice := getNextPrice domain_ (view_cents currentState) in
              if nextPrice <? view_cents currentState then
                let '(updateResult, ps2) :=
                  updatePrice walletAddress nextPrice ps1 in
                if upd_success updateResult then
                  (nextPrice,
                   (if negb (testPrice (message aiResponse))
                    then String.append (message aiResponse)
                           (String.append " $"
                              (String.append (toFixed2 nextPrice) "!"))
                    else replacePrice (message aiResponse)
                           (String.append "$" (toFixed2 nextPrice))),
                   false, ps2)
                else
                  (view_cents currentState, message aiResponse, false, ps2)
              else
                (floor, "That's the best I can do!", false, ps1)
        | A_floor =>
            let ps1 := (incrementNegotiationAttempts walletAddress ps).2 in
            let ps2 :=
              if floor <? view_cents currentState
              then (updatePrice walletAddress floor ps1).2
              else ps1 in
            (floor, message aiResponse, false, ps2)
        | A_chat | A_other =>
            (view_cents currentState, message aiResponse, false, ps)
        end in
      (mkAgent finalMessage finalPrice (toFixed2 finalPrice)
         (isDataOffer_ || testOffer finalMessage), ps')
  end.

(** A whole turn during whose [await] no other request touches the
    pricing state: the second part resumes on the state the first part
    left, with the copy it took.  The result is [None] when the key is
    missing. *)
Definition runNegotiationAgent (apiKey : option string)
    (reply : option AIResponse)
    (message_ walletAddress domain_ : string) (ps : PricingState)
  : option AgentResult * PricingState :=
  match runNegotiationAgent_begin apiKey walletAddress domain_ ps with
  | (None, ps0) => (None, ps0)
  | (Some currentState, ps0) =>
      let '(result, ps') :=
        runNegotiationAgent_resume currentState reply message_ walletAddress
          domain_ ps0 in
      (Some result, ps')
  end.

(** The stored price of a wallet, when it has an entry. *)
Definition priceOf (walletAddress : string) (ps : PricingState) : option Z :=
  cents <$> ps !! walletAddress.

Definition attemptsOf (walletAddress : string) (ps : PricingState)
  : option Z :=
  negotiationAttempts <$> ps !! walletAddress.

(** A pricing operation on the state: a price lookup, a direct
    [updatePrice], a whole agent turn that nothing interrupts, or one of
    the two parts of a turn on its own.  The second part carries the copy
    of the state the turn took before its [await]; with the parts of
    several turns in one sequence, the sequence is an interleaving of
    these turns. *)
Inductive PricingOp : Type :=
  | OpGetCurrentPrice (walletAddress domain_ : string)
  | OpUpdatePrice (walletAddress : string) (newPriceCents : Z)
  | OpAgent (apiKey : option string) (reply : option AIResponse)
      (message_ walletAddress domain_ : string)
  | OpAgentBegin (apiKey : option string) (walletAddress domain_ : string)
  | OpAgentResume (currentState : PriceView) (reply : option AIResponse)
      (message_ walletAddress domain_ : string).

Definition applyOp (op : PricingOp) (ps : PricingState) : PricingState :=
  match op with
  | OpGetCurrentPrice w d => (getCurrentPrice w d ps).2
  | OpUpdatePrice w p => (updatePrice w p ps).2
  | OpAgent k r m w d => (runNegotiationAgent k r m w d ps).2
  | OpAgentBegin k w d => (runNegotiationAgent_begin k w d ps).2
  | OpAgentResume cs r m w d => (runNegotiationAgent_resume cs r m w d ps).2
  end.

(** The operation does not work from an outdated price: it is no direct
    [updatePrice], and when it is the second part of a turn, the price the
    turn read before its [await] is still the stored price of its wallet.
    Price lookups, first parts and whole turns always qualify. *)
Definition currentAt (ps : PricingState) (op : PricingOp) : bool :=
  match op with
  | OpUpdatePrice _ _ => false
  | OpAgentResume cs _ _ w _ =>
      bool_decide (priceOf w ps = Some (view_cents cs))
  | _ => true
  end.

(** Every operation of the sequence qualifies on the state it runs on. *)
Fixpoint allCurrent (ops : list PricingOp) (ps : PricingState) : bool :=
  match ops with
  | [] => true
  | op :: ops' => currentAt ps op && allCurrent ops' (applyOp op ps)
  end.

(** The operation is a turn of the wallet, whole or resumed, whose reply
    is [quote_price] and whose user message names a topic. *)
Definition namesTopic (walletAddress : string) (op : PricingOp) : bool :=
  match op with
  | OpAgent (Some _) (Some r) m w _
  | OpAgentResume _ (Some r) m w _ =>
      match action r, matchTopic m with
      | A_quote_price, Some _ => bool_decide (w = walletAddress)
      | _, _ => false
      end
  | _ => false
  end.

(** Every stored price is at or above the floor of the entry's domain. *)
Definition aboveFloor (ps : PricingState) : Prop :=
  forall w e, ps !! w = Some e -> getFloorPrice (domain e) <= cents e.

(** How the second part of a turn that took the copy [cs] may move the
    entry of its wallet from [e0] to [e1]: the domain is kept; the price
    stays at or above the floor when it was; round and attempts grow by at
    most one; and when the price of the copy is still the stored one, the
    entry keeps price and round, or the price goes down and the round up
    by one. *)
Definition entryAdvance (cs : PriceView) (e0 e1 : PricingEntry) : Prop :=
  domain e1 = domain e0 /\
  (getFloorPrice (domain e0) <= cents e0 ->
   getFloorPrice (domain e1) <= cents e1) /\
  round e0 <= round e1 <= round e0 + 1 /\
  negotiationAttempts e0 <= negotiationAttempts e1
    <= negotiationAttempts e0 + 1 /\
  (view_cents cs = cents e0 ->
   round e1 = round e0 /\ cents e1 = cents e0 \/
   round e1 = round e0 + 1 /\ cents e1 < cents e0).

End Pricing.

(** ** payment/middleware.ts *)

(** The parts of the HTTP request the middleware reads. *)
Record Request : Type := mkReq {
  hdr_walletAddress : option string;        (* headers["x-wallet-address"] *)
  body_walletAddress : option string;
  hdr_domain : option string;               (* headers["x-domain"] *)
  body_domain : option string;
  body_useCreditsFirst : option bool;
  hdr_paymentAuthorization : option string  (* headers["payment-authorization"] *)
}.

(** [a || b] on optional strings: the empty string is falsy.  With [None]
    for [b] it leaves a value exactly when [a] is truthy. *)
Definition orElse (a b : option string) : option string :=
  match a with
  | Some x => if bool_decide (x = "") then b else Some x
  | None => b
  end.

(** [!!a] *)
Definition truthy (a : option string) : bool :=
  match orElse a None with Some _ => true | None => false end.

(** What the x402 resource server answers.  Any awaited call into it (or
    [getPayTo]) that rejects lands in the [catch] block. *)
Inductive X402Result : Type :=
  | X402Throws
  | X402PaymentError (status : Z)
  | X402PaymentVerified (settlement_success : bool)
      (settlement_transaction : option string)
  | X402Other.

Record Payment : Type := mkPayment {
  pay_creditsDeducted : Z;
  pay_usdcPaid : Z;
  pay_transactionId : option string
}.

Inductive Outcome : Type :=
  | Status400
  | Status500
  | Next (payment : option Payment)
  | Challenge (status : Z) (creditsDeducted_ remainingRequiredCents : Z)
  | SettlementFailed.

Record World : Type := mkWorld {
  store : Store;
  pricing : PricingState
}.

(** [txCol.findOne({ userId, type: 'USAGE' }, { sort: { createdAt: -1 } })]:
    the USAGE row of the user with the greatest [createdAt] (the earliest
    inserted one among equals). *)
Definition later (best : option CreditTransaction) (t : CreditTransaction)
  : option CreditTransaction :=
  match best with
  | None => Some t
  | Some b => if tx_createdAt b <? tx_createdAt t then Some t else Some b
  end.

Definition q_usageOfUser (userId : string) (t : CreditTransaction) : bool :=
  bool_decide (tx_userId t = userId) && bool_decide (tx_type t = USAGE).

Definition findLatestUsage (userId : string) (s : Store)
  : option CreditTransaction :=
  fold_left (fun best t => if q_usageOfUser userId t then later best t else best)
            (creditTransactions s) None.

(** What the settling branch recovers:
    [(remainingCostCents, creditsDeducted, transactionId)]. *)
Definition recoverDeduction (nowMs actionCost : Z)
    (latestTx : option CreditTransaction) : Z * Z * option string :=
  match latestTx with
  | Some t =>
      if nowMs - tx_createdAt t <? 300000
      then (actionCost - (- tx_amount t), - tx_amount t, Some (tx_id t))
      else (actionCost, 0, None)
  | None => (actionCost, 0, None)
  end.

Section Middleware.
Context `{zk : ZkVerifier}.

(** [requirePayment()].  [e] is the environment of the middleware itself,
    [envs] the one of the [processPayment] call it makes, [x402] the answer
    of the resource server should it be consulted.  The result is [None]
    only when [processPayment] does not return within [fuel] steps. *)
Definition requirePayment (fuel : nat) (e : Env) (envs : nat -> Env)
    (x402 : X402Result) (req : Request) (w : World)
  : option (Outcome * World) :=
  match orElse (orElse (hdr_walletAddress req) (body_walletAddress req)) None
  with
  | None => Some (Status400, w)
  | Some walletAddress =>
    let domain_ :=
      default "unknown" (orElse (orElse (hdr_domain req) (body_domain req))
                                (Some "unknown")) in
    let useCreditsFirst :=
      match body_useCreditsFirst req with Some false => false | _ => true end in
    let isSettling := truthy (hdr_paymentAuthorization req) in
    let '(state, ps) := getCurrentPrice walletAddress domain_ (pricing w) in
    let actionCost := view_cents state in
    let paymentPref :=
      if useCreditsFirst then CREDITS_FIRST else PAY_DIRECT_USDC in
    let attempt : option (Z * Z * option string * Store) :=
      if negb isSettling then
        match processPayment fuel envs actionCost walletAddress paymentPref
                (store w) with
        | Some (result, s') =>
            Some (remainingCostCents result, creditsDeducted result,
                  transactionId result, s')
        | None => None
        end
      else
        let latestTx := findLatestUsage walletAddress (store w) in
        Some (recoverDeduction (now e) actionCost latestTx, store w) in
    match attempt with
    | None => None
    | Some (remainingCostCents_, creditsDeducted_, transactionId_, s1) =>
      if (remainingCostCents_ <=? 0) && negb isSettling then
        Some (Next (Some (mkPayment creditsDeducted_ 0 transactionId_)),
              mkWorld s1 ps)
      else
        match x402 with
        | X402Throws => Some (Status500, mkWorld s1 ps)
        | X402PaymentError status =>
            Some (Challenge status creditsDeducted_ remainingCostCents_,
                  mkWorld s1 ps)
        | X402PaymentVerified false _ =>
            Some (SettlementFailed, mkWorld s1 ps)
        | X402PaymentVerified true transaction =>
            let s2 := insertOneTx
              (mkTx (default (uuid e) (orElse transactionId_ None))
                    walletAddress DIRECT_USDC remainingCostCents_
                    (orElse transaction None) CONFIRMED
                    (Some (MetaAction "x402_fallback")) (now e)) s1 in
            Some (Next (Some (mkPayment creditsDeducted_ remainingCostCents_
                                (orElse transaction transactionId_))),
                  mkWorld s2 ps)
        | X402Other => Some (Next None, mkWorld s1 ps)
        end
    end
  end.

End Middleware.

(** ** verifyTransaction *)

Definition lowerAscii (c : ascii) : ascii :=
  let n := Ascii.nat_of_ascii c in
  if ((65 <=? n) && (n <=? 90))%nat then Ascii.ascii_of_nat (n + 32) else c.

(** [s.toLowerCase()] on the ASCII strings addresses and hashes are. *)
Fixpoint toLowerCase (s : string) : string :=
  match s with
  | EmptyString => EmptyString
  | String c r => String (lowerAscii c) (toLowerCase r)
  end.

(** [s.slice(n)] for [n >= 0]. *)
Fixpoint slice (n : nat) (s : string) : string :=
  match n, s with
  | O, _ => s
  | S n', String _ r => slice n' r
  | S _, EmptyString => EmptyString
  end.

Definition hexDigit (c : ascii) : option Z :=
  let n := Z.of_nat (Ascii.nat_of_ascii c) in
  if (48 <=? n) && (n <=? 57) then Some (n - 48)
  else if (97 <=? n) && (n <=? 102) then Some (n - 87)
  else if (65 <=? n) && (n <=? 70) then Some (n - 55)
  else None.

Fixpoint hexValue (acc : Z) (s : string) : option Z :=
  match s with
  | EmptyString => Some acc
  | String c r =>
      match hexDigit c with
      | Some d => hexValue (16 * acc + d) r
      | None => None
      end
  end.

(** [BigInt(data)] on a [Hex] value ([0x] followed by hexadecimal digits);
    [None] is the [SyntaxError] thrown when no digit follows or a character
    is not a digit. *)
Definition BigInt (data : string) : option Z :=
  match data with
  | String "0"%char (String "x"%char (String c r)) =>
      hexValue 0 (String c r)
  | _ => None
  end.

Definition transferSignature : string :=
  "0xddf252ad1be2c89b69c2b068fc378daa952ba7f163c4a11628f55a4df523b3ef".

Record Log : Type := mkLog {
  log_address : string;
  log_topics : list string;
  log_data : string
}.

Inductive ReceiptStatus : Type := status_success | status_reverted.

Record Receipt : Type := mkReceipt {
  rc_status : ReceiptStatus;
  rc_logs : list Log
}.

Record ChainTx : Type := mkChainTx {
  chain_from : string;
  chain_value : Z
}.

(** [`0x${log.topics[1]?.slice(26)}`] *)
Definition fromHex (log : Log) : string :=
  String.append "0x"
    match log_topics log !! 1%nat with
    | Some t => slice 26 t
    | None => "undefined"
    end.

(** The loop over [receipt.logs]; [None] when [BigInt] throws. *)
Fixpoint paidAmountRaw (userWallet : string) (logs : list Log) (acc : Z)
  : option Z :=
  match logs with
  | [] => Some acc
  | log :: rest =>
      if bool_decide (log_topics log !! 0%nat = Some transferSignature) then
        if bool_decide (toLowerCase (fromHex log) = toLowerCase userWallet) then
          match BigInt (log_data log) with
          | Some v => paidAmountRaw userWallet rest (acc + v)
          | None => None
          end
        else paidAmountRaw userWallet rest acc
      else paidAmountRaw userWallet rest acc
  end.

(** [verifyTransaction].  [receipt] and [tx] are what
    [client.getTransactionReceipt] and [client.getTransaction] resolve to;
    [None] is a rejected call, which the [catch] block turns into [false]. *)
Definition verifyTransaction (receipt : option Receipt) (tx : option ChainTx)
    (expectedCents : Z) (userWallet : string) : bool :=
  match receipt with
  | None => false
  | Some receipt =>
      match rc_status receipt with
      | status_reverted => false
      | status_success =>
          match tx with
          | None => false
          | Some tx =>
              if negb (bool_decide (toLowerCase (chain_from tx)
                                    = toLowerCase userWallet))
              then false
              else
                match paidAmountRaw userWallet (rc_logs receipt) 0 with
                | None => false
                | Some paid =>
                    let expectedUnits := expectedCents * 10000 in
                    if expectedUnits <=? paid then true
                    else if 0 <? chain_value tx then true
                    else false
                end
          end
      end
  end.

(** ** Instances used to run the code on concrete inputs *)

(** Modelled from the spec: the PricingTier record of the data model, the
    static configuration the missing [lib/zkVerifier] holds per domain
    class. *)
Record PricingTier : Type := mkTier {
  startingPriceCents : Z;
  floorPriceCents : Z;
  discountSchedule : list Z
}.

(** Modelled from the spec: [lib/zkVerifier] ([getStartingPrice],
    [getFloorPrice], [getNextPrice]) is missing from the sources.  A tier has
    a starting price, a floor and a schedule of strictly decreasing prices;
    the next price is the first price of the schedule strictly below the
    current one, and the floor when none remains. *)
Definition nextInSchedule (t : PricingTier) (current : Z) : Z :=
  match List.find (fun p => p <? current) (discountSchedule t) with
  | Some p => p
  | None => floorPriceCents t
  end.

(** Modelled from the spec: the example tier [{start=10, floor=5,
    schedule=[10,7,5]}], applied to every domain (the classification of
    domains into tiers, also in the missing [lib/zkVerifier], is left out). *)
Definition specTier : PricingTier := mkTier 10 5 [10; 7; 5].

Definition specZk : ZkVerifier := {|
  getStartingPrice := fun _ => startingPriceCents specTier;
  getFloorPrice := fun _ => floorPriceCents specTier;
  getNextPrice := fun _ current => nextInSchedule specTier current
|}.

(** Stand-ins for the text built-ins: prices print as the empty string and
    the regular expressions never match.  The theorems below hold for every
    instance; this one only serves to evaluate examples. *)
Definition plainText : TextOps := {|
  toFixed2 := fun _ => "";
  matchTopic := fun _ => None;
  testPrice := fun _ => false;
  replacePrice := fun m _ => m;
  testOffer := fun _ => false
|}.

(** A second stand-in, for examples with a topic: a user message that
    starts with [about ] names the rest of the message as its topic. *)
Definition aboutText : TextOps := {|
  toFixed2 := fun _ => "";
  matchTopic := fun m =>
    if String.prefix "about " m
    then Some (String.substring 6 (String.length m - 6) m)
    else None;
  testPrice := fun _ => false;
  replacePrice := fun m _ => m;
  testOffer := fun _ => false
|}.

Definition env0 : Env := mkEnv "uuid-0" 1000.
Definition envs0 : nat -> Env :=
  fun k => mkEnv (String.append "uuid-" (String (Ascii.ascii_of_nat (48 + k)) EmptyString))
                 (1000 + Z.of_nat k).

(** ** Vocabulary of the statements *)

(** CONFIRMED PURCHASE rows carrying the reference [txHash]. *)
Definition confirmedPurchases (txHash : string) (s : Store)
  : list CreditTransaction :=
  List.filter (fun t => q_confirmedDeposit txHash t
                        && bool_decide (tx_type t = PURCHASE))
              (creditTransactions s).

(** REFUND rows referring to the transaction [id]. *)
Definition refundsOf (id : string) (s : Store) : list CreditTransaction :=
  List.filter (q_refundOf id) (creditTransactions s).

(** Credits a suspended call has taken from the balance of [userId] and not
    yet written to the log. *)
Definition inflightOf (userId : string) (th : Thread) : Z :=
  match th_task th with
  | AwaitInsertOne _ d =>
      if bool_decide (call_userId (th_call th) = userId) then d else 0
  | _ => 0
  end.

Definition inflight (userId : string) (ths : list Thread) : Z :=
  sumZ (inflightOf userId) ths.

(** What is known of a suspended call: its cost is positive, and the amount
    it is about to deduct is positive, at most the cost, and either the
    cost or at least the present balance (balances only shrink while only
    deductions run). *)
Definition task_ok (s : Store) (th : Thread) : Prop :=
  match th_task th with
  | AwaitFindOne _ => 0 < actionCostCents (th_call th)
  | AwaitFindOneAndUpdate _ d =>
      0 < d <= actionCostCents (th_call th) /\
      (d = actionCostCents (th_call th) \/
       getUserCredits (call_userId (th_call th)) s <= d)
  | AwaitInsertOne _ d => 0 < d
  | Returned _ => True
  end.

Definition ledger_inv (sys : System) : Prop :=
  (forall u, 0 <= getUserCredits u sys.1) /\
  (forall u, usageSum u sys.1 + inflight u sys.2 + getUserCredits u sys.1
             <= creditSum u sys.1) /\
  Forall (task_ok sys.1) sys.2.

(** A schedule: calls arriving and calls advancing by one store operation,
    in the order in which they happen. *)
Inductive Event : Type :=
  | Arrive (e : Env) (c : PaymentCall)
  | Advance (i : nat) (e : Env).

Definition runEvent (ev : Event) (sys : System) : System :=
  match ev with
  | Arrive e c => (sys.1, sys.2 ++ [mkThread c (processPayment_enter e c)])
  | Advance i e =>
      match sys.2 !! i with
      | Some th =>
          let r := processPayment_step e (th_call th) (th_task th) sys.1 in
          (r.2, <[i := mkThread (th_call th) r.1]> sys.2)
      | None => sys
      end
  end.

Definition runSchedule (evs : list Event) (sys : System) : System :=
  fold_left (fun sys ev => runEvent ev sys) evs sys.

(** A funded account and two calls of cost 60 racing for its 100 credits:
    both read the balance, the first deducts 60, the update of the second is
    rejected and it starts over with the 40 that are left. *)
Definition raceStore : Store :=
  mkStore {["0xabc" := mkUserCredit 100 100 0 0]}
          [mkTx "p1" "0xabc" PURCHASE 100 (Some "tx1") CONFIRMED None 0].

Definition raceSchedule : list Event :=
  let c := mkCall 60 "0xabc" CREDITS_FIRST in
  [Arrive (envs0 0) c; Arrive (envs0 1) c;
   Advance 0 (envs0 2); Advance 1 (envs0 3);
   Advance 0 (envs0 4); Advance 1 (envs0 5);
   Advance 0 (envs0 6); Advance 1 (envs0 7)].

(** A sequence of pricing operations applied in order. *)
Definition runOps `{zk : ZkVerifier} `{txt : TextOps} (ops : list PricingOp)
    (ps : PricingState) : PricingState :=
  fold_left (fun st op => applyOp op st) ops ps.

(** What [findLatestUsage] is to return among the rows [seen]: nothing when
    [seen] has no USAGE row of the user, else such a row with no later one. *)
Definition latestAmong (userId : string) (seen : list CreditTransaction)
    (r : option CreditTransaction) : Prop :=
  match r with
  | None => forall t, In t seen -> q_usageOfUser userId t = false
  | Some b =>
      In b seen /\ q_usageOfUser userId b = true /\
      forall t, In t seen -> q_usageOfUser userId t = true ->
                tx_createdAt t <= tx_createdAt b
  end.

(** The DIRECT_USDC row the middleware records after a settlement. *)
Definition fallbackRow (e : Env) (walletAddress : string) (remaining : Z)
    (transactionId_ transaction : option string) : CreditTransaction :=
  mkTx (default (uuid e) (orElse transactionId_ None)) walletAddress
       DIRECT_USDC remaining (orElse transaction None) CONFIRMED
       (Some (MetaAction "x402_fallback")) (now e).

(** The domain the middleware prices a request with. *)
Definition requestDomain (req : Request) : string :=
  default "unknown" (orElse (orElse (hdr_domain req) (body_domain req))
                            (Some "unknown")).

(** A wallet holding 6 credits, priced at the tier's 10 cents: its first
    request, and the same request resumed with a payment authorization. *)
Definition fundedWorld : World :=
  mkWorld
    (mkStore {["0xabc" := mkUserCredit 6 6 0 0]}
             [mkTx "p1" "0xabc" PURCHASE 6 (Some "tx1") CONFIRMED None 0])
    ∅.

Definition firstRequest : Request :=
  mkReq (Some "0xabc") None (Some "acme.com") None None None.

Definition resumedRequest : Request :=
  mkReq (Some "0xabc") None (Some "acme.com") None None
        (Some "signed-authorization").

(** A receipt with one USDC Transfer of 400000 base units (40 cents) from
    the wallet [0x11..11]. *)
Definition payerWallet : string :=
  "0x1111111111111111111111111111111111111111".

Definition paidReceipt : Receipt :=
  mkReceipt status_success
    [mkLog "0x036CbD53842c5426634e7929541eC2318f3dCF7e"
       [transferSignature;
        "0x0000000000000000000000001111111111111111111111111111111111111111";
        "0x0000000000000000000000002222222222222222222222222222222222222222"]
       "0x61a80"].

(** ** The ledger API called in sequence *)

(** One call of the engine, run to completion before the next starts.  Three
    store operations are all a [processPayment] call running alone needs. *)
Inductive LedgerOp : Type :=
  | DoMint (e : Env) (userId : string) (amountCents : Z) (txHash : string)
  | DoDeduct (envs : nat -> Env) (actionCostCents : Z) (userId : string)
      (paymentPreference : PaymentPreference)
  | DoRefund (e : Env) (originalTransactionId : string).

Definition applyLedgerOp (op : LedgerOp) (s : Store) : Store :=
  match op with
  | DoMint e u a h => (mintCredits e u a h s).2
  | DoDeduct envs c u pref =>
      match processPayment 3 envs c u pref s with
      | Some (_, s') => s'
      | None => s
      end
  | DoRefund e id => (refundCredits e id s).2
  end.

Definition runLedger (ops : list LedgerOp) (s : Store) : Store :=
  fold_left (fun st op => applyLedgerOp op st) ops s.

(** The books balance: every balance is what the log says (confirmed
    credit-increasing rows minus confirmed USAGE), and every user with a
    confirmed USAGE row has an account. *)
Definition booksBalance (s : Store) : Prop :=
  (forall u, getUserCredits u s = creditSum u s - usageSum u s) /\
  (forall t, In t (creditTransactions s) ->
             tx_type t = USAGE -> tx_status t = CONFIRMED ->
             is_Some (userCredits s !! tx_userId t)).

(** At most one CONFIRMED row carries a given [txHash], and at most one
    REFUND row refers to a given transaction. *)
Definition confirmedRefs (txHash : string) (s : Store)
  : list CreditTransaction :=
  List.filter (q_confirmedDeposit txHash) (creditTransactions s).

Definition uniqueRefs (s : Store) : Prop :=
  (forall h, (length (confirmedRefs h s) <= 1)%nat) /\
  (forall id, (length (refundsOf id s) <= 1)%nat).

(** Every account has [balance = lifetimePurchased - lifetimeUsed]. *)
Definition lifetimesAgree (s : Store) : Prop :=
  forall u c, userCredits s !! u = Some c ->
              balance c = lifetimePurchased c - lifetimeUsed c.

(** All calls of a system have returned. *)
Definition allReturned (ths : list Thread) : bool :=
  forallb (fun th => match th_task th with Returned _ => true | _ => false end)
          ths.

(** ** index.ts: the wallet routes *)

(** [txCol.find({ userId }).sort({ createdAt: -1 }).limit(20).toArray()].
    Rows of equal date are kept in insertion order (the driver fixes no
    order among them). *)
Fixpoint insertByDate (t : CreditTransaction) (l : list CreditTransaction)
  : list CreditTransaction :=
  match l with
  | [] => [t]
  | x :: r =>
      if tx_createdAt x <=? tx_createdAt t then t :: l
      else x :: insertByDate t r
  end.

Definition sortNewestFirst (l : list CreditTransaction)
  : list CreditTransaction :=
  foldr insertByDate [] l.

Definition q_ofUser (userId : string) (t : CreditTransaction) : bool :=
  bool_decide (tx_userId t = userId).

(** [GET /api/wallet/history/:walletAddress] *)
Definition walletHistory (walletAddress : string) (s : Store)
  : list CreditTransaction :=
  take 20 (sortNewestFirst
             (List.filter (q_ofUser walletAddress) (creditTransactions s))).

(** [POST /api/wallet/fund]: the body fields, and the three answers. *)
Record FundBody : Type := mkFund {
  fund_walletAddress : option string;
  fund_amountCents : option Z;
  fund_txHash : option string
}.

Inductive FundResponse : Type :=
  | FundMissingParameters   (* 400 'Mission parameters for funding' *)
  | FundSuccess             (* { success: true } *)
  | FundFailed.             (* 400 'Failed to find credits or tx Hash ...' *)

Definition fundRoute (e : Env) (body : FundBody) (s : Store)
  : FundResponse * Store :=
  match orElse (fund_walletAddress body) None,
        fund_amountCents body,
        orElse (fund_txHash body) None with
  | Some walletAddress, Some amountCents, Some txHash =>
      if amountCents =? 0 then (FundMissingParameters, s)
      else
        let '(success, s') := mintCredits e walletAddress amountCents txHash s in
        if success then (FundSuccess, s') else (FundFailed, s')
  | _, _, _ => (FundMissingParameters, s)
  end.

(** [POST /unlock]: the total the handler reports,
    [(req.payment?.creditsDeducted || 0) + (req.payment?.usdcPaid || 0)]. *)
Definition unlock_totalPaid (payment : option Payment) : Z :=
  match payment with
  | Some p => pay_creditsDeducted p + pay_usdcPaid p
  | None => 0
  end.

(** ** api/x402Express.ts *)

Inductive X402Response : Type :=
  | X400
  | X500
  | XCovered (transactionHash : option string) (pricePaidCents : Z)
  | XChallenge (status : Z)
      (currentPriceCents remainingRequiredCents creditsDeducted_ : Z)
  | XSettlementFailed
  | XSettled (transactionHash : option string) (pricePaidCents : Z)
  | XNoPayment.

Section X402Express.
Context `{zk : ZkVerifier}.

(** [handleX402Request].  [walletHdr] and [domainHdr] are the
    [x-wallet-address] and [x-domain] headers; [x402] is the answer of the
    resource server should it be consulted. *)
Definition handleX402Request (fuel : nat) (envs : nat -> Env)
    (x402 : X402Result) (walletHdr domainHdr : option string) (w : World)
  : option (X402Response * World) :=
  match orElse walletHdr None with
  | None => Some (X400, w)
  | Some walletAddress =>
    let domain_ := default "unknown" (orElse domainHdr (Some "unknown")) in
    let '(state, ps) := getCurrentPrice walletAddress domain_ (pricing w) in
    let actionCostCents_ := view_cents state in
    match processPayment fuel envs actionCostCents_ walletAddress CREDITS_FIRST
            (store w) with
    | None => None
    | Some (result, s1) =>
      if remainingCostCents result <=? 0 then
        Some (XCovered (transactionId result) actionCostCents_, mkWorld s1 ps)
      else
        match x402 with
        | X402Throws => Some (X500, mkWorld s1 ps)
        | X402PaymentError status =>
            Some (XChallenge status actionCostCents_
                    (remainingCostCents result) (creditsDeducted result),
                  mkWorld s1 ps)
        | X402PaymentVerified false _ =>
            Some (XSettlementFailed, mkWorld s1 ps)
        | X402PaymentVerified true transaction =>
            Some (XSettled (orElse transaction None)
                    (remainingCostCents result), mkWorld s1 ps)
        | X402Other => Some (XNoPayment, mkWorld s1 ps)
        end
    end
  end.

End X402Express.

(** Credits the returned calls of a system report as deducted from
    [userId]. *)
Definition reportedOf (userId : string) (th : Thread) : Z :=
  match th_task th with
  | Returned r =>
      if bool_decide (call_userId (th_call th) = userId)
      then creditsDeducted r else 0
  | _ => 0
  end.

Definition reported (userId : string) (ths : list Thread) : Z :=
  sumZ (reportedOf userId) ths.

Definition isRefundOp (op : LedgerOp) : bool :=
  match op with DoRefund _ _ => true | _ => false end.

(** The wallet a pricing operation addresses. *)
Definition walletOf (op : PricingOp) : string :=
  match op with
  | OpGetCurrentPrice w _ => w
  | OpUpdatePrice w _ => w
  | OpAgent _ _ _ w _ => w
  | OpAgentBegin _ w _ => w
  | OpAgentResume _ _ _ w _ => w
  end.

(** * Theorems *)

(** ** Ledger: funding and refunds *)

Lemma find_app_None {A} (p : A -> bool) (l1 l2 : list A) :
  List.find p l1 = None -> List.find p (l1 ++ l2) = List.find p l2.
Proof.
  induction l1 as [|x l1 IH]; simpl; [done|].
  destruct (p x); [done|]. exact IH.
Qed.

Lemma find_app_Some {A} (p : A -> bool) (l1 l2 : list A) (x : A) :
  List.find p l1 = Some x -> List.find p (l1 ++ l2) = Some x.
Proof.
  induction l1 as [|y l1 IH]; simpl; [done|].
  destruct (p y); [done|]. exact IH.
Qed.

Lemma filter_find_None {A} (p q : A -> bool) (l : list A) :
  List.find p l = None -> (forall x, q x = true -> p x = true) ->
  List.filter q l = [].
Proof.
  intros Hf Hq. induction l as [|x l IH]; simpl in *; [done|].
  destruct (p x) eqn:Hp; [done|].
  destruct (q x) eqn:Hqx.
  - apply Hq in Hqx. congruence.
  - by apply IH.
Qed.

Lemma getUserCredits_upsertPurchase (u : string) (a t : Z) (s : Store) :
  getUserCredits u (upsertPurchase u a t s) = getUserCredits u s + a.
Proof.
  unfold getUserCredits, findOneCredit, upsertPurchase; simpl.
  rewrite lookup_insert_eq.
  destruct (userCredits s !! u); simpl; lia.
Qed.

Lemma getUserCredits_insertOneTx (u : string) (row : CreditTransaction)
    (s : Store) :
  getUserCredits u (insertOneTx row s) = getUserCredits u s.
Proof. reflexivity. Qed.

Lemma mintCredits_fresh (e : Env) (u : string) (a : Z) (h : string)
    (s : Store) :
  findOneTx (q_confirmedDeposit h) s = None ->
  mintCredits e u a h s =
    (true,
     upsertPurchase u a (now e)
       (insertOneTx (mkTx (uuid e) u PURCHASE a (Some h) CONFIRMED None (now e))
                    s)).
Proof. intros Hf. unfold mintCredits. by rewrite Hf. Qed.

Lemma mintCredits_recorded (e : Env) (u : string) (a : Z) (h : string)
    (s : Store) :
  is_Some (findOneTx (q_confirmedDeposit h) (mintCredits e u a h s).2).
Proof.
  destruct (findOneTx (q_confirmedDeposit h) s) as [t|] eqn:Hf.
  - unfold mintCredits. rewrite Hf. simpl. rewrite Hf. by eexists.
  - rewrite (mintCredits_fresh _ _ _ _ _ Hf). simpl.
    unfold findOneTx in *. simpl.
    rewrite (find_app_None _ _ _ Hf). simpl.
    unfold q_confirmedDeposit. simpl.
    rewrite !bool_decide_eq_true_2 by done. by eexists.
Qed.

(** C3: two [mintCredits] calls with one reference.  The second call returns
    [true] and leaves the store as the first call left it; when no CONFIRMED
    row carried the reference before, the balance has grown by the amount
    once and exactly one CONFIRMED PURCHASE row carries the reference. *)
Theorem mintCredits_twice_once (e1 e2 : Env) (userId : string)
    (amountCents : Z) (txHash : string) (s : Store) :
  let s1 := (mintCredits e1 userId amountCents txHash s).2 in
  let s2 := (mintCredits e2 userId amountCents txHash s1).2 in
  (mintCredits e1 userId amountCents txHash s).1 = true /\
  mintCredits e2 userId amountCents txHash s1 = (true, s1) /\
  (findOneTx (q_confirmedDeposit txHash) s = None ->
   getUserCredits userId s2 = getUserCredits userId s + amountCents /\
   length (confirmedPurchases txHash s2) = 1%nat).
Proof.
  intros s1 s2.
  assert (Hsecond : mintCredits e2 userId amountCents txHash s1 = (true, s1)).
  { destruct (mintCredits_recorded e1 userId amountCents txHash s) as [t Ht].
    fold s1 in Ht. unfold mintCredits. by rewrite Ht. }
  split; [|split; [exact Hsecond|]].
  - unfold mintCredits. by destruct (findOneTx _ s).
  - intros Hf. subst s2. rewrite Hsecond. simpl. subst s1.
    rewrite (mintCredits_fresh _ _ _ _ _ Hf). simpl. split.
    + by rewrite getUserCredits_upsertPurchase.
    + unfold confirmedPurchases. simpl. rewrite List.filter_app.
      rewrite (filter_find_None (q_confirmedDeposit txHash)).
      * simpl. unfold q_confirmedDeposit. simpl.
        by rewrite !bool_decide_eq_true_2 by done.
      * exact Hf.
      * intros x Hx. by apply andb_prop in Hx as [? _].
Qed.

Lemma mintCredits_twice_once_witness :
  let s := mkStore ∅ [] in
  let s2 := (mintCredits env0 "0xabc" 500 "tx1"
               (mintCredits env0 "0xabc" 500 "tx1" s).2).2 in
  findOneTx (q_confirmedDeposit "tx1") s = None /\
  getUserCredits "0xabc" s2 = getUserCredits "0xabc" s + 500 /\
  length (confirmedPurchases "tx1" s2) = 1%nat.
Proof.
  split; [reflexivity|].
  apply (mintCredits_twice_once env0 env0 "0xabc" 500 "tx1" (mkStore ∅ [])).
  reflexivity.
Defined.

Lemma refundCredits_absent (e : Env) (id : string) (s : Store) :
  findOneTx (q_confirmedUsage id) s = None ->
  refundCredits e id s = (false, s).
Proof. intros H. unfold refundCredits. by rewrite H. Qed.

Lemma refundCredits_already (e : Env) (id : string) (s : Store) :
  is_Some (findOneTx (q_refundOf id) s) ->
  refundCredits e id s = (false, s).
Proof.
  intros [r Hr]. unfold refundCredits.
  destruct (findOneTx (q_confirmedUsage id) s); [|done]. by rewrite Hr.
Qed.

Lemma refundCredits_applies (e : Env) (id : string) (s : Store)
    (originalTx : CreditTransaction) :
  findOneTx (q_confirmedUsage id) s = Some originalTx ->
  findOneTx (q_refundOf id) s = None ->
  refundCredits e id s =
    (true,
     insertOneTx
       (mkTx (uuid e) (tx_userId originalTx) REFUND
             (Z.abs (tx_amount originalTx)) None CONFIRMED
             (Some (MetaRefund id "USDC_FALLBACK_FAILED")) (now e))
       (incBalance (tx_userId originalTx) (Z.abs (tx_amount originalTx))
                   (now e) s)).
Proof. intros H1 H2. unfold refundCredits. by rewrite H1, H2. Qed.

Lemma refundCredits_cases (e : Env) (id : string) (s : Store) :
  refundCredits e id s = (false, s) \/
  exists originalTx,
    findOneTx (q_confirmedUsage id) s = Some originalTx /\
    findOneTx (q_refundOf id) s = None /\
    (refundCredits e id s).1 = true.
Proof.
  destruct (findOneTx (q_confirmedUsage id) s) as [t|] eqn:H1.
  - destruct (findOneTx (q_refundOf id) s) as [r|] eqn:H2.
    + left. apply refundCredits_already. by eexists.
    + right. exists t. by rewrite (refundCredits_applies _ _ _ _ H1 H2).
  - left. by apply refundCredits_absent.
Qed.

(** C4: [refundCredits] returns [false] and changes neither balances nor the
    log when no CONFIRMED USAGE row has the id or a REFUND row already
    refers to it; otherwise it returns [true], credits the absolute amount
    to the account of the row's user and appends one REFUND row tagged with
    the id.  A second call on the same id always returns [false] and is a
    no-op, so the two calls together add at most one REFUND row. *)
Theorem refundCredits_at_most_once (e1 e2 : Env)
    (originalTransactionId : string) (s : Store) :
  let r1 := refundCredits e1 originalTransactionId s in
  match findOneTx (q_confirmedUsage originalTransactionId) s,
        findOneTx (q_refundOf originalTransactionId) s with
  | None, _ | Some _, Some _ => r1 = (false, s)
  | Some originalTx, None =>
      r1.1 = true /\
      creditTransactions r1.2 =
        creditTransactions s
        ++ [mkTx (uuid e1) (tx_userId originalTx) REFUND
                 (Z.abs (tx_amount originalTx)) None CONFIRMED
                 (Some (MetaRefund originalTransactionId
                          "USDC_FALLBACK_FAILED")) (now e1)] /\
      getUserCredits (tx_userId originalTx) r1.2 =
        getUserCredits (tx_userId originalTx) s
        + (if userCredits s !! tx_userId originalTx is Some _
           then Z.abs (tx_amount originalTx) else 0)
  end /\
  refundCredits e2 originalTransactionId r1.2 = (false, r1.2) /\
  (length (refundsOf originalTransactionId
             (refundCredits e2 originalTransactionId r1.2).2)
   <= S (length (refundsOf originalTransactionId s)))%nat.
Proof.
  intros r1.
  assert (Hsecond : refundCredits e2 originalTransactionId r1.2 = (false, r1.2)).
  { destruct (refundCredits_cases e1 originalTransactionId s)
      as [Hno|(t & H1 & H2 & _)].
    - subst r1. rewrite Hno. simpl.
      destruct (refundCredits_cases e2 originalTransactionId s)
        as [Hno2|(t & H1 & H2 & _)]; [done|].
      rewrite (refundCredits_applies _ _ _ _ H1 H2) in Hno. discriminate.
    - subst r1. rewrite (refundCredits_applies _ _ _ _ H1 H2). simpl.
      apply refundCredits_already. unfold findOneTx in *. simpl.
      rewrite (find_app_None _ _ _ H2). simpl. unfold q_refundOf. simpl.
      rewrite !bool_decide_eq_true_2 by done. by eexists. }
  split; [|split; [exact Hsecond|]].
  - subst r1.
    destruct (findOneTx (q_confirmedUsage originalTransactionId) s)
      as [t|] eqn:H1; [|by apply refundCredits_absent].
    destruct (findOneTx (q_refundOf originalTransactionId) s)
      as [r|] eqn:H2; [apply refundCredits_already; rewrite H2; by eexists|].
    rewrite (refundCredits_applies _ _ _ _ H1 H2). simpl.
    split; [done|split; [done|]].
    unfold getUserCredits, findOneCredit, incBalance. simpl.
    rewrite lookup_alter_eq.
    destruct (userCredits s !! tx_userId t); simpl; lia.
  - rewrite Hsecond. simpl. subst r1.
    destruct (refundCredits_cases e1 originalTransactionId s)
      as [Hno|(t & H1 & H2 & _)]; [rewrite Hno; simpl; lia|].
    rewrite (refundCredits_applies _ _ _ _ H1 H2).
    unfold refundsOf. simpl. rewrite List.filter_app, length_app. simpl.
    destruct (q_refundOf _ _); simpl; lia.
Qed.

(** A deduction of 60 refunded twice: the first call restores the balance,
    the second changes nothing. *)
Example refundCredits_twice_example :
  let usage := mkTx "u1" "0xabc" USAGE (-60) None CONFIRMED
                    (Some (MetaUsage 100)) 10 in
  let s := mkStore {["0xabc" := mkUserCredit 0 60 60 10]} [usage] in
  let r1 := refundCredits env0 "u1" s in
  let r2 := refundCredits env0 "u1" r1.2 in
  r1.1 = true /\ getUserCredits "0xabc" r1.2 = 60 /\
  r2.1 = false /\ getUserCredits "0xabc" r2.2 = 60 /\
  length (refundsOf "u1" r2.2) = 1%nat.
Proof. vm_compute. repeat split. Qed.

(** ** Ledger: deductions *)

Lemma processPayment_enter_positive (e : Env) (c : PaymentCall) :
  0 < actionCostCents c -> paymentPreference c = CREDITS_FIRST ->
  processPayment_enter e c = AwaitFindOne (uuid e).
Proof.
  intros Hc Hp. unfold processPayment_enter.
  destruct (Z.leb_spec (actionCostCents c) 0); [lia|].
  rewrite Hp. by rewrite bool_decide_eq_false_2.
Qed.

Lemma findOneAndUpdate_deduct_Some (u : string) (d t : Z) (s : Store)
    (c : UserCredit) :
  userCredits s !! u = Some c -> d <= balance c ->
  findOneAndUpdate_deduct u d t s =
    Some (mkStore (<[u := mkUserCredit (balance c - d) (lifetimePurchased c)
                                        (lifetimeUsed c + d) t]> (userCredits s))
                  (creditTransactions s)).
Proof.
  intros Hl Hd. unfold findOneAndUpdate_deduct. rewrite Hl.
  by destruct (Z.leb_spec d (balance c)); [|lia].
Qed.

Lemma runPayment_Returned (fuel : nat) (envs : nat -> Env) (k : nat)
    (c : PaymentCall) (r : PaymentProcessResult) (s : Store) :
  runPayment fuel envs k c (Returned r) s = Some (r, s).
Proof. by destruct fuel. Qed.

(** C7: run on its own with CREDITS_FIRST, a positive cost [c] and a
    balance [b >= 0], [processPayment] returns within three store
    operations with [creditsDeducted = min b c] and
    [remainingCostCents = c - min b c], having lowered the balance by the
    amount deducted. *)
Theorem processPayment_min_and_residual (fuel : nat) (envs : nat -> Env)
    (c : Z) (userId : string) (s : Store) :
  (3 <= fuel)%nat -> 0 < c -> 0 <= getUserCredits userId s ->
  exists r s',
    processPayment fuel envs c userId CREDITS_FIRST s = Some (r, s') /\
    creditsDeducted r = Z.min (getUserCredits userId s) c /\
    remainingCostCents r = c - Z.min (getUserCredits userId s) c /\
    getUserCredits userId s' =
      getUserCredits userId s - Z.min (getUserCredits userId s) c.
Proof.
  intros Hfuel Hc Hb.
  destruct fuel as [|[|[|fuel]]]; [lia..|].
  unfold processPayment.
  rewrite processPayment_enter_positive by done.
  unfold getUserCredits, findOneCredit in *.
  cbn [runPayment processPayment_step call_userId actionCostCents].
  unfold findOneCredit.
  destruct (userCredits s !! userId) as [uc|] eqn:Hl.
  - destruct (Z.leb_spec (balance uc) 0) as [Hle|Hgt].
    + eexists _, _. split; [reflexivity|]. simpl. rewrite Hl. lia.
    + cbn [runPayment processPayment_step call_userId actionCostCents].
      rewrite (findOneAndUpdate_deduct_Some _ _ _ _ _ Hl) by lia.
      cbn [runPayment processPayment_step call_userId actionCostCents].
      rewrite runPayment_Returned.
      eexists _, _. split; [reflexivity|]. simpl.
      rewrite lookup_insert_eq. simpl. lia.
  - eexists _, _. split; [reflexivity|]. simpl. rewrite Hl. lia.
Qed.

Lemma processPayment_min_and_residual_witness :
  let s := mkStore {["0xabc" := mkUserCredit 60 60 0 0]} [] in
  (3 <= 3)%nat /\ 0 < 100 /\ 0 <= getUserCredits "0xabc" s /\
  exists r s',
    processPayment 3 envs0 100 "0xabc" CREDITS_FIRST s = Some (r, s') /\
    creditsDeducted r = Z.min (getUserCredits "0xabc" s) 100 /\
    remainingCostCents r = 100 - Z.min (getUserCredits "0xabc" s) 100 /\
    getUserCredits "0xabc" s' =
      getUserCredits "0xabc" s - Z.min (getUserCredits "0xabc" s) 100.
Proof.
  intros s.
  assert (H3 : (3 <= 3)%nat) by lia.
  assert (Hc : 0 < 100) by lia.
  assert (Hb : 0 <= getUserCredits "0xabc" s) by (vm_compute; discriminate).
  split; [exact H3|split; [exact Hc|split; [exact Hb|]]].
  exact (processPayment_min_and_residual 3 envs0 100 "0xabc" s H3 Hc Hb).
Defined.

(** The instance of the statement: balance 60 and cost 100. *)
Example processPayment_60_of_100 :
  let s := mkStore {["0xabc" := mkUserCredit 60 60 0 0]} [] in
  match processPayment 3 envs0 100 "0xabc" CREDITS_FIRST s with
  | Some (r, s') =>
      creditsDeducted r = 60 /\ remainingCostCents r = 40 /\
      getUserCredits "0xabc" s' = 0
  | None => False
  end.
Proof. vm_compute. repeat split. Qed.

(** *** Deductions running concurrently *)

Lemma sumZ_app {A} (f : A -> Z) (l1 l2 : list A) :
  sumZ f (l1 ++ l2) = sumZ f l1 + sumZ f l2.
Proof. induction l1 as [|x l1 IH]; simpl; [done|]. rewrite IH. lia. Qed.

Lemma sumZ_insert {A} (f : A -> Z) (l : list A) (i : nat) (x y : A) :
  l !! i = Some x -> sumZ f (<[i := y]> l) = sumZ f l - f x + f y.
Proof.
  revert i. induction l as [|z l IH]; intros [|i] Hl; simplify_eq/=.
  - lia.
  - rewrite (IH _ Hl). lia.
Qed.

Lemma findOneAndUpdate_deduct_inv (u : string) (d t : Z) (s s' : Store) :
  findOneAndUpdate_deduct u d t s = Some s' ->
  d <= getUserCredits u s /\
  is_Some (userCredits s !! u) /\
  getUserCredits u s' = getUserCredits u s - d /\
  (forall u', u' <> u -> getUserCredits u' s' = getUserCredits u' s) /\
  creditTransactions s' = creditTransactions s.
Proof.
  unfold findOneAndUpdate_deduct, getUserCredits, findOneCredit.
  destruct (userCredits s !! u) as [c|] eqn:Hl; [|done].
  destruct (Z.leb_spec d (balance c)); [|done].
  intros [= <-]. simpl. rewrite lookup_insert_eq. simpl.
  repeat split; try done; try lia.
  intros u' Hne. by rewrite lookup_insert_ne.
Qed.

Lemma findOneAndUpdate_deduct_None (u : string) (d t : Z) (s : Store) :
  0 < d ->
  findOneAndUpdate_deduct u d t s = None -> getUserCredits u s < d.
Proof.
  unfold findOneAndUpdate_deduct, getUserCredits, findOneCredit.
  destruct (userCredits s !! u) as [c|]; [|lia].
  destruct (Z.leb_spec d (balance c)); [done|lia].
Qed.

Lemma task_ok_enter (e : Env) (c : PaymentCall) (s : Store) :
  task_ok s (mkThread c (processPayment_enter e c)).
Proof.
  unfold task_ok, processPayment_enter. simpl.
  destruct (Z.leb_spec (actionCostCents c) 0); [done|].
  by case_bool_decide.
Qed.

Lemma inflightOf_enter (u : string) (e : Env) (c : PaymentCall) :
  inflightOf u (mkThread c (processPayment_enter e c)) = 0.
Proof.
  unfold inflightOf, processPayment_enter. simpl.
  destruct (actionCostCents c <=? 0); [done|]. by case_bool_decide.
Qed.

(** Lowering a balance keeps what is known of every suspended call. *)
Lemma task_ok_shrink (s s' : Store) (th : Thread) :
  (forall u, getUserCredits u s' <= getUserCredits u s) ->
  task_ok s th -> task_ok s' th.
Proof.
  intros Hle. unfold task_ok. destruct (th_task th); try done.
  intros [Hd [Heq|Hb]]; split; try done; [by left|right].
  specialize (Hle (call_userId (th_call th))). lia.
Qed.

Lemma usageSum_insert_usage (u : string) (row : CreditTransaction) (s : Store) :
  usageSum u (insertOneTx row s) = usageSum u s + usageOf u row.
Proof. unfold usageSum. simpl. rewrite sumZ_app. simpl. lia. Qed.

Lemma creditSum_insert (u : string) (row : CreditTransaction) (s : Store) :
  creditSum u (insertOneTx row s) = creditSum u s + creditOf u row.
Proof. unfold creditSum. simpl. rewrite sumZ_app. simpl. lia. Qed.

Lemma ledger_inv_step (sys sys' : System) :
  ledger_inv sys -> sys_step sys sys' -> ledger_inv sys'.
Proof.
  intros (Hbal & Hsum & Hok) Hstep.
  destruct Hstep as [s ths e c|s s' ths i th e t' Hi Hst];
    unfold ledger_inv; cbn [fst snd] in *.
  - (* a call arrives *)
    split; [done|split].
    + intros u. unfold inflight. rewrite sumZ_app. simpl.
      rewrite inflightOf_enter. specialize (Hsum u). unfold inflight in Hsum.
      lia.
    + apply Forall_app. split; [done|].
      constructor; [apply task_ok_enter|constructor].
  - (* one store operation of call [i] *)
    pose proof (Forall_lookup_1 _ _ _ _ Hok Hi) as Hth.
    destruct th as [c t]. simpl in *.
    assert (Hinfl : forall u x, inflight u (<[i := x]> ths)
              = inflight u ths - inflightOf u (mkThread c t) + inflightOf u x).
    { intros u x. unfold inflight. by apply sumZ_insert. }
    destruct t as [txId|txId d|txId d|r]; simpl in Hst.
    + (* findOne *)
      assert (s' = s) as ->.
      { destruct (findOneCredit _ s) as [uc|]; [|by inversion Hst].
        destruct (balance uc <=? 0); by inversion Hst. }
      split; [done|split].
      * intros u. rewrite Hinfl. specialize (Hsum u).
        assert (inflightOf u (mkThread c t') = 0) as ->.
        { unfold inflightOf. simpl.
          destruct (findOneCredit _ s) as [uc|]; [|by inversion Hst].
          destruct (balance uc <=? 0); by inversion Hst. }
        unfold inflightOf at 1. simpl. lia.
      * apply Forall_insert; [done|].
        unfold task_ok in *. simpl in *.
        unfold getUserCredits.
        destruct (findOneCredit _ s) as [uc|]; [|by inversion Hst].
        destruct (Z.leb_spec (balance uc) 0); inversion Hst; subst; [done|].
        lia.
    + (* findOneAndUpdate *)
      destruct Hth as [Hd Hmin]. simpl in Hd, Hmin.
      destruct (findOneAndUpdate_deduct _ _ _ s) as [s1|] eqn:Hcas;
        inversion Hst; subst; clear Hst.
      * apply findOneAndUpdate_deduct_inv in Hcas
          as (Hge & _ & Hu & Hother & Hlog).
        assert (Hshrink : forall u, getUserCredits u s' <= getUserCredits u s).
        { intros u. destruct (decide (u = call_userId c)) as [->|Hne].
          - lia.
          - rewrite Hother by done. lia. }
        split; [|split].
        -- intros u. destruct (decide (u = call_userId c)) as [->|Hne].
           ++ lia.
           ++ rewrite Hother by done. apply Hbal.
        -- intros u. rewrite Hinfl. specialize (Hsum u).
           unfold usageSum, creditSum in *. rewrite Hlog.
           unfold inflightOf. simpl.
           destruct (decide (u = call_userId c)) as [->|Hne].
           ++ rewrite bool_decide_eq_true_2 by done. lia.
           ++ rewrite bool_decide_eq_false_2 by done.
              rewrite Hother by done. lia.
        -- apply Forall_insert.
           ++ eapply Forall_impl; [exact Hok|].
              intros th. by apply task_ok_shrink.
           ++ unfold task_ok. simpl. lia.
      * split; [done|split].
        -- intros u. rewrite Hinfl, inflightOf_enter. specialize (Hsum u).
           unfold inflightOf at 1. simpl. lia.
        -- apply Forall_insert; [done|apply task_ok_enter].
    + (* insertOne *)
      inversion Hst; subst; clear Hst. unfold task_ok in Hth. simpl in Hth.
      split; [done|split].
      * intros u. rewrite Hinfl, usageSum_insert_usage, creditSum_insert.
        rewrite getUserCredits_insertOneTx. specialize (Hsum u).
        unfold inflightOf, usageOf, creditOf. simpl.
        rewrite !andb_true_r, andb_false_r.
        case_bool_decide; lia.
      * apply Forall_insert; [|done].
        eapply Forall_impl; [exact Hok|]. intros th.
        apply task_ok_shrink. intros u. rewrite getUserCredits_insertOneTx. lia.
    + (* already returned *)
      inversion Hst; subst; clear Hst.
      split; [done|split].
      * intros u. rewrite Hinfl. specialize (Hsum u). lia.
      * by apply Forall_insert.
Qed.

Lemma ledger_inv_rtc (sys sys' : System) :
  ledger_inv sys -> rtc sys_step sys sys' -> ledger_inv sys'.
Proof.
  intros Hinv Hsteps. induction Hsteps as [|x y z Hxy _ IH]; [done|].
  apply IH. by eapply ledger_inv_step.
Qed.

Lemma inflight_nonneg (s : Store) (ths : list Thread) (u : string) :
  Forall (task_ok s) ths -> 0 <= inflight u ths.
Proof.
  unfold inflight. induction 1 as [|th ths Hth _ IH]; simpl; [lia|].
  assert (0 <= inflightOf u th); [|lia].
  unfold inflightOf, task_ok in *. destruct (th_task th); try lia.
  case_bool_decide; lia.
Qed.

Lemma runSchedule_steps (evs : list Event) (sys : System) :
  rtc sys_step sys (runSchedule evs sys).
Proof.
  revert sys. induction evs as [|ev evs IH]; intros [s ths]; [done|].
  cbn [runSchedule fold_left]. eapply rtc_trans; [|apply IH].
  destruct ev as [e c|i e]; cbn [runEvent fst snd].
  - apply rtc_once. constructor.
  - destruct (ths !! i) as [th|] eqn:Hi; [|done].
    apply rtc_once. eapply sys_advance; [exact Hi|].
    apply surjective_pairing.
Qed.

(** C1: start from a store whose balances are not negative and whose log
    accounts for them (confirmed USAGE plus balance at most the confirmed
    credit-increasing rows).  After any interleaving of the store
    operations of any number of [processPayment] calls, no balance is
    negative and, per identity, the confirmed USAGE total does not exceed
    the confirmed PURCHASE/REFUND/ADJUSTMENT total.  Moreover the
    conditional update of a call either finds [balance >= toDeduct], and
    then deducts exactly [min balance cost], or changes nothing and the
    call starts over. *)
Theorem deduct_never_overdraws (s0 : Store) (sys : System) :
  (forall u, 0 <= getUserCredits u s0) ->
  (forall u, usageSum u s0 + getUserCredits u s0 <= creditSum u s0) ->
  rtc sys_step (s0, []) sys ->
  (forall u, 0 <= getUserCredits u sys.1) /\
  (forall u, usageSum u sys.1 <= creditSum u sys.1) /\
  (forall i th txId toDeduct e,
     sys.2 !! i = Some th ->
     th_task th = AwaitFindOneAndUpdate txId toDeduct ->
     let u := call_userId (th_call th) in
     let b := getUserCredits u sys.1 in
     let r := processPayment_step e (th_call th) (th_task th) sys.1 in
     if toDeduct <=? b
     then toDeduct = Z.min b (actionCostCents (th_call th)) /\
          r.1 = AwaitInsertOne txId toDeduct /\
          getUserCredits u r.2 = b - toDeduct
     else r = (processPayment_enter e (th_call th), sys.1)).
Proof.
  intros Hbal0 Hsum0 Hsteps.
  assert (Hinv : ledger_inv sys).
  { eapply ledger_inv_rtc; [|exact Hsteps].
    split; [done|split; [|constructor]].
    intros u. unfold inflight. simpl. specialize (Hsum0 u). lia. }
  destruct Hinv as (Hbal & Hsum & Hok).
  split; [done|split].
  - intros u. specialize (Hsum u). specialize (Hbal u).
    pose proof (inflight_nonneg _ _ u Hok). lia.
  - intros i th txId d e Hi Ht u b r.
    pose proof (Forall_lookup_1 _ _ _ _ Hok Hi) as Hth.
    unfold task_ok in Hth. rewrite Ht in Hth. destruct Hth as [Hd Hmin].
    subst r. rewrite Ht. simpl. fold u in Hmin |- *. fold b in Hmin.
    destruct (findOneAndUpdate_deduct u d (now e) sys.1) as [s1|] eqn:Hcas.
    + apply findOneAndUpdate_deduct_inv in Hcas as (Hge & _ & Hu & _ & _).
      fold b in Hge, Hu.
      destruct (Z.leb_spec d b); [|lia]. simpl. repeat split; [lia|done].
    + apply findOneAndUpdate_deduct_None in Hcas; [|lia]. fold b in Hcas.
      destruct (Z.leb_spec d b); [lia|done].
Qed.

Lemma raceStore_balances (u : string) : 0 <= getUserCredits u raceStore.
Proof.
  unfold getUserCredits, findOneCredit, raceStore. simpl.
  destruct (decide (u = "0xabc")) as [->|Hne].
  - by rewrite lookup_singleton_eq.
  - by rewrite lookup_singleton_ne.
Qed.

Lemma raceStore_ledger (u : string) :
  usageSum u raceStore + getUserCredits u raceStore <= creditSum u raceStore.
Proof.
  unfold usageSum, creditSum, getUserCredits, findOneCredit, raceStore,
    usageOf, creditOf. simpl.
  rewrite andb_false_r, !andb_true_r.
  destruct (decide (u = "0xabc")) as [->|Hne].
  - rewrite lookup_singleton_eq. by rewrite bool_decide_eq_true_2.
  - rewrite lookup_singleton_ne by done.
    by rewrite bool_decide_eq_false_2.
Qed.

Lemma deduct_never_overdraws_witness :
  let sys := runSchedule raceSchedule (raceStore, []) in
  (forall u, 0 <= getUserCredits u raceStore) /\
  (forall u, usageSum u raceStore + getUserCredits u raceStore
             <= creditSum u raceStore) /\
  rtc sys_step (raceStore, []) sys /\
  (forall u, 0 <= getUserCredits u sys.1) /\
  (forall u, usageSum u sys.1 <= creditSum u sys.1).
Proof.
  intros sys.
  pose proof (deduct_never_overdraws raceStore sys raceStore_balances
                raceStore_ledger (runSchedule_steps raceSchedule _))
    as (Hbal & Hsum & _).
  split; [exact raceStore_balances|].
  split; [exact raceStore_ledger|].
  split; [apply runSchedule_steps|].
  split; [exact Hbal|exact Hsum].
Defined.

(** The race, evaluated: the first call gets its 60, the second is left
    about to deduct the remaining 40, and one USAGE row of -60 is logged. *)
Example race_outcome :
  let sys := runSchedule raceSchedule (raceStore, []) in
  getUserCredits "0xabc" sys.1 = 40 /\
  usageSum "0xabc" sys.1 = 60 /\
  (th_task <$> sys.2 !! 0%nat) = Some (Returned (mkResult 0 60 (Some "uuid-0"))) /\
  (th_task <$> sys.2 !! 1%nat) = Some (AwaitFindOneAndUpdate "uuid-5" 40).
Proof. vm_compute. repeat split. Qed.

(** ** Negotiation price state *)

Section PricingFacts.
Context `{zk : ZkVerifier} `{txt : TextOps}.

Lemma getCurrentPrice_entry (w d : string) (ps : PricingState) :
  exists e0,
    getCurrentPrice w d ps =
      (mkView (cents e0) (round e0) (negotiationAttempts e0),
       <[w := e0]> ps) /\
    <[w := e0]> ps !! w = Some e0 /\
    (ps !! w = Some e0 \/
     ps !! w = None /\ e0 = mkEntry (getStartingPrice d) 0 d None 0).
Proof.
  unfold getCurrentPrice. destruct (ps !! w) as [e|] eqn:Hl.
  - exists e. rewrite insert_id by done. by repeat split; [|left].
  - exists (mkEntry (getStartingPrice d) 0 d None 0).
    split; [reflexivity|]. rewrite lookup_insert_eq.
    split; [done|by right].
Qed.

Lemma incrementNegotiationAttempts_entry (w : string) (ps : PricingState)
    (e : PricingEntry) :
  ps !! w = Some e ->
  incrementNegotiationAttempts w ps =
    (negotiationAttempts e + 1,
     <[w := mkEntry (cents e) (round e) (domain e) (topic e)
                    (negotiationAttempts e + 1)]> ps).
Proof. intros H. unfold incrementNegotiationAttempts. by rewrite H. Qed.

Lemma updatePrice_entry (w : string) (p : Z) (ps : PricingState)
    (e : PricingEntry) :
  ps !! w = Some e ->
  (updatePrice w p ps).2 =
    (if p <? getFloorPrice (domain e) then ps
     else <[w := mkEntry p (round e + 1) (domain e) (topic e)
                         (negotiationAttempts e)]> ps) /\
  upd_success (updatePrice w p ps).1 = negb (p <? getFloorPrice (domain e)).
Proof.
  intros H. unfold updatePrice. rewrite H.
  by destruct (p <? getFloorPrice (domain e)).
Qed.

Lemma setTopic_entry (w t : string) (ps : PricingState) (e : PricingEntry) :
  ps !! w = Some e ->
  setTopic w t ps =
    <[w := mkEntry (cents e) (round e) (domain e) (Some t)
                   (negotiationAttempts e)]> ps.
Proof. intros H. unfold setTopic. by rewrite H. Qed.

Lemma getCurrentPrice_keeps (w w' d : string) (ps : PricingState)
    (e : PricingEntry) :
  ps !! w = Some e -> (getCurrentPrice w' d ps).2 !! w = Some e.
Proof.
  intros Hl.
  destruct (getCurrentPrice_entry w' d ps) as (e0 & -> & _ & [Hl'|[Hl' _]]);
    simpl.
  - by rewrite insert_id.
  - rewrite lookup_insert_ne; [done|]. congruence.
Qed.

Lemma getCurrentPrice_other (w w' d : string) (ps : PricingState) :
  w' <> w -> (getCurrentPrice w d ps).2 !! w' = ps !! w'.
Proof.
  intros Hne.
  destruct (getCurrentPrice_entry w d ps) as (e0 & -> & _ & [Hl|[Hl _]]);
    simpl.
  - by rewrite insert_id.
  - by rewrite lookup_insert_ne.
Qed.

(** The part of a turn before the [await] is a price lookup, or nothing
    when the key is missing. *)
Lemma runNegotiationAgent_begin_state (k : option string) (w d : string)
    (ps : PricingState) :
  (runNegotiationAgent_begin k w d ps).2
  = match k with Some _ => (getCurrentPrice w d ps).2 | None => ps end.
Proof.
  unfold runNegotiationAgent_begin. destruct k; [|done].
  by destruct (getCurrentPrice w d ps).
Qed.

(** A whole turn is the second part resumed on the state of the lookup,
    with the copy the lookup returned. *)
Lemma runNegotiationAgent_uninterrupted (k : string)
    (reply : option AIResponse) (m w d : string) (ps : PricingState) :
  runNegotiationAgent (Some k) reply m w d ps =
    (Some (runNegotiationAgent_resume (getCurrentPrice w d ps).1 reply m w d
             (getCurrentPrice w d ps).2).1,
     (runNegotiationAgent_resume (getCurrentPrice w d ps).1 reply m w d
        (getCurrentPrice w d ps).2).2).
Proof.
  unfold runNegotiationAgent, runNegotiationAgent_begin.
  destruct (getCurrentPrice w d ps) as [cs ps0]. cbn [fst snd].
  by destruct (runNegotiationAgent_resume cs reply m w d ps0).
Qed.

(** The second part of a turn, resumed when the wallet has no entry,
    changes nothing. *)
Lemma runNegotiationAgent_resume_absent (cs : PriceView)
    (reply : option AIResponse) (m w d : string) (ps : PricingState) :
  ps !! w = None -> (runNegotiationAgent_resume cs reply m w d ps).2 = ps.
Proof.
  intros Hl.
  assert (Hinc : (incrementNegotiationAttempts w ps).2 = ps)
    by (unfold incrementNegotiationAttempts; by rewrite Hl).
  assert (Hupd : forall p, updatePrice w p ps
                           = (mkUpdate false 10 "No pricing session found", ps))
    by (intros p; unfold updatePrice; by rewrite Hl).
  assert (Htop : forall t, setTopic w t ps = ps)
    by (intros t; unfold setTopic; by rewrite Hl).
  unfold runNegotiationAgent_resume.
  destruct reply as [r|]; [|done].
  destruct (action r); rewrite ?Hinc; try done.
  - destruct (matchTopic m); [by rewrite Htop|done].
  - destruct (view_negotiationAttempts cs =? 0); [done|].
    destruct (getNextPrice d (view_cents cs) <? view_cents cs); [|done].
    by rewrite Hupd.
  - destruct (getFloorPrice d <? view_cents cs); [|done].
    by rewrite Hupd.
Qed.

(** The second part of a turn, resumed when the wallet has the entry [e0],
    rewrites that entry only, whatever copy [cs] of the state the turn
    took before its [await]; the topic changes only when the reply is
    [quote_price] and the user's message names a topic. *)
Lemma runNegotiationAgent_resume_entry (cs : PriceView)
    (reply : option AIResponse) (m w d : string) (ps : PricingState)
    (e0 : PricingEntry) :
  ps !! w = Some e0 ->
  exists e1,
    (runNegotiationAgent_resume cs reply m w d ps).2 = <[w := e1]> ps /\
    entryAdvance cs e0 e1 /\
    (namesTopic w (OpAgentResume cs reply m w d) = false ->
     topic e1 = topic e0).
Proof.
  intros Hl0. unfold runNegotiationAgent_resume.
  assert (Hsame : forall e,
            domain e = domain e0 -> round e = round e0 ->
            cents e = cents e0 ->
            negotiationAttempts e0 <= negotiationAttempts e
              <= negotiationAttempts e0 + 1 ->
            entryAdvance cs e0 e).
  { intros e Hd Hr Hc Ha. unfold entryAdvance. rewrite Hd, Hr, Hc.
    repeat split; try lia; auto. }
  assert (Hkeep : forall b : bool, exists e1,
            ps = <[w := e1]> ps /\ entryAdvance cs e0 e1 /\
            (b = false -> topic e1 = topic e0)).
  { intros b. exists e0. split; [by rewrite insert_id|].
    split; [apply Hsame; lia || done|done]. }
  destruct reply as [r|]; [|apply Hkeep].
  pose proof (incrementNegotiationAttempts_entry w ps e0 Hl0) as Hinc.
  set (eb := mkEntry (cents e0) (round e0) (domain e0) (topic e0)
                     (negotiationAttempts e0 + 1)) in *.
  assert (Hlb : <[w := eb]> ps !! w = Some eb) by apply lookup_insert_eq.
  assert (Hbump : forall b : bool, exists e1,
            <[w := eb]> ps = <[w := e1]> ps /\ entryAdvance cs e0 e1 /\
            (b = false -> topic e1 = topic e0)).
  { intros b. exists eb. split; [done|].
    split; [apply Hsame; simpl; lia || done|done]. }
  cbn [namesTopic].
  destruct (action r).
  - (* quote_price *)
    destruct (matchTopic m) as [t|]; cbn [snd]; [|apply Hkeep].
    rewrite (setTopic_entry _ _ _ _ Hl0). eexists. split; [reflexivity|].
    split; [apply Hsame; simpl; lia || done|].
    intros Hw. by rewrite bool_decide_eq_false in Hw.
  - (* pushback *)
    rewrite Hinc. apply Hbump.
  - (* discount *)
    destruct (view_negotiationAttempts cs =? 0); [rewrite Hinc; apply Hbump|].
    rewrite Hinc. cbn [snd].
    destruct (Z.ltb_spec (getNextPrice d (view_cents cs)) (view_cents cs))
      as [Hlt|Hge]; [|apply Hbump].
    destruct (updatePrice_entry w (getNextPrice d (view_cents cs)) _ _ Hlb)
      as [Hps Hok].
    destruct (updatePrice w (getNextPrice d (view_cents cs)) (<[w:=eb]> ps))
      as [u ps2]. simpl in Hps, Hok. subst ps2. rewrite Hok.
    destruct (Z.ltb_spec (getNextPrice d (view_cents cs))
                         (getFloorPrice (domain e0))) as [Hfl|Hfl];
      cbn [negb snd]; [apply Hbump|].
    rewrite insert_insert_eq. eexists. split; [reflexivity|].
    split; [|done]. unfold entryAdvance. simpl.
    repeat split; first [lia|done].
  - (* floor *)
    rewrite Hinc. cbn [snd].
    destruct (Z.ltb_spec (getFloorPrice d) (view_cents cs)) as [Hlt|Hge];
      [|apply Hbump].
    destruct (updatePrice_entry w (getFloorPrice d) _ _ Hlb) as [Hps _].
    rewrite Hps. simpl.
    destruct (Z.ltb_spec (getFloorPrice d) (getFloorPrice (domain e0)))
      as [Hfl|Hfl]; [apply Hbump|].
    rewrite insert_insert_eq. eexists. split; [reflexivity|].
    split; [|done]. unfold entryAdvance. simpl.
    repeat split; first [lia|done].
  - (* chat *)
    apply Hkeep.
  - (* any other action *)
    apply Hkeep.
Qed.

(** A whole turn rewrites the entry of its wallet only, the entry being
    the one the lookup found or made; the price the turn saw is the
    stored one. *)
Lemma runNegotiationAgent_entry (k : string) (reply : option AIResponse)
    (m w d : string) (ps : PricingState) :
  exists e0 e1,
    (getCurrentPrice w d ps).2 !! w = Some e0 /\
    (runNegotiationAgent (Some k) reply m w d ps).2
      = <[w := e1]> (getCurrentPrice w d ps).2 /\
    entryAdvance (mkView (cents e0) (round e0) (negotiationAttempts e0))
      e0 e1 /\
    (namesTopic w (OpAgent (Some k) reply m w d) = false ->
     topic e1 = topic e0).
Proof.
  rewrite runNegotiationAgent_uninterrupted. cbn [snd].
  destruct (getCurrentPrice_entry w d ps) as (e0 & Hget & Hl0 & _).
  rewrite Hget. cbn [fst snd].
  destruct (runNegotiationAgent_resume_entry
              (mkView (cents e0) (round e0) (negotiationAttempts e0))
              reply m w d _ e0 Hl0) as (e1 & Hps & Hadv & Htop).
  by exists e0, e1.
Qed.

Lemma aboveFloor_insert (ps : PricingState) (w : string) (e : PricingEntry) :
  aboveFloor ps -> getFloorPrice (domain e) <= cents e ->
  aboveFloor (<[w := e]> ps).
Proof.
  intros Hps He w' e'. destruct (decide (w = w')) as [->|Hne].
  - rewrite lookup_insert_eq. by intros [= <-].
  - rewrite lookup_insert_ne by done. apply Hps.
Qed.

Lemma getCurrentPrice_aboveFloor (w d : string) (ps : PricingState) :
  (forall d, getFloorPrice d <= getStartingPrice d) ->
  aboveFloor ps -> aboveFloor (getCurrentPrice w d ps).2.
Proof.
  intros Hstart Hps.
  destruct (getCurrentPrice_entry w d ps) as (e0 & -> & _ & [Hl|[_ ->]]).
  - simpl. by rewrite insert_id.
  - simpl. apply aboveFloor_insert; [done|]. simpl. apply Hstart.
Qed.

Lemma runNegotiationAgent_resume_aboveFloor (cs : PriceView)
    (reply : option AIResponse) (m w d : string) (ps : PricingState) :
  aboveFloor ps ->
  aboveFloor (runNegotiationAgent_resume cs reply m w d ps).2.
Proof.
  intros Hps. destruct (ps !! w) as [e0|] eqn:Hl0.
  - destruct (runNegotiationAgent_resume_entry cs reply m w d ps e0 Hl0)
      as (e1 & -> & (_ & Hfl & _) & _).
    apply aboveFloor_insert; [done|]. apply Hfl. by apply (Hps w).
  - by rewrite runNegotiationAgent_resume_absent.
Qed.

(** Every operation keeps stored prices at or above their floor: a resumed
    turn too, whatever copy of the state it carries. *)
Lemma applyOp_aboveFloor (op : PricingOp) (ps : PricingState) :
  (forall d, getFloorPrice d <= getStartingPrice d) ->
  aboveFloor ps -> aboveFloor (applyOp op ps).
Proof.
  intros Hstart Hps.
  destruct op as [w d|w p|k r m w d|k w d|cs r m w d]; cbn [applyOp].
  - by apply getCurrentPrice_aboveFloor.
  - unfold updatePrice. destruct (ps !! w) as [e|] eqn:Hl; [|done].
    destruct (Z.ltb_spec p (getFloorPrice (domain e))); [done|].
    simpl. by apply aboveFloor_insert.
  - destruct k as [k|]; [|done].
    rewrite runNegotiationAgent_uninterrupted. cbn [snd].
    apply runNegotiationAgent_resume_aboveFloor.
    by apply getCurrentPrice_aboveFloor.
  - rewrite runNegotiationAgent_begin_state. destruct k; [|done].
    by apply getCurrentPrice_aboveFloor.
  - by apply runNegotiationAgent_resume_aboveFloor.
Qed.

(** No operation touches the entry of a wallet other than its own. *)
Lemma applyOp_other (op : PricingOp) (ps : PricingState) (w' : string) :
  w' <> walletOf op -> applyOp op ps !! w' = ps !! w'.
Proof.
  intros Hne.
  assert (Hres : forall cs r m w d st, w' <> w ->
            (runNegotiationAgent_resume cs r m w d st).2 !! w' = st !! w').
  { intros cs r m w d st Hw. destruct (st !! w) as [e0|] eqn:Hl0.
    - destruct (runNegotiationAgent_resume_entry cs r m w d st e0 Hl0)
        as (e1 & -> & _).
      by rewrite lookup_insert_ne.
    - by rewrite runNegotiationAgent_resume_absent. }
  destruct op as [w d|w p|k r m w d|k w d|cs r m w d]; simpl in Hne;
    cbn [applyOp].
  - by apply getCurrentPrice_other.
  - unfold updatePrice. destruct (ps !! w) as [e|]; [|done].
    destruct (p <? getFloorPrice (domain e)); [done|].
    simpl. by rewrite lookup_insert_ne.
  - destruct k as [k|]; [|done].
    rewrite runNegotiationAgent_uninterrupted. cbn [snd].
    rewrite Hres by done. by apply getCurrentPrice_other.
  - rewrite runNegotiationAgent_begin_state. destruct k; [|done].
    by apply getCurrentPrice_other.
  - by apply Hres.
Qed.

(** What an operation that does not work from an outdated price does to
    the entry of any wallet: the domain is kept, the round does not
    decrease, each step of the round is a price cut of at least one cent,
    the attempts grow by at most one. *)
Lemma applyOp_round (op : PricingOp) (ps : PricingState) (w : string)
    (e : PricingEntry) :
  currentAt ps op = true -> ps !! w = Some e ->
  exists e', applyOp op ps !! w = Some e' /\
    domain e' = domain e /\ round e <= round e' /\
    cents e' + (round e' - round e) <= cents e /\
    negotiationAttempts e <= negotiationAttempts e'
      <= negotiationAttempts e + 1.
Proof.
  intros Hadv Hl.
  assert (Hself : exists e', Some e = Some e' /\
            domain e' = domain e /\ round e <= round e' /\
            cents e' + (round e' - round e) <= cents e /\
            negotiationAttempts e <= negotiationAttempts e'
              <= negotiationAttempts e + 1).
  { exists e. repeat split; lia || done. }
  destruct op as [w' d|w' p|k r m w' d|k w' d|cs r m w' d]; try done;
    cbn [applyOp].
  - rewrite (getCurrentPrice_keeps _ _ _ _ _ Hl). exact Hself.
  - destruct k as [k|]; [|simpl; rewrite Hl; exact Hself].
    destruct (runNegotiationAgent_entry k r m w' d ps)
      as (e0 & e1 & Hl0 & -> & (Hd & _ & _ & Ha & Hr) & _).
    destruct (decide (w' = w)) as [->|Hne].
    + rewrite lookup_insert_eq.
      rewrite (getCurrentPrice_keeps _ _ _ _ _ Hl) in Hl0.
      injection Hl0 as <-.
      exists e1. split; [done|]. split; [done|].
      destruct (Hr eq_refl) as [[? ?]|[? ?]]; repeat split; lia.
    + rewrite lookup_insert_ne by done.
      rewrite (getCurrentPrice_keeps _ _ _ _ _ Hl). exact Hself.
  - rewrite runNegotiationAgent_begin_state.
    destruct k; [|rewrite Hl; exact Hself].
    rewrite (getCurrentPrice_keeps _ _ _ _ _ Hl). exact Hself.
  - destruct (decide (w = w')) as [<-|Hne].
    + cbn [currentAt] in Hadv. apply bool_decide_eq_true in Hadv.
      unfold priceOf in Hadv. rewrite Hl in Hadv. injection Hadv as Hcs.
      destruct (runNegotiationAgent_resume_entry cs r m w d ps e Hl)
        as (e1 & -> & (Hd & _ & _ & Ha & Hr) & _).
      rewrite lookup_insert_eq. exists e1. split; [done|]. split; [done|].
      destruct (Hr (eq_sym Hcs)) as [[? ?]|[? ?]]; repeat split; lia.
    + pose proof (applyOp_other (OpAgentResume cs r m w' d) ps w Hne) as Ho.
      cbn [applyOp] in Ho. rewrite Ho, Hl. exact Hself.
Qed.

Lemma applyOp_descends (op : PricingOp) (ps : PricingState) (w : string)
    (e : PricingEntry) :
  currentAt ps op = true -> ps !! w = Some e ->
  exists e', applyOp op ps !! w = Some e' /\
             domain e' = domain e /\ cents e' <= cents e.
Proof.
  intros Hadv Hl.
  destruct (applyOp_round op ps w e Hadv Hl)
    as (e' & Hl' & Hd & Hr & Hc & _).
  exists e'. split; [done|]. split; [done|lia].
Qed.

(** What any operation does to the entry of any wallet, a direct
    [updatePrice] and a turn resumed on its own included: the entry stays,
    with its domain; round and attempts never decrease and grow by at most
    one. *)
Lemma applyOp_counters (op : PricingOp) (ps : PricingState) (w : string)
    (e : PricingEntry) :
  ps !! w = Some e ->
  exists e', applyOp op ps !! w = Some e' /\
    domain e' = domain e /\
    round e <= round e' <= round e + 1 /\
    negotiationAttempts e <= negotiationAttempts e'
      <= negotiationAttempts e + 1.
Proof.
  intros Hl.
  assert (Hself : exists e', Some e = Some e' /\
            domain e' = domain e /\
            round e <= round e' <= round e + 1 /\
            negotiationAttempts e <= negotiationAttempts e'
              <= negotiationAttempts e + 1).
  { exists e. repeat split; lia || done. }
  assert (Hres : forall cs r m w' d st, st !! w = Some e ->
            exists e', (runNegotiationAgent_resume cs r m w' d st).2 !! w
                         = Some e' /\
              domain e' = domain e /\
              round e <= round e' <= round e + 1 /\
              negotiationAttempts e <= negotiationAttempts e'
                <= negotiationAttempts e + 1).
  { intros cs r m w' d st Hst. destruct (decide (w' = w)) as [->|Hne].
    - destruct (runNegotiationAgent_resume_entry cs r m w d st e Hst)
        as (e1 & -> & (Hd & _ & Hr & Ha & _) & _).
      rewrite lookup_insert_eq. by exists e1.
    - destruct (st !! w') as [e0|] eqn:Hl0.
      + destruct (runNegotiationAgent_resume_entry cs r m w' d st e0 Hl0)
          as (e1 & -> & _).
        rewrite lookup_insert_ne by done. rewrite Hst. exact Hself.
      + rewrite runNegotiationAgent_resume_absent by done.
        rewrite Hst. exact Hself. }
  destruct op as [w' d|w' p|k r m w' d|k w' d|cs r m w' d]; cbn [applyOp].
  - rewrite (getCurrentPrice_keeps _ _ _ _ _ Hl). exact Hself.
  - unfold updatePrice. destruct (ps !! w') as [e0|] eqn:Hl0;
      [|simpl; rewrite Hl; exact Hself].
    destruct (p <? getFloorPrice (domain e0));
      [simpl; rewrite Hl; exact Hself|]. simpl.
    destruct (decide (w' = w)) as [->|Hne].
    + rewrite lookup_insert_eq. rewrite Hl in Hl0. injection Hl0 as <-.
      eexists. split; [reflexivity|]. simpl. repeat split; lia || done.
    + rewrite lookup_insert_ne by done. rewrite Hl. exact Hself.
  - destruct k as [k|]; [|simpl; rewrite Hl; exact Hself].
    rewrite runNegotiationAgent_uninterrupted. cbn [snd].
    apply Hres. by apply getCurrentPrice_keeps.
  - rewrite runNegotiationAgent_begin_state.
    destruct k; [|rewrite Hl; exact Hself].
    rewrite (getCurrentPrice_keeps _ _ _ _ _ Hl). exact Hself.
  - by apply Hres.
Qed.

(** An operation that is no topic-naming turn of the wallet leaves the
    wallet's topic as it was. *)
Lemma applyOp_topic (op : PricingOp) (ps : PricingState) (w : string) :
  namesTopic w op = false -> getTopic w (applyOp op ps) = getTopic w ps.
Proof.
  intros Hno.
  destruct (decide (w = walletOf op)) as [Hw|Hw];
    [|unfold getTopic; by rewrite applyOp_other].
  assert (Hget : forall d, getTopic w (getCurrentPrice w d ps).2
                           = getTopic w ps).
  { intros d. unfold getTopic.
    destruct (getCurrentPrice_entry w d ps) as (e0 & -> & _ & [Hl|[Hl ->]]);
      simpl.
    - by rewrite insert_id.
    - by rewrite lookup_insert_eq, Hl. }
  assert (Hres : forall cs r m d st,
            namesTopic w (OpAgentResume cs r m w d) = false ->
            getTopic w (runNegotiationAgent_resume cs r m w d st).2
            = getTopic w st).
  { intros cs r m d st Hn. unfold getTopic.
    destruct (st !! w) as [e0|] eqn:Hl0.
    - destruct (runNegotiationAgent_resume_entry cs r m w d st e0 Hl0)
        as (e1 & -> & _ & Htop).
      rewrite lookup_insert_eq. by apply Htop.
    - rewrite runNegotiationAgent_resume_absent by done. by rewrite Hl0. }
  destruct op as [w' d|w' p|k r m w' d|k w' d|cs r m w' d]; simpl in Hw;
    subst w'; cbn [applyOp].
  - apply Hget.
  - unfold getTopic, updatePrice. destruct (ps !! w) as [e|] eqn:Hl;
      [|simpl; by rewrite Hl].
    destruct (p <? getFloorPrice (domain e)); simpl; [by rewrite Hl|].
    by rewrite lookup_insert_eq.
  - destruct k as [k|]; [|done].
    rewrite runNegotiationAgent_uninterrupted. cbn [snd].
    rewrite Hres by exact Hno. apply Hget.
  - rewrite runNegotiationAgent_begin_state. destruct k; [|done].
    apply Hget.
  - by apply Hres.
Qed.

Lemma runOps_aboveFloor (ops : list PricingOp) (ps : PricingState) :
  (forall d, getFloorPrice d <= getStartingPrice d) ->
  aboveFloor ps -> aboveFloor (runOps ops ps).
Proof.
  intros Hstart. revert ps. unfold runOps.
  induction ops as [|op ops IH]; intros ps Hps; simpl; [done|].
  apply IH. by apply applyOp_aboveFloor.
Qed.

Lemma runOps_descends (ops : list PricingOp) (ps : PricingState) (w : string)
    (e : PricingEntry) :
  allCurrent ops ps = true -> ps !! w = Some e ->
  exists e', runOps ops ps !! w = Some e' /\
             domain e' = domain e /\ cents e' <= cents e.
Proof.
  revert ps e. unfold runOps.
  induction ops as [|op ops IH]; intros ps e Hall Hl; simpl.
  - by exists e.
  - simpl in Hall. apply andb_prop in Hall as [Hop Hall].
    destruct (applyOp_descends op ps w e Hop Hl) as (e1 & Hl1 & Hd1 & Hc1).
    destruct (IH _ e1 Hall Hl1) as (e' & Hl' & Hd' & Hc').
    exists e'. split; [done|]. split; [congruence|lia].
Qed.

Lemma runOps_other (ops : list PricingOp) (ps : PricingState) (w : string) :
  Forall (fun op => w <> walletOf op) ops -> runOps ops ps !! w = ps !! w.
Proof.
  revert ps. unfold runOps.
  induction ops as [|op ops IH]; intros ps Hall; simpl; [done|].
  apply Forall_cons in Hall as [Hop Hall].
  rewrite (IH _ Hall). by apply applyOp_other.
Qed.

(** A turn during whose [await] only operations of other wallets run
    resumes with the price it read still stored. *)
Lemma resume_after_other_wallets_is_current (k : string)
    (reply : option AIResponse) (m w d : string) (mid : list PricingOp)
    (ps : PricingState) :
  Forall (fun op => w <> walletOf op) mid ->
  let began := runNegotiationAgent_begin (Some k) w d ps in
  exists cs, began.1 = Some cs /\
    currentAt (runOps mid began.2) (OpAgentResume cs reply m w d) = true.
Proof.
  intros Hmid began. subst began. unfold runNegotiationAgent_begin.
  destruct (getCurrentPrice_entry w d ps) as (e0 & -> & Hl0 & _).
  eexists. split; [reflexivity|]. cbn [fst snd currentAt].
  apply bool_decide_eq_true. unfold priceOf.
  rewrite (runOps_other _ _ _ Hmid). by rewrite Hl0.
Qed.

(** C5 (as amended): provided every tier starts at or above its floor, no
    sequence of pricing operations takes a stored price below the floor of
    its entry's domain, and that for every operation: price lookups,
    direct [updatePrice] calls, whole agent turns, and the two parts of
    turns taken apart and interleaved with other operations in any way.
    Along lookups and agent turns, interleaved in any way in which every
    turn resumes while the price it read at its start is still the stored
    price of its wallet, every stored price is non-increasing (and the
    entry keeps its domain); a turn resumes so whenever no operation of
    its own wallet ran during its [await].  A direct [updatePrice] stores
    whatever price it is given that is not below the floor. *)
Theorem price_floor_kept_and_agent_descends (ops : list PricingOp)
    (ps : PricingState) :
  (forall d, getFloorPrice d <= getStartingPrice d) ->
  aboveFloor ps ->
  aboveFloor (runOps ops ps) /\
  (allCurrent ops ps = true ->
   forall w e, ps !! w = Some e ->
     exists e', runOps ops ps !! w = Some e' /\
                domain e' = domain e /\ cents e' <= cents e) /\
  (forall w p e, ps !! w = Some e -> getFloorPrice (domain e) <= p ->
     priceOf w (applyOp (OpUpdatePrice w p) ps) = Some p).
Proof.
  intros Hstart Hps. split; [by apply runOps_aboveFloor|]. split.
  - intros Hall w e Hl. by apply runOps_descends.
  - intros w p e Hl Hp. simpl.
    destruct (updatePrice_entry w p ps e Hl) as [-> _].
    destruct (Z.ltb_spec p (getFloorPrice (domain e))); [lia|].
    unfold priceOf. by rewrite lookup_insert_eq.
Qed.

(** The reply's [suggestedPriceCents] is never read. *)
Lemma runNegotiationAgent_ignores_suggestion (k : option string) (a : Action)
    (msg : string) (p p' : option Z) (m w d : string) (ps : PricingState) :
  runNegotiationAgent k (Some (mkAI a msg p)) m w d ps =
  runNegotiationAgent k (Some (mkAI a msg p')) m w d ps.
Proof. reflexivity. Qed.

(** C6: when the wallet has made no negotiation attempt yet, a reply whose
    action is [discount] is handled as a pushback: the stored price stays
    the current price, the attempts become 1, the price reported is the
    current price, the reply's message is replaced by the pushback line,
    the resulting state is the one a [pushback] reply gives, and the
    outcome is the same whatever price the reply suggests. *)
Theorem discount_before_first_complaint_is_pushback (k : string)
    (r : AIResponse) (m w d : string) (ps : PricingState) :
  action r = A_discount ->
  view_negotiationAttempts (getCurrentPrice w d ps).1 = 0 ->
  let cur := (getCurrentPrice w d ps).1 in
  let out := runNegotiationAgent (Some k) (Some r) m w d ps in
  priceOf w out.2 = Some (view_cents cur) /\
  attemptsOf w out.2 = Some 1 /\
  (currentPrice_cents <$> out.1) = Some (view_cents cur) /\
  (response <$> out.1)
    = Some "Too expensive? That's already a steal for premium docs!" /\
  out.2 = (runNegotiationAgent (Some k)
             (Some (mkAI A_pushback (message r) (suggestedPriceCents r)))
             m w d ps).2 /\
  (forall p', runNegotiationAgent (Some k)
                (Some (mkAI (action r) (message r) p')) m w d ps = out).
Proof.
  intros Ha Hatt cur out. subst cur out.
  split; [|split; [|split; [|split; [|split]]]];
    try (destruct r as [a msg p]; simpl in Ha; subst a;
         intros; reflexivity).
  all: rewrite !runNegotiationAgent_uninterrupted;
    unfold runNegotiationAgent_resume; rewrite Ha;
    destruct (getCurrentPrice_entry w d ps) as (e0 & Hget & Hl0 & _);
    rewrite Hget in Hatt |- *; simpl in Hatt;
    cbn [fst snd view_cents view_negotiationAttempts action];
    rewrite Hatt; cbn [Z.eqb fst snd fmap option_fmap option_map];
    rewrite ?(incrementNegotiationAttempts_entry _ _ _ Hl0); cbn [snd].
  - unfold priceOf. by rewrite lookup_insert_eq.
  - unfold attemptsOf. rewrite lookup_insert_eq. simpl. by rewrite Hatt.
  - done.
  - done.
  - done.
Qed.


End PricingFacts.

(** *** The spec's tier [{start=10, floor=5, schedule=[10,7,5]}] *)

(** Four complaints in a row, each answered by the model with [discount]:
    the price stays 10, then goes to 7, then to 5, then stays 5. *)
Example four_complaints :
  let turn := runNegotiationAgent (zk := specZk) (txt := plainText)
                (Some "key") (Some (mkAI A_discount "ok" None))
                "cheaper" "0xabc" "acme.com" in
  let t1 := turn ∅ in
  let t2 := turn t1.2 in
  let t3 := turn t2.2 in
  let t4 := turn t3.2 in
  (currentPrice_cents <$> t1.1) = Some 10 /\
  (currentPrice_cents <$> t2.1) = Some 7 /\
  (currentPrice_cents <$> t3.1) = Some 5 /\
  (currentPrice_cents <$> t4.1) = Some 5 /\
  priceOf "0xabc" t4.2 = Some 5 /\ attemptsOf "0xabc" t4.2 = Some 4.
Proof. vm_compute. repeat split. Qed.

(** C5, counterexample: a direct [updatePrice] raises a stored price (here
    from 10 to 20), so the price is not non-increasing under every sequence
    of price updates. *)
Lemma updatePrice_raises_price :
  ~ (forall (ops : list PricingOp) (ps : PricingState) (w : string) (p p' : Z),
       priceOf w ps = Some p ->
       priceOf w (runOps (zk := specZk) (txt := plainText) ops ps) = Some p' ->
       p' <= p).
Proof.
  intros H.
  specialize (H [OpUpdatePrice "0xabc" 20]
                {["0xabc" := mkEntry 10 0 "acme.com" None 0]}
                "0xabc" 10 20 eq_refl eq_refl).
  lia.
Qed.

(** Three requests of one wallet, each answered by the model with
    [discount].  The first reaches its [await] when the price is 10 (one
    complaint made already); while it waits, the other two run from start
    to end and take the price to 7 and to 5.  The first then resumes with
    the copy it took: it calls [updatePrice] with the price after 10,
    which is 7 and not below the floor, so the stored price goes from 5
    back up to 7, in round 3, and 7 is the price answered. *)
Example stale_turn_raises_price :
  let ps : PricingState := {["0xabc" := mkEntry 10 0 "acme.com" None 1]} in
  let reply := Some (mkAI A_discount "ok" None) in
  let first := runNegotiationAgent_begin (zk := specZk)
                 (Some "key") "0xabc" "acme.com" ps in
  let second := runNegotiationAgent (zk := specZk) (txt := plainText)
                  (Some "key") reply "cheaper" "0xabc" "acme.com" first.2 in
  let third := runNegotiationAgent (zk := specZk) (txt := plainText)
                 (Some "key") reply "cheaper" "0xabc" "acme.com" second.2 in
  first.1 = Some (mkView 10 0 1) /\
  third.2 !! "0xabc" = Some (mkEntry 5 2 "acme.com" None 3) /\
  let resumed := runNegotiationAgent_resume (zk := specZk) (txt := plainText)
                   (mkView 10 0 1) reply "cheaper" "0xabc" "acme.com"
                   third.2 in
  resumed.2 !! "0xabc" = Some (mkEntry 7 3 "acme.com" None 4) /\
  currentPrice_cents resumed.1 = 7.
Proof. vm_compute. repeat split. Qed.

Lemma specZk_starts_above_floor (d : string) :
  getFloorPrice (ZkVerifier := specZk) d
  <= getStartingPrice (ZkVerifier := specZk) d.
Proof. simpl. lia. Qed.

Lemma aboveFloor_single :
  aboveFloor (zk := specZk) {["0xabc" := mkEntry 10 0 "acme.com" None 0]}.
Proof.
  intros w e. destruct (decide (w = "0xabc")) as [->|Hne].
  - rewrite lookup_singleton_eq. intros [= <-]. simpl. lia.
  - by rewrite lookup_singleton_ne.
Qed.

Lemma price_floor_kept_and_agent_descends_witness :
  let ps : PricingState := {["0xabc" := mkEntry 10 0 "acme.com" None 0]} in
  let turn a := OpAgent (Some "key") (Some (mkAI a "ok" None))
                        "cheaper" "0xabc" "acme.com" in
  let ops := [OpAgentBegin (Some "key") "0xabc" "acme.com";
              OpAgentBegin (Some "key") "0xdef" "acme.com";
              OpAgentResume (mkView 10 0 0) (Some (mkAI A_pushback "no" None))
                "cheaper" "0xabc" "acme.com";
              OpAgentResume (mkView 10 0 0) (Some (mkAI A_discount "ok" None))
                "cheaper" "0xdef" "acme.com";
              turn A_discount; turn A_floor] in
  (forall d, getFloorPrice (ZkVerifier := specZk) d
             <= getStartingPrice (ZkVerifier := specZk) d) /\
  aboveFloor (zk := specZk) ps /\
  allCurrent (zk := specZk) (txt := plainText) ops ps = true /\
  ps !! "0xabc" = Some (mkEntry 10 0 "acme.com" None 0) /\
  getFloorPrice (ZkVerifier := specZk) "acme.com" <= 20 /\
  aboveFloor (zk := specZk) (runOps (zk := specZk) (txt := plainText) ops ps) /\
  (forall w e, ps !! w = Some e ->
     exists e', runOps (zk := specZk) (txt := plainText) ops ps !! w = Some e' /\
                domain e' = domain e /\ cents e' <= cents e) /\
  priceOf "0xabc"
    (applyOp (zk := specZk) (txt := plainText) (OpUpdatePrice "0xabc" 20) ps)
    = Some 20.
Proof.
  intros ps turn ops.
  pose proof (price_floor_kept_and_agent_descends (zk := specZk)
                (txt := plainText) ops ps specZk_starts_above_floor
                aboveFloor_single) as (Hfloor & Hdesc & Hupd).
  assert (Hl : ps !! "0xabc" = Some (mkEntry 10 0 "acme.com" None 0))
    by reflexivity.
  assert (Hp : getFloorPrice (ZkVerifier := specZk) "acme.com" <= 20)
    by (simpl; lia).
  split; [exact specZk_starts_above_floor|].
  split; [exact aboveFloor_single|].
  split; [reflexivity|].
  split; [exact Hl|]. split; [exact Hp|].
  split; [exact Hfloor|].
  split; [exact (Hdesc eq_refl)|].
  exact (Hupd "0xabc" 20 _ Hl Hp).
Defined.

Lemma discount_before_first_complaint_is_pushback_witness :
  let r := mkAI A_discount "Fine, I'll go down a bit." (Some 1) in
  let cur := (getCurrentPrice (zk := specZk) "0xabc" "acme.com" ∅).1 in
  let out := runNegotiationAgent (zk := specZk) (txt := plainText)
               (Some "key") (Some r) "too expensive" "0xabc" "acme.com" ∅ in
  action r = A_discount /\
  view_negotiationAttempts cur = 0 /\
  priceOf "0xabc" out.2 = Some (view_cents cur) /\
  attemptsOf "0xabc" out.2 = Some 1 /\
  (currentPrice_cents <$> out.1) = Some (view_cents cur).
Proof.
  intros r cur out.
  pose proof (discount_before_first_complaint_is_pushback (zk := specZk)
                (txt := plainText) "key" r "too expensive" "0xabc" "acme.com"
                ∅ eq_refl eq_refl) as (H1 & H2 & H3 & _).
  split; [reflexivity|]. split; [reflexivity|].
  split; [exact H1|]. split; [exact H2|exact H3].
Defined.



(** ** Payment middleware *)

Lemma findLatestUsage_fold (u : string) (l seen : list CreditTransaction)
    (best : option CreditTransaction) :
  latestAmong u seen best ->
  latestAmong u (seen ++ l)
    (fold_left (fun best t => if q_usageOfUser u t then later best t else best)
               l best).
Proof.
  revert seen best. induction l as [|x l IH]; intros seen best Hbest; simpl.
  - by rewrite app_nil_r.
  - replace (seen ++ x :: l) with ((seen ++ [x]) ++ l)
      by (by rewrite <- app_assoc).
    apply IH. destruct (q_usageOfUser u x) eqn:Hx.
    + destruct best as [b|]; simpl in *.
      * destruct Hbest as (Hin & Hq & Hmax).
        destruct (Z.ltb_spec (tx_createdAt b) (tx_createdAt x)); simpl.
        -- split; [apply in_or_app; right; by left|]. split; [done|].
           intros t [Ht|[<-|[]]]%in_app_or Hqt; [|lia].
           specialize (Hmax t Ht Hqt). lia.
        -- split; [apply in_or_app; by left|]. split; [done|].
           intros t [Ht|[<-|[]]]%in_app_or Hqt; [by apply Hmax|lia].
      * split; [apply in_or_app; right; by left|]. split; [done|].
        intros t [Ht|[<-|[]]]%in_app_or Hqt; [|lia].
        rewrite (Hbest t Ht) in Hqt. discriminate.
    + destruct best as [b|]; simpl in *.
      * destruct Hbest as (Hin & Hq & Hmax).
        split; [apply in_or_app; by left|]. split; [done|].
        intros t [Ht|[<-|[]]]%in_app_or Hqt; [by apply Hmax|congruence].
      * intros t [Ht|[<-|[]]]%in_app_or; [by apply Hbest|done].
Qed.

Lemma findLatestUsage_latest (u : string) (s : Store) :
  latestAmong u (creditTransactions s) (findLatestUsage u s).
Proof.
  unfold findLatestUsage.
  apply (findLatestUsage_fold u (creditTransactions s) [] None).
  by intros t [].
Qed.

Section MiddlewareFacts.
Context `{zk : ZkVerifier}.

(** C8: a request that carries a payment-authorization header is answered
    without running [processPayment] (so whatever the fuel): the credit
    accounts are left exactly as they were, whatever the resource server
    answers; the deducted and remaining amounts it works with are those of
    the latest USAGE row of the wallet when that row is less than 300000 ms
    old ([deducted = -amount], [remaining = price - deducted]), and the
    full price with nothing deducted otherwise; the log only grows by the
    DIRECT_USDC row of a successful settlement. *)
Theorem resumed_settlement_recovers_without_deducting (fuel : nat) (e : Env)
    (envs : nat -> Env) (x402 : X402Result) (req : Request) (w : World)
    (walletAddress : string) :
  orElse (orElse (hdr_walletAddress req) (body_walletAddress req)) None
    = Some walletAddress ->
  truthy (hdr_paymentAuthorization req) = true ->
  let price :=
    view_cents (getCurrentPrice walletAddress (requestDomain req) (pricing w)).1 in
  let latestTx := findLatestUsage walletAddress (store w) in
  exists out w' deducted remaining txid,
    requirePayment fuel e envs x402 req w = Some (out, w') /\
    userCredits (store w') = userCredits (store w) /\
    latestAmong walletAddress (creditTransactions (store w)) latestTx /\
    match latestTx with
    | Some t =>
        if now e - tx_createdAt t <? 300000
        then deducted = - tx_amount t /\ remaining = price - deducted /\
             txid = Some (tx_id t)
        else deducted = 0 /\ remaining = price /\ txid = None
    | None => deducted = 0 /\ remaining = price /\ txid = None
    end /\
    match x402 with
    | X402Throws =>
        out = Status500 /\ store w' = store w
    | X402PaymentError status =>
        out = Challenge status deducted remaining /\ store w' = store w
    | X402PaymentVerified false _ =>
        out = SettlementFailed /\ store w' = store w
    | X402PaymentVerified true transaction =>
        out = Next (Some (mkPayment deducted remaining
                            (orElse transaction txid))) /\
        creditTransactions (store w') =
          creditTransactions (store w)
          ++ [fallbackRow e walletAddress remaining txid transaction]
    | X402Other =>
        out = Next None /\ store w' = store w
    end.
Proof.
  intros Hw Hauth price latestTx.
  pose proof (findLatestUsage_latest walletAddress (store w)) as Hlatest.
  fold latestTx in Hlatest.
  unfold requirePayment. rewrite Hw, Hauth. fold (requestDomain req).
  subst price.
  destruct (getCurrentPrice walletAddress (requestDomain req) (pricing w))
    as [state ps]. cbn [fst negb].
  fold latestTx.
  destruct (recoverDeduction (now e) (view_cents state) latestTx)
    as [[remaining deducted] txid] eqn:Hrec.
  cbv beta iota zeta. rewrite andb_false_r.
  assert (Hvals :
    match latestTx with
    | Some t =>
        if now e - tx_createdAt t <? 300000
        then deducted = - tx_amount t /\
             remaining = view_cents state - deducted /\
             txid = Some (tx_id t)
        else deducted = 0 /\ remaining = view_cents state /\ txid = None
    | None => deducted = 0 /\ remaining = view_cents state /\ txid = None
    end).
  { unfold recoverDeduction in Hrec. destruct latestTx as [t|].
    - destruct (now e - tx_createdAt t <? 300000); by inversion Hrec.
    - by inversion Hrec. }
  destruct x402 as [|status|[|] transaction|];
    eexists _, _, deducted, remaining, txid;
    (split; [reflexivity|]); repeat split; try done.
Qed.

(** A failed settlement of a resumed request leaves the store as it was:
    no call of [refundCredits] is made. *)
Lemma requirePayment_settlement_failed_store (fuel : nat) (e : Env)
    (envs : nat -> Env) (transaction : option string) (req : Request)
    (w : World) (walletAddress : string) :
  orElse (orElse (hdr_walletAddress req) (body_walletAddress req)) None
    = Some walletAddress ->
  truthy (hdr_paymentAuthorization req) = true ->
  exists w', requirePayment fuel e envs (X402PaymentVerified false transaction)
               req w = Some (SettlementFailed, w') /\
             store w' = store w.
Proof.
  intros Hw Hauth. unfold requirePayment. rewrite Hw, Hauth.
  destruct (getCurrentPrice _ _ _) as [state ps]. cbn [negb].
  destruct (recoverDeduction _ _ _) as [[remaining deducted] txid].
  cbv beta iota zeta. rewrite andb_false_r.
  by eexists.
Qed.

End MiddlewareFacts.

Lemma resumed_settlement_recovers_without_deducting_witness :
  let w1 :=
    match requirePayment (zk := specZk) 3 env0 envs0 (X402PaymentError 402)
            firstRequest fundedWorld with
    | Some (_, w1) => w1
    | None => fundedWorld
    end in
  orElse (orElse (hdr_walletAddress resumedRequest)
                 (body_walletAddress resumedRequest)) None = Some "0xabc" /\
  truthy (hdr_paymentAuthorization resumedRequest) = true /\
  exists out w',
    requirePayment (zk := specZk) 0 (mkEnv "uuid-9" 2000) envs0
      (X402PaymentVerified true (Some "0xfeed")) resumedRequest w1
      = Some (out, w') /\
    userCredits (store w') = userCredits (store w1).
Proof.
  intros w1.
  destruct (resumed_settlement_recovers_without_deducting (zk := specZk)
              0 (mkEnv "uuid-9" 2000) envs0
              (X402PaymentVerified true (Some "0xfeed")) resumedRequest w1
              "0xabc" eq_refl eq_refl)
    as (out & w' & _ & _ & _ & Hrun & Hcredits & _).
  split; [reflexivity|]. split; [reflexivity|].
  exists out, w'. split; [exact Hrun|exact Hcredits].
Defined.

(** The resumed request, evaluated: 6 credits and a residual of 4 are
    recovered from the USAGE row, the balance stays 0 and one DIRECT_USDC
    row of 4 is recorded. *)
Example resumed_settlement_example :
  match requirePayment (zk := specZk) 3 env0 envs0 (X402PaymentError 402)
          firstRequest fundedWorld with
  | Some (out1, w1) =>
      out1 = Challenge 402 6 4 /\
      match requirePayment (zk := specZk) 0 (mkEnv "uuid-9" 2000) envs0
              (X402PaymentVerified true (Some "0xfeed")) resumedRequest w1 with
      | Some (out2, w2) =>
          out2 = Next (Some (mkPayment 6 4 (Some "0xfeed"))) /\
          getUserCredits "0xabc" (store w2) = 0 /\
          List.map tx_amount (creditTransactions (store w2)) = [6; -6; 4]
      | None => False
      end
  | None => False
  end.
Proof. vm_compute. repeat split. Qed.

(** C2 (the code fails the statement): the wallet holds 6 credits and the
    price is 10.  The first request deducts 6 and is challenged for the
    remaining 4; the resumed request, whose settlement fails, is answered
    with the failure while the balance stays at 0 and no REFUND row exists.
    A call of [refundCredits] on the USAGE row, which the middleware does
    not make, would have brought the balance back to 6. *)
Theorem settlement_failure_leaves_credits_spent :
  match requirePayment (zk := specZk) 3 env0 envs0 (X402PaymentError 402)
          firstRequest fundedWorld with
  | Some (out1, w1) =>
      out1 = Challenge 402 6 4 /\
      getUserCredits "0xabc" (store fundedWorld) = 6 /\
      getUserCredits "0xabc" (store w1) = 0 /\
      match requirePayment (zk := specZk) 3 (mkEnv "uuid-9" 2000) envs0
              (X402PaymentVerified false None) resumedRequest w1 with
      | Some (out2, w2) =>
          out2 = SettlementFailed /\
          getUserCredits "0xabc" (store w2) = 0 /\
          List.filter (fun t => bool_decide (tx_type t = REFUND))
                      (creditTransactions (store w2)) = [] /\
          getUserCredits "0xabc"
            (refundCredits (mkEnv "uuid-10" 2001) "uuid-0" (store w2)).2 = 6
      | None => False
      end
  | None => False
  end.
Proof. vm_compute. repeat split. Qed.

(** ** Transaction verification *)

(** C10, counterexample: a successful transaction from the claimed wallet
    that carries native value and no Transfer log is accepted, although the
    amount decoded from the logs is 0 and 400000 units were expected. *)
Lemma verifyTransaction_accepts_native_value :
  ~ (forall (receipt : Receipt) (tx : ChainTx) (expectedCents : Z)
            (userWallet : string),
       verifyTransaction (Some receipt) (Some tx) expectedCents userWallet
         = true ->
       exists paid,
         paidAmountRaw userWallet (rc_logs receipt) 0 = Some paid /\
         expectedCents * 10000 <= paid).
Proof.
  intros H.
  destruct (H (mkReceipt status_success []) (mkChainTx payerWallet 1) 40
              payerWallet eq_refl) as (paid & Hpaid & Hle).
  simpl in Hpaid. injection Hpaid as <-. lia.
Qed.

(** C10 (as amended): [verifyTransaction] returns [true] exactly when both
    lookups succeed, the receipt's status is success, the transaction's
    sender equals the claimed wallet up to letter case, every matching
    Transfer log decodes, and either the decoded total is at least
    [expectedCents * 10000] or the transaction carries a positive native
    value. *)
Theorem verifyTransaction_true_iff (receipt : option Receipt)
    (tx : option ChainTx) (expectedCents : Z) (userWallet : string) :
  verifyTransaction receipt tx expectedCents userWallet = true <->
  exists rc t paid,
    receipt = Some rc /\ tx = Some t /\
    rc_status rc = status_success /\
    toLowerCase (chain_from t) = toLowerCase userWallet /\
    paidAmountRaw userWallet (rc_logs rc) 0 = Some paid /\
    (expectedCents * 10000 <= paid \/ 0 < chain_value t).
Proof.
  unfold verifyTransaction. split.
  - destruct receipt as [rc|]; [|done].
    destruct (rc_status rc) eqn:Hst; [|done].
    destruct tx as [t|]; [|done].
    case_bool_decide as Hfrom; [|done]. simpl.
    destruct (paidAmountRaw userWallet (rc_logs rc) 0) as [paid|] eqn:Hp;
      [|done].
    intros Hres. exists rc, t, paid. repeat split; try done.
    destruct (Z.leb_spec (expectedCents * 10000) paid); [by left|].
    destruct (Z.ltb_spec 0 (chain_value t)); [by right|done].
  - intros (rc & t & paid & -> & -> & -> & Hfrom & -> & Hpay).
    rewrite bool_decide_eq_true_2 by done. simpl.
    destruct (Z.leb_spec (expectedCents * 10000) paid); [done|].
    destruct (Z.ltb_spec 0 (chain_value t)); [done|lia].
Qed.

Lemma verifyTransaction_true_iff_witness :
  verifyTransaction (Some paidReceipt) (Some (mkChainTx payerWallet 0)) 40
    payerWallet = true /\
  exists rc t paid,
    Some paidReceipt = Some rc /\ Some (mkChainTx payerWallet 0) = Some t /\
    rc_status rc = status_success /\
    toLowerCase (chain_from t) = toLowerCase payerWallet /\
    paidAmountRaw payerWallet (rc_logs rc) 0 = Some paid /\
    (40 * 10000 <= paid \/ 0 < chain_value t).
Proof.
  assert (H : verifyTransaction (Some paidReceipt)
                (Some (mkChainTx payerWallet 0)) 40 payerWallet = true)
    by reflexivity.
  split; [exact H|].
  exact (proj1 (verifyTransaction_true_iff (Some paidReceipt)
                  (Some (mkChainTx payerWallet 0)) 40 payerWallet) H).
Defined.

(** The paying receipt decodes to 400000 base units. *)
Example paidReceipt_amount :
  paidAmountRaw payerWallet (rc_logs paidReceipt) 0 = Some 400000.
Proof. reflexivity. Qed.

(** * Further properties of the code *)

(** ** [processPayment] running alone *)

(** What a call running alone returns and leaves behind, for every input:
    [d] is the amount deducted. *)
Lemma processPayment_alone (fuel : nat) (envs : nat -> Env) (c : Z)
    (u : string) (pref : PaymentPreference) (s : Store) :
  (3 <= fuel)%nat ->
  let b := getUserCredits u s in
  let d := if (0 <? c) && bool_decide (pref = CREDITS_FIRST) && (0 <? b)
           then Z.min b c else 0 in
  processPayment fuel envs c u pref s =
    Some (if 0 <? d
          then (mkResult (c - d) d (Some (uuid (envs 0%nat))),
                insertOneTx
                  (mkTx (uuid (envs 0%nat)) u USAGE (- d) None CONFIRMED
                        (Some (MetaUsage c)) (now (envs 3%nat)))
                  (default s (findOneAndUpdate_deduct u d (now (envs 2%nat)) s)))
          else (mkResult (if c <=? 0 then 0 else c) 0 None, s)).
Proof.
  intros Hfuel b d. subst b d.
  destruct fuel as [|[|[|fuel]]]; [lia..|].
  unfold processPayment, processPayment_enter.
  cbn [actionCostCents paymentPreference].
  destruct (Z.leb_spec c 0) as [Hc|Hc].
  { destruct (Z.ltb_spec 0 c); [lia|]. done. }
  destruct (Z.ltb_spec 0 c) as [_|]; [|lia]. cbn [andb].
  destruct pref; [|done].
  rewrite bool_decide_eq_false_2 by done.
  rewrite bool_decide_eq_true_2 by done. cbn [andb].
  unfold getUserCredits, findOneCredit.
  cbn [runPayment processPayment_step call_userId actionCostCents].
  unfold findOneCredit.
  destruct (userCredits s !! u) as [uc|] eqn:Hl; [|done].
  destruct (Z.leb_spec (balance uc) 0) as [Hle|Hgt].
  { destruct (Z.ltb_spec 0 (balance uc)); [lia|]. done. }
  destruct (Z.ltb_spec 0 (balance uc)) as [_|]; [|lia].
  destruct (Z.ltb_spec 0 (Z.min (balance uc) c)) as [_|]; [|lia].
  cbn [runPayment processPayment_step call_userId actionCostCents].
  rewrite (findOneAndUpdate_deduct_Some _ _ _ _ _ Hl) by lia.
  cbn [runPayment processPayment_step call_userId actionCostCents default].
  by rewrite runPayment_Returned.
Qed.

(** The effect of a call running alone, in full. *)
Lemma processPayment_alone_effect (fuel : nat) (envs : nat -> Env) (c : Z)
    (u : string) (pref : PaymentPreference) (s : Store) :
  (3 <= fuel)%nat ->
  exists r s',
    processPayment fuel envs c u pref s = Some (r, s') /\
    0 <= creditsDeducted r <= Z.max 0 c /\
    remainingCostCents r = Z.max 0 c - creditsDeducted r /\
    getUserCredits u s' = getUserCredits u s - creditsDeducted r /\
    (forall u', u' <> u -> getUserCredits u' s' = getUserCredits u' s) /\
    match transactionId r with
    | Some id =>
        0 < creditsDeducted r /\
        exists at_,
          creditTransactions s' =
            creditTransactions s
            ++ [mkTx id u USAGE (- creditsDeducted r) None CONFIRMED
                     (Some (MetaUsage c)) at_]
    | None => creditsDeducted r = 0 /\ s' = s
    end.
Proof.
  intros Hfuel. rewrite (processPayment_alone fuel envs c u pref s Hfuel).
  cbv zeta.
  set (b := getUserCredits u s).
  destruct (Z.ltb_spec 0 c) as [Hc|Hc]; cbn [andb].
  2:{ eexists _, _. split; [reflexivity|]. simpl.
      destruct (Z.leb_spec c 0); [|lia]. repeat split; lia. }
  destruct pref; [|eexists _, _; split; [reflexivity|]; simpl;
                   destruct (Z.leb_spec c 0); [lia|]; repeat split; lia].
  rewrite bool_decide_eq_true_2 by done. cbn [andb].
  destruct (Z.ltb_spec 0 b) as [Hb|Hb].
  2:{ eexists _, _. split; [reflexivity|]. simpl.
      destruct (Z.leb_spec c 0); [lia|]. repeat split; lia. }
  destruct (Z.ltb_spec 0 (Z.min b c)) as [Hd|]; [|lia].
  destruct (findOneAndUpdate_deduct u (Z.min b c) (now (envs 2%nat)) s)
    as [s1|] eqn:Hcas.
  - apply findOneAndUpdate_deduct_inv in Hcas
      as (_ & _ & Hu & Hother & Hlog).
    eexists _, _. split; [reflexivity|]. cbn [default creditsDeducted
      remainingCostCents transactionId].
    split; [lia|]. split; [lia|]. split; [done|]. split; [done|].
    split; [done|]. eexists. simpl. by rewrite Hlog.
  - apply findOneAndUpdate_deduct_None in Hcas; [|done]. fold b in Hcas. lia.
Qed.

(** X1: a [processPayment] call running alone returns within three store
    operations, for every cost, preference and store.  It deducts between 0
    and the cost, the remaining cost is [max 0 cost] minus the deduction,
    the balance of the user drops by the deduction and no other balance
    moves.  Either it reports a transaction id, the deduction is positive
    and the log has grown by the one CONFIRMED USAGE row of that id and of
    minus the deduction; or it reports none, deducted nothing and left the
    store untouched. *)
Theorem processPayment_accounting (fuel : nat) (envs : nat -> Env) (c : Z)
    (u : string) (pref : PaymentPreference) (s : Store) :
  (3 <= fuel)%nat ->
  exists r s',
    processPayment fuel envs c u pref s = Some (r, s') /\
    0 <= creditsDeducted r <= Z.max 0 c /\
    remainingCostCents r = Z.max 0 c - creditsDeducted r /\
    getUserCredits u s' = getUserCredits u s - creditsDeducted r /\
    (forall u', u' <> u -> getUserCredits u' s' = getUserCredits u' s) /\
    match transactionId r with
    | Some id =>
        0 < creditsDeducted r /\
        exists at_,
          creditTransactions s' =
            creditTransactions s
            ++ [mkTx id u USAGE (- creditsDeducted r) None CONFIRMED
                     (Some (MetaUsage c)) at_]
    | None => creditsDeducted r = 0 /\ s' = s
    end.
Proof.
  intros Hfuel.
  destruct (processPayment_alone_effect fuel envs c u pref s Hfuel)
    as (r & s' & Hrun & Hd & Hrem & Hbal & Hother & Hlog).
  exists r, s'. split; [exact Hrun|]. split; [exact Hd|].
  split; [exact Hrem|]. split; [exact Hbal|]. split; [exact Hother|].
  exact Hlog.
Qed.

Lemma processPayment_accounting_witness :
  let s := mkStore {["0xabc" := mkUserCredit 60 60 0 0]} [] in
  (3 <= 3)%nat /\
  exists r s',
    processPayment 3 envs0 100 "0xabc" CREDITS_FIRST s = Some (r, s') /\
    0 <= creditsDeducted r <= Z.max 0 100 /\
    remainingCostCents r = Z.max 0 100 - creditsDeducted r.
Proof.
  intros s.
  assert (H3 : (3 <= 3)%nat) by lia.
  destruct (processPayment_accounting 3 envs0 100 "0xabc" CREDITS_FIRST s H3)
    as (r & s' & Hrun & Hd & Hrem & _).
  split; [exact H3|]. exists r, s'. split; [exact Hrun|].
  split; [exact Hd|exact Hrem].
Defined.

Lemma find_none_forall {A} (p : A -> bool) (l : list A) :
  (forall x, In x l -> p x = false) -> List.find p l = None.
Proof.
  induction l as [|x l IH]; intros H; simpl; [done|].
  rewrite (H x) by (by left). apply IH. intros y Hy. apply H. by right.
Qed.

(** X2: deduct, then refund.  When a [processPayment] call running alone
    reports a transaction id that no earlier row bears, [refundCredits] on
    that id succeeds, puts the balance back to what it was before the call
    and leaves the log with the USAGE row followed by one REFUND row of the
    deducted amount. *)
Theorem deduct_then_refund_restores (fuel : nat) (envs : nat -> Env)
    (e : Env) (c : Z) (u : string) (pref : PaymentPreference) (s s1 : Store)
    (r : PaymentProcessResult) (id : string) :
  (3 <= fuel)%nat ->
  processPayment fuel envs c u pref s = Some (r, s1) ->
  transactionId r = Some id ->
  (forall t, In t (creditTransactions s) -> tx_id t <> id) ->
  findOneTx (q_refundOf id) s = None ->
  exists s2,
    refundCredits e id s1 = (true, s2) /\
    getUserCredits u s2 = getUserCredits u s /\
    exists usageRow,
      tx_type usageRow = USAGE /\ tx_amount usageRow = - creditsDeducted r /\
      creditTransactions s2 =
        creditTransactions s
        ++ [usageRow;
            mkTx (uuid e) u REFUND (creditsDeducted r) None CONFIRMED
                 (Some (MetaRefund id "USDC_FALLBACK_FAILED")) (now e)].
Proof.
  intros Hfuel Hrun Hid Hfresh Hnoref.
  destruct (processPayment_alone_effect fuel envs c u pref s Hfuel)
    as (r' & s1' & Hrun' & Hd & _ & Hbal & _ & Hlog).
  rewrite Hrun in Hrun'. injection Hrun' as <- <-.
  rewrite Hid in Hlog. destruct Hlog as (Hpos & at_ & Hlog).
  set (row := mkTx id u USAGE (- creditsDeducted r) None CONFIRMED
                   (Some (MetaUsage c)) at_) in *.
  assert (Hfind : findOneTx (q_confirmedUsage id) s1 = Some row).
  { unfold findOneTx. rewrite Hlog. rewrite find_app_None.
    - simpl. unfold q_confirmedUsage. simpl.
      by rewrite !bool_decide_eq_true_2 by done.
    - apply find_none_forall. intros t Ht. unfold q_confirmedUsage.
      rewrite (bool_decide_eq_false_2 (tx_id t = id)); [done|by apply Hfresh]. }
  assert (Hnone : findOneTx (q_refundOf id) s1 = None).
  { unfold findOneTx in *. rewrite Hlog. rewrite (find_app_None _ _ _ Hnoref).
    done. }
  rewrite (refundCredits_applies e id s1 row Hfind Hnone).
  eexists. split; [reflexivity|]. simpl. split.
  - assert (is_Some (userCredits s1 !! u)) as [uc Huc].
    { unfold getUserCredits, findOneCredit in Hbal.
      destruct (userCredits s1 !! u) eqn:Hl1; [by eexists|].
      destruct (userCredits s !! u) as [uc0|] eqn:Hl0; [|lia].
      (* the account existed before, and a deduction keeps it *)
      exfalso.
      pose proof (processPayment_alone fuel envs c u pref s Hfuel) as Hal.
      cbv zeta in Hal. rewrite Hrun in Hal.
      unfold getUserCredits, findOneCredit in Hal. rewrite Hl0 in Hal.
      destruct (0 <? _) eqn:Hdpos in Hal.
      - injection Hal as _ Hs1.
        destruct (findOneAndUpdate_deduct u _ _ s) as [sx|] eqn:Hcas.
        + unfold findOneAndUpdate_deduct in Hcas. rewrite Hl0 in Hcas.
          destruct (_ <=? balance uc0) in Hcas; [|done].
          injection Hcas as <-. simpl in Hs1. subst s1. simpl in Hl1.
          by rewrite lookup_insert_eq in Hl1.
        + simpl in Hs1. subst s1. simpl in Hl1. congruence.
      - injection Hal as Hr _. subst r. simpl in Hid. done. }
    unfold getUserCredits, findOneCredit in *. simpl.
    rewrite lookup_alter_eq, Huc. simpl. rewrite Huc in Hbal.
    rewrite Z.abs_opp, Z.abs_eq by lia. lia.
  - exists row. rewrite Z.abs_opp, Z.abs_eq by lia.
    split; [done|]. split; [done|]. rewrite Hlog. by rewrite <- app_assoc.
Qed.

Lemma deduct_then_refund_restores_witness :
  let s := mkStore {["0xabc" := mkUserCredit 60 60 0 0]} [] in
  exists s2,
    refundCredits env0 "uuid-0"
      (insertOneTx (mkTx "uuid-0" "0xabc" USAGE (-60) None CONFIRMED
                         (Some (MetaUsage 100)) 1003)
         (mkStore {["0xabc" := mkUserCredit 0 60 60 1002]} [])) = (true, s2) /\
    getUserCredits "0xabc" s2 = getUserCredits "0xabc" s.
Proof.
  intros s.
  assert (H3 : (3 <= 3)%nat) by lia.
  assert (Hfresh : forall t, In t (creditTransactions s) -> tx_id t <> "uuid-0")
    by (intros t []).
  destruct (deduct_then_refund_restores 3 envs0 env0 100 "0xabc" CREDITS_FIRST
              s _ _ "uuid-0" H3 eq_refl eq_refl Hfresh eq_refl)
    as (s2 & Hrefund & Hbal & _).
  exists s2. split; [exact Hrefund|exact Hbal].
Defined.

(** *** A suspended call left to run alone *)

Lemma runPayment_more_fuel (f f' : nat) (envs : nat -> Env) (k : nat)
    (c : PaymentCall) (t : PaymentTask) (s : Store)
    (x : PaymentProcessResult * Store) :
  runPayment f envs k c t s = Some x -> (f <= f')%nat ->
  runPayment f' envs k c t s = Some x.
Proof.
  revert f' k t s. induction f as [|f IH]; intros f' k t s Hrun Hle.
  - destruct t; try done. by rewrite runPayment_Returned.
  - destruct f' as [|f']; [lia|].
    destruct t as [txId|txId d|txId d|r]; cbn [runPayment] in *; [| | |done].
    + destruct (processPayment_step (envs k) c (AwaitFindOne txId) s)
        as [t' s']. apply IH; [done|lia].
    + destruct (processPayment_step (envs k) c (AwaitFindOneAndUpdate txId d) s)
        as [t' s']. apply IH; [done|lia].
    + destruct (processPayment_step (envs k) c (AwaitInsertOne txId d) s)
        as [t' s']. apply IH; [done|lia].
Qed.

Lemma runPayment_from_findOne (envs : nat -> Env) (k : nat) (c : PaymentCall)
    (txId : string) (s : Store) :
  is_Some (runPayment 3 envs k c (AwaitFindOne txId) s).
Proof.
  cbn [runPayment processPayment_step].
  destruct (findOneCredit (call_userId c) s) as [uc|] eqn:Hl; [|by eexists].
  destruct (Z.leb_spec (balance uc) 0); [by eexists|].
  cbn [runPayment processPayment_step].
  rewrite (findOneAndUpdate_deduct_Some _ _ _ _ _ Hl) by lia.
  by eexists.
Qed.

(** X3: a [processPayment] call suspended at any of its store operations,
    with whatever amount it last computed and on whatever store, returns
    within four store operations once it runs alone: a rejected conditional
    update re-enters the function once, and the update of the second
    attempt cannot be rejected. *)
Theorem suspended_call_returns_alone (fuel : nat) (envs : nat -> Env)
    (k : nat) (c : PaymentCall) (t : PaymentTask) (s : Store) :
  (4 <= fuel)%nat ->
  is_Some (runPayment fuel envs k c t s).
Proof.
  intros Hfuel.
  assert (H4 : is_Some (runPayment 4 envs k c t s)).
  { destruct t as [txId|txId d|txId d|r]; [| | |by eexists].
    - destruct (runPayment_from_findOne envs k c txId s) as [x Hx].
      exists x. eapply runPayment_more_fuel; [exact Hx|lia].
    - cbn [runPayment processPayment_step].
      destruct (findOneAndUpdate_deduct _ _ _ s); [by eexists|].
      unfold processPayment_enter.
      destruct (actionCostCents c <=? 0); [by eexists|].
      case_bool_decide; [by eexists|].
      apply runPayment_from_findOne.
    - by eexists. }
  destruct H4 as [x Hx]. exists x.
  eapply runPayment_more_fuel; [exact Hx|exact Hfuel].
Qed.

Lemma suspended_call_returns_alone_witness :
  (4 <= 4)%nat /\
  is_Some (runPayment 4 envs0 0 (mkCall 60 "0xabc" CREDITS_FIRST)
             (AwaitFindOneAndUpdate "uuid-1" 60)
             (mkStore {["0xabc" := mkUserCredit 40 100 60 0]} [])).
Proof.
  assert (H4 : (4 <= 4)%nat) by lia.
  split; [exact H4|].
  exact (suspended_call_returns_alone 4 envs0 0 _ _ _ H4).
Defined.

(** The stale call of the race above, left alone: its update of 60 is
    rejected, it reads 40 and deducts 40. *)
Example stale_call_retries_once :
  (fst <$> runPayment 4 envs0 0 (mkCall 60 "0xabc" CREDITS_FIRST)
             (AwaitFindOneAndUpdate "uuid-1" 60)
             (mkStore {["0xabc" := mkUserCredit 40 100 60 0]} []))
  = Some (mkResult 20 40 (Some "uuid-0")).
Proof. vm_compute. reflexivity. Qed.

(** *** What concurrent calls report and what leaves the balance *)

Lemma inflight_allReturned (u : string) (ths : list Thread) :
  allReturned ths = true -> inflight u ths = 0.
Proof.
  unfold allReturned, inflight. induction ths as [|th ths IH]; simpl; [done|].
  intros [Hth Hrest]%andb_prop. rewrite (IH Hrest).
  unfold inflightOf. by destruct (th_task th).
Qed.

Lemma reportedOf_enter (u : string) (e : Env) (c : PaymentCall) :
  reportedOf u (mkThread c (processPayment_enter e c)) = 0.
Proof.
  unfold reportedOf, processPayment_enter. simpl.
  destruct (actionCostCents c <=? 0); simpl; [by case_bool_decide|].
  case_bool_decide; simpl; [by case_bool_decide|done].
Qed.

Lemma sys_step_conserves (sys sys' : System) (u : string) :
  sys_step sys sys' ->
  getUserCredits u sys'.1 + inflight u sys'.2 + reported u sys'.2
    = getUserCredits u sys.1 + inflight u sys.2 + reported u sys.2 /\
  usageSum u sys'.1 - reported u sys'.2
    = usageSum u sys.1 - reported u sys.2.
Proof.
  intros Hstep.
  destruct Hstep as [s ths e c|s s' ths i th e t' Hi Hst]; cbn [fst snd].
  - unfold inflight, reported. rewrite !sumZ_app. simpl.
    rewrite inflightOf_enter, reportedOf_enter. lia.
  - destruct th as [c t]. cbn [th_call th_task] in *.
    unfold inflight, reported.
    rewrite (sumZ_insert (inflightOf u) _ _ _ _ Hi).
    rewrite (sumZ_insert (reportedOf u) _ _ _ _ Hi).
    destruct t as [txId|txId d|txId d|r]; simpl in Hst.
    + assert (s' = s /\ inflightOf u (mkThread c t') = 0
              /\ reportedOf u (mkThread c t') = 0) as (-> & -> & ->).
      { unfold inflightOf, reportedOf. simpl.
        destruct (findOneCredit _ s) as [uc|];
          [destruct (balance uc <=? 0)|]; inversion Hst; subst; simpl;
          repeat split; by case_bool_decide. }
      unfold inflightOf, reportedOf. simpl. lia.
    + destruct (findOneAndUpdate_deduct _ _ _ s) as [s1|] eqn:Hcas;
        inversion Hst; subst; clear Hst.
      * apply findOneAndUpdate_deduct_inv in Hcas
          as (_ & _ & Hu & Hother & Hlog).
        unfold usageSum. rewrite Hlog.
        unfold inflightOf, reportedOf. simpl.
        case_bool_decide as Heq.
        -- subst u. lia.
        -- rewrite Hother by done. lia.
      * rewrite inflightOf_enter, reportedOf_enter.
        unfold inflightOf, reportedOf. simpl. lia.
    + inversion Hst; subst; clear Hst.
      rewrite usageSum_insert_usage, getUserCredits_insertOneTx.
      unfold inflightOf, reportedOf, usageOf. simpl.
      rewrite !andb_true_r. case_bool_decide; lia.
    + inversion Hst; subst; clear Hst. lia.
Qed.

(** X4: along every interleaving of [processPayment] calls, starting with
    no call in flight, the credits still on the balance, those taken by
    calls that have not logged them yet and those the returned calls report
    as deducted add up to the starting balance, and the confirmed USAGE
    total has grown by exactly what the returned calls report.  Once every
    call has returned, the balance has dropped by what the calls report. *)
Theorem concurrent_deductions_add_up (s0 : Store) (sys : System) (u : string) :
  rtc sys_step (s0, []) sys ->
  getUserCredits u sys.1 + inflight u sys.2 + reported u sys.2
    = getUserCredits u s0 /\
  usageSum u sys.1 = usageSum u s0 + reported u sys.2 /\
  (allReturned sys.2 = true ->
   getUserCredits u s0 - getUserCredits u sys.1 = reported u sys.2).
Proof.
  intros Hsteps.
  assert (Hinv : getUserCredits u sys.1 + inflight u sys.2 + reported u sys.2
                   = getUserCredits u s0 /\
                 usageSum u sys.1 - reported u sys.2 = usageSum u s0).
  { remember (s0, @nil Thread) as start eqn:Hstart.
    assert (Hbase : getUserCredits u start.1 + inflight u start.2
                      + reported u start.2 = getUserCredits u s0 /\
                    usageSum u start.1 - reported u start.2 = usageSum u s0).
    { subst start. unfold inflight, reported. simpl. lia. }
    clear Hstart. induction Hsteps as [x|x y z Hxy _ IH]; [done|].
    apply IH. destruct (sys_step_conserves x y u Hxy) as [H1 H2].
    destruct Hbase as [B1 B2]. split; lia. }
  destruct Hinv as [H1 H2]. split; [done|]. split; [lia|].
  intros Hall. rewrite (inflight_allReturned u _ Hall) in H1. lia.
Qed.

Lemma concurrent_deductions_add_up_witness :
  let sys := runSchedule raceSchedule (raceStore, []) in
  rtc sys_step (raceStore, []) sys /\
  getUserCredits "0xabc" sys.1 + inflight "0xabc" sys.2
    + reported "0xabc" sys.2 = getUserCredits "0xabc" raceStore /\
  usageSum "0xabc" sys.1 = usageSum "0xabc" raceStore + reported "0xabc" sys.2.
Proof.
  intros sys.
  pose proof (runSchedule_steps raceSchedule (raceStore, [])) as Hrun.
  destruct (concurrent_deductions_add_up raceStore sys "0xabc" Hrun)
    as (H1 & H2 & _).
  split; [exact Hrun|]. split; [exact H1|exact H2].
Defined.

(** ** The ledger API called in sequence *)

(** A deduction either leaves the store as it is or rewrites the account
    of its user and appends one USAGE row. *)
Lemma applyDeduct_cases (envs : nat -> Env) (cost : Z) (u : string)
    (pref : PaymentPreference) (s : Store) :
  applyLedgerOp (DoDeduct envs cost u pref) s = s \/
  exists c d,
    userCredits s !! u = Some c /\ 0 < d <= balance c /\
    applyLedgerOp (DoDeduct envs cost u pref) s =
      mkStore
        (<[u := mkUserCredit (balance c - d) (lifetimePurchased c)
                             (lifetimeUsed c + d) (now (envs 2%nat))]>
           (userCredits s))
        (creditTransactions s
         ++ [mkTx (uuid (envs 0%nat)) u USAGE (- d) None CONFIRMED
                  (Some (MetaUsage cost)) (now (envs 3%nat))]).
Proof.
  simpl.
  pose proof (processPayment_alone 3 envs cost u pref s (le_n 3)) as Hal.
  cbv zeta in Hal. rewrite Hal.
  set (d := if (0 <? cost) && bool_decide (pref = CREDITS_FIRST)
               && (0 <? getUserCredits u s)
            then Z.min (getUserCredits u s) cost else 0) in *.
  destruct (Z.ltb_spec 0 d) as [Hd|Hd]; [|by left].
  right.
  assert (Hdb : d <= getUserCredits u s /\ 0 < getUserCredits u s).
  { subst d. destruct ((0 <? cost) && _ && (0 <? getUserCredits u s)) eqn:Hc;
      [|lia]. apply andb_prop in Hc as [_ Hb%Z.ltb_lt]. lia. }
  unfold getUserCredits, findOneCredit in Hdb.
  destruct (userCredits s !! u) as [c|] eqn:Hl; [|lia].
  rewrite (findOneAndUpdate_deduct_Some _ _ _ _ _ Hl) by lia.
  exists c, d. split; [done|]. split; [lia|]. reflexivity.
Qed.

Lemma sums_snoc (u : string) (m m' : gmap string UserCredit)
    (l : list CreditTransaction) (row : CreditTransaction) :
  usageSum u (mkStore m' (l ++ [row])) = usageSum u (mkStore m l) + usageOf u row /\
  creditSum u (mkStore m' (l ++ [row])) = creditSum u (mkStore m l) + creditOf u row.
Proof. unfold usageSum, creditSum. simpl. rewrite !sumZ_app. simpl. lia. Qed.

Lemma getUserCredits_insert (u u' : string) (c : UserCredit)
    (m : gmap string UserCredit) (l l' : list CreditTransaction) :
  getUserCredits u' (mkStore (<[u := c]> m) l) =
    if decide (u' = u) then balance c else getUserCredits u' (mkStore m l').
Proof.
  unfold getUserCredits, findOneCredit. simpl.
  destruct (decide (u' = u)) as [->|Hne].
  - by rewrite lookup_insert_eq.
  - by rewrite lookup_insert_ne.
Qed.

Lemma q_confirmedUsage_true (id : string) (t : CreditTransaction) :
  q_confirmedUsage id t = true ->
  tx_id t = id /\ tx_type t = USAGE /\ tx_status t = CONFIRMED.
Proof.
  unfold q_confirmedUsage.
  intros [[H1 H2]%andb_prop H3]%andb_prop.
  by apply bool_decide_eq_true in H1, H2, H3.
Qed.

Lemma applyLedgerOp_booksBalance (op : LedgerOp) (s : Store) :
  booksBalance s -> booksBalance (applyLedgerOp op s).
Proof.
  destruct s as [m l]. intros [Hbal Hacc].
  destruct op as [e u a h|envs cost u pref|e id].
  - (* mint *)
    simpl. destruct (findOneTx (q_confirmedDeposit h) (mkStore m l)) eqn:Hf.
    { unfold mintCredits. rewrite Hf. by split. }
    rewrite (mintCredits_fresh _ _ _ _ _ Hf). unfold upsertPurchase. simpl.
    split.
    + intros u'.
      destruct (sums_snoc u' m
        (<[u := match m !! u with
                | Some c => mkUserCredit (balance c + a)
                              (lifetimePurchased c + a) (lifetimeUsed c) (now e)
                | None => mkUserCredit a a 0 (now e)
                end]> m) l
        (mkTx (uuid e) u PURCHASE a (Some h) CONFIRMED None (now e)))
        as [-> ->].
      rewrite (getUserCredits_insert _ _ _ _ _ l). specialize (Hbal u').
      unfold usageOf, creditOf. simpl. rewrite !andb_true_r, andb_false_r.
      destruct (decide (u' = u)) as [->|Hne].
      * rewrite bool_decide_eq_true_2 by done.
        unfold getUserCredits, findOneCredit in Hbal. simpl in Hbal.
        destruct (m !! u); simpl; lia.
      * rewrite bool_decide_eq_false_2 by done. lia.
    + intros t [Ht|[<-|[]]]%in_app_or Hty Hst; [|done].
      simpl. destruct (decide (tx_userId t = u)) as [->|Hne].
      * rewrite lookup_insert_eq. by eexists.
      * rewrite lookup_insert_ne by done. by apply Hacc.
  - (* deduct *)
    destruct (applyDeduct_cases envs cost u pref (mkStore m l))
      as [->|(c & d & Hl & Hd & ->)]; [by split|].
    cbn [userCredits creditTransactions] in *. split.
    + intros u'.
      destruct (sums_snoc u' m
        (<[u := mkUserCredit (balance c - d) (lifetimePurchased c)
                             (lifetimeUsed c + d) (now (envs 2%nat))]> m) l
        (mkTx (uuid (envs 0%nat)) u USAGE (- d) None CONFIRMED
              (Some (MetaUsage cost)) (now (envs 3%nat)))) as [-> ->].
      rewrite (getUserCredits_insert _ _ _ _ _ l). specialize (Hbal u').
      unfold usageOf, creditOf. simpl. rewrite !andb_true_r, andb_false_r.
      destruct (decide (u' = u)) as [->|Hne].
      * rewrite bool_decide_eq_true_2 by done.
        unfold getUserCredits, findOneCredit in Hbal. simpl in Hbal.
        rewrite Hl in Hbal. simpl. lia.
      * rewrite bool_decide_eq_false_2 by done. lia.
    + intros t [Ht|[<-|[]]]%in_app_or Hty Hst; simpl.
      * destruct (decide (tx_userId t = u)) as [->|Hne].
        -- rewrite lookup_insert_eq. by eexists.
        -- rewrite lookup_insert_ne by done. by apply Hacc.
      * rewrite lookup_insert_eq. by eexists.
  - (* refund *)
    simpl.
    destruct (refundCredits_cases e id (mkStore m l))
      as [->|(orig & H1 & H2 & _)]; [by split|].
    rewrite (refundCredits_applies _ _ _ _ H1 H2).
    pose proof H1 as Hin. unfold findOneTx in Hin.
    apply List.find_some in Hin as [Hin Hq].
    apply q_confirmedUsage_true in Hq as (_ & Hty & Hst).
    destruct (Hacc orig Hin Hty Hst) as [c Hc]. simpl in Hc.
    unfold incBalance, insertOneTx. simpl.
    assert (Halter : alter (fun c0 => mkUserCredit
                        (balance c0 + Z.abs (tx_amount orig))
                        (lifetimePurchased c0) (lifetimeUsed c0) (now e))
                      (tx_userId orig) m
                     = <[tx_userId orig :=
                          mkUserCredit (balance c + Z.abs (tx_amount orig))
                            (lifetimePurchased c) (lifetimeUsed c) (now e)]> m).
    { apply map_eq. intros k. rewrite lookup_alter.
      destruct (decide (tx_userId orig = k)) as [<-|Hne].
      - by rewrite lookup_insert_eq, Hc.
      - by rewrite lookup_insert_ne. }
    rewrite Halter. split.
    + intros u'.
      destruct (sums_snoc u' m
        (<[tx_userId orig :=
             mkUserCredit (balance c + Z.abs (tx_amount orig))
               (lifetimePurchased c) (lifetimeUsed c) (now e)]> m) l
        (mkTx (uuid e) (tx_userId orig) REFUND (Z.abs (tx_amount orig)) None
              CONFIRMED (Some (MetaRefund id "USDC_FALLBACK_FAILED")) (now e)))
        as [-> ->].
      rewrite (getUserCredits_insert _ _ _ _ _ l). specialize (Hbal u').
      unfold usageOf, creditOf. simpl.
      rewrite !andb_true_r, andb_false_r.
      destruct (decide (u' = tx_userId orig)) as [->|Hne].
      * rewrite bool_decide_eq_true_2 by done.
        unfold getUserCredits, findOneCredit in Hbal. simpl in Hbal.
        rewrite Hc in Hbal. simpl. lia.
      * rewrite bool_decide_eq_false_2 by done. lia.
    + intros t [Ht|[<-|[]]]%in_app_or Hty' Hst'; [|done]. simpl.
      destruct (decide (tx_userId t = tx_userId orig)) as [->|Hne].
      * rewrite lookup_insert_eq. by eexists.
      * rewrite lookup_insert_ne by done. by apply Hacc.
Qed.

Lemma runLedger_snoc_inv (P : Store -> Prop) (ops : list LedgerOp) (s : Store) :
  (forall op st, P st -> P (applyLedgerOp op st)) ->
  P s -> P (runLedger ops s).
Proof.
  intros Hstep. revert s. unfold runLedger.
  induction ops as [|op ops IH]; intros s Hs; simpl; [done|].
  apply IH. by apply Hstep.
Qed.

Lemma booksBalance_empty : booksBalance (mkStore ∅ []).
Proof. split; [done|]. by intros t []. Qed.

(** X5: the books balance after any sequence of [mintCredits],
    [processPayment] and [refundCredits] calls made one after the other:
    if every balance equalled the confirmed PURCHASE/REFUND/ADJUSTMENT
    total minus the confirmed USAGE total of its user before (and every
    user with a confirmed USAGE row had an account), the same holds
    after.  It holds of the empty store. *)
Theorem ledger_books_balance (ops : list LedgerOp) (s : Store) :
  booksBalance s ->
  booksBalance (runLedger ops s) /\
  forall u, getUserCredits u (runLedger ops s)
            = creditSum u (runLedger ops s) - usageSum u (runLedger ops s).
Proof.
  intros Hs.
  assert (H : booksBalance (runLedger ops s)).
  { apply runLedger_snoc_inv; [|done].
    intros op st. apply applyLedgerOp_booksBalance. }
  split; [done|]. by destruct H.
Qed.

Lemma ledger_books_balance_witness :
  let ops := [DoMint env0 "0xabc" 100 "tx1";
              DoDeduct envs0 60 "0xabc" CREDITS_FIRST;
              DoRefund env0 "uuid-0";
              DoMint env0 "0xdef" 5 "tx1"] in
  booksBalance (mkStore ∅ []) /\
  forall u, getUserCredits u (runLedger ops (mkStore ∅ []))
            = creditSum u (runLedger ops (mkStore ∅ []))
              - usageSum u (runLedger ops (mkStore ∅ [])).
Proof.
  intros ops. split; [exact booksBalance_empty|].
  exact (proj2 (ledger_books_balance ops (mkStore ∅ []) booksBalance_empty)).
Defined.

(** The sequence of the witness, evaluated: the balance is back at 100 and
    the second funding with the reference [tx1] credited nothing. *)
Example ledger_sequence_example :
  let s := runLedger [DoMint env0 "0xabc" 100 "tx1";
                      DoDeduct envs0 60 "0xabc" CREDITS_FIRST;
                      DoRefund env0 "uuid-0";
                      DoMint env0 "0xdef" 5 "tx1"] (mkStore ∅ []) in
  getUserCredits "0xabc" s = 100 /\ getUserCredits "0xdef" s = 0 /\
  List.map tx_amount (creditTransactions s) = [100; -60; 60].
Proof. vm_compute. repeat split. Qed.

Lemma filter_snoc_length {A} (q : A -> bool) (l : list A) (x : A) :
  length (List.filter q (l ++ [x]))
  = (length (List.filter q l) + if q x then 1 else 0)%nat.
Proof.
  rewrite List.filter_app, length_app. simpl. by destruct (q x).
Qed.

Lemma snoc_unique {A} (q : A -> bool) (l : list A) (x : A) :
  (length (List.filter q l) <= 1)%nat ->
  (q x = true -> List.find q l = None) ->
  (length (List.filter q (l ++ [x])) <= 1)%nat.
Proof.
  intros Hl Hx. rewrite filter_snoc_length.
  destruct (q x) eqn:Hq; [|lia].
  rewrite (filter_find_None q q l); [simpl; lia|by apply Hx|done].
Qed.

Lemma applyLedgerOp_uniqueRefs (op : LedgerOp) (s : Store) :
  uniqueRefs s -> uniqueRefs (applyLedgerOp op s).
Proof.
  intros [Href Hrefund].
  destruct op as [e u a h|envs cost u pref|e id]; simpl.
  - destruct (findOneTx (q_confirmedDeposit h) s) eqn:Hf.
    { unfold mintCredits. rewrite Hf. by split. }
    rewrite (mintCredits_fresh _ _ _ _ _ Hf).
    unfold uniqueRefs, confirmedRefs, refundsOf. simpl. split.
    + intros h'. apply snoc_unique; [apply Href|].
      unfold q_confirmedDeposit at 1. simpl.
      intros [Hh _]%andb_prop. apply bool_decide_eq_true in Hh.
      by injection Hh as <-.
    + intros id'. apply snoc_unique; [apply Hrefund|]. done.
  - destruct (applyDeduct_cases envs cost u pref s)
      as [Hsame|(c & d & Hl & Hd & Hs)];
      [simpl in Hsame; rewrite Hsame; by split|simpl in Hs].
    rewrite Hs. unfold uniqueRefs, confirmedRefs, refundsOf. simpl. split.
    + intros h'. apply snoc_unique; [apply Href|]. done.
    + intros id'. apply snoc_unique; [apply Hrefund|]. done.
  - destruct (refundCredits_cases e id s) as [->|(orig & H1 & H2 & _)];
      [by split|].
    rewrite (refundCredits_applies _ _ _ _ H1 H2).
    unfold uniqueRefs, confirmedRefs, refundsOf. simpl. split.
    + intros h'. apply snoc_unique; [apply Href|]. done.
    + intros id'. apply snoc_unique; [apply Hrefund|].
      unfold q_refundOf at 1. simpl.
      intros Hid. apply bool_decide_eq_true in Hid. by injection Hid as <-.
Qed.

(** X6: calls of the engine made one after the other keep the two
    idempotency keys unique: when at most one CONFIRMED row carried each
    [txHash] and at most one REFUND row referred to each transaction
    before, the same holds after any sequence of [mintCredits],
    [processPayment] and [refundCredits] calls. *)
Theorem ledger_keeps_references_unique (ops : list LedgerOp) (s : Store) :
  uniqueRefs s -> uniqueRefs (runLedger ops s).
Proof.
  apply runLedger_snoc_inv. intros op st. apply applyLedgerOp_uniqueRefs.
Qed.

Lemma ledger_keeps_references_unique_witness :
  uniqueRefs (mkStore ∅ []) /\
  uniqueRefs (runLedger [DoMint env0 "0xabc" 100 "tx1";
                         DoMint env0 "0xdef" 5 "tx1";
                         DoDeduct envs0 60 "0xabc" CREDITS_FIRST;
                         DoRefund env0 "uuid-0"; DoRefund env0 "uuid-0"]
                        (mkStore ∅ [])).
Proof.
  assert (H0 : uniqueRefs (mkStore ∅ [])).
  { split; intros x; simpl; lia. }
  split; [exact H0|].
  exact (ledger_keeps_references_unique _ _ H0).
Defined.

(** *** The log only grows *)

Lemma processPayment_step_prefix (e : Env) (c : PaymentCall) (t t' : PaymentTask)
    (s s' : Store) :
  processPayment_step e c t s = (t', s') ->
  creditTransactions s `prefix_of` creditTransactions s'.
Proof.
  destruct t as [txId|txId d|txId d|r]; simpl.
  - destruct (findOneCredit _ s) as [uc|];
      [destruct (balance uc <=? 0)|]; by intros [= _ <-].
  - destruct (findOneAndUpdate_deduct _ _ _ s) as [s1|] eqn:Hcas.
    + apply findOneAndUpdate_deduct_inv in Hcas as (_ & _ & _ & _ & Hlog).
      intros [= _ <-]. by rewrite Hlog.
    + by intros [= _ <-].
  - intros [= _ <-]. simpl. by apply prefix_app_r.
  - by intros [= _ <-].
Qed.

Lemma runPayment_prefix (fuel : nat) (envs : nat -> Env) (k : nat)
    (c : PaymentCall) (t : PaymentTask) (s s' : Store)
    (r : PaymentProcessResult) :
  runPayment fuel envs k c t s = Some (r, s') ->
  creditTransactions s `prefix_of` creditTransactions s'.
Proof.
  revert k t s. induction fuel as [|fuel IH]; intros k t s.
  - destruct t; simpl; try done. by intros [= _ <-].
  - destruct t as [txId|txId d|txId d|r0]; cbn [runPayment];
      [| | |by intros [= _ <-]].
    + destruct (processPayment_step (envs k) c (AwaitFindOne txId) s)
        as [t' s1] eqn:Hst. intros Hrun.
      etrans; [by eapply processPayment_step_prefix|by eapply IH].
    + destruct (processPayment_step (envs k) c (AwaitFindOneAndUpdate txId d) s)
        as [t' s1] eqn:Hst. intros Hrun.
      etrans; [by eapply processPayment_step_prefix|by eapply IH].
    + destruct (processPayment_step (envs k) c (AwaitInsertOne txId d) s)
        as [t' s1] eqn:Hst. intros Hrun.
      etrans; [by eapply processPayment_step_prefix|by eapply IH].
Qed.

Lemma applyLedgerOp_prefix (op : LedgerOp) (s : Store) :
  creditTransactions s `prefix_of` creditTransactions (applyLedgerOp op s).
Proof.
  destruct op as [e u a h|envs cost u pref|e id]; simpl.
  - unfold mintCredits. destruct (findOneTx _ s); [done|].
    simpl. by apply prefix_app_r.
  - destruct (processPayment 3 envs cost u pref s) as [[r s']|] eqn:Hrun;
      [|done].
    by eapply runPayment_prefix.
  - destruct (refundCredits_cases e id s) as [->|(orig & H1 & H2 & _)];
      [done|].
    rewrite (refundCredits_applies _ _ _ _ H1 H2). simpl.
    by apply prefix_app_r.
Qed.

Section LogGrows.
Context `{zk : ZkVerifier}.

(** X7: no row is ever removed or rewritten.  The log before is a prefix
    of the log after any sequence of engine calls, any interleaving of
    concurrent [processPayment] calls, and any run of the payment
    middleware or of the x402 handler. *)
Theorem log_is_append_only :
  (forall (ops : list LedgerOp) (s : Store),
     creditTransactions s `prefix_of` creditTransactions (runLedger ops s)) /\
  (forall (sys sys' : System),
     rtc sys_step sys sys' ->
     creditTransactions sys.1 `prefix_of` creditTransactions sys'.1) /\
  (forall fuel e envs x402 req w out w',
     requirePayment fuel e envs x402 req w = Some (out, w') ->
     creditTransactions (store w) `prefix_of` creditTransactions (store w')) /\
  (forall fuel envs x402 walletHdr domainHdr w out w',
     handleX402Request fuel envs x402 walletHdr domainHdr w = Some (out, w') ->
     creditTransactions (store w) `prefix_of` creditTransactions (store w')).
Proof.
  split; [|split; [|split]].
  - intros ops s.
    apply (runLedger_snoc_inv
             (fun st => creditTransactions s `prefix_of` creditTransactions st));
      [|done].
    intros op st Hst. etrans; [exact Hst|apply applyLedgerOp_prefix].
  - intros sys sys' Hsteps.
    induction Hsteps as [x|x y z Hxy _ IH]; [done|].
    etrans; [|exact IH].
    destruct Hxy as [s ths e c|s s' ths i th e t' Hi Hst]; [done|].
    by eapply processPayment_step_prefix.
  - intros fuel e envs x402 req w out w'. unfold requirePayment.
    destruct (orElse (orElse _ _) None) as [walletAddress|];
      [|by intros [= _ <-]].
    destruct (getCurrentPrice _ _ _) as [state ps].
    destruct (truthy (hdr_paymentAuthorization req)); cbn [negb].
    + destruct (recoverDeduction _ _ _) as [[remaining deducted] txid].
      cbv beta iota zeta. rewrite andb_false_r.
      destruct x402 as [|status|[|] transaction|]; intros [= _ <-]; simpl;
        try done. by apply prefix_app_r.
    + destruct (processPayment _ _ _ _ _ _) as [[r s1]|] eqn:Hrun; [|done].
      apply runPayment_prefix in Hrun. cbv beta iota zeta.
      destruct ((remainingCostCents r <=? 0) && true);
        [by intros [= _ <-]|].
      destruct x402 as [|status|[|] transaction|]; intros [= _ <-]; simpl;
        try done.
      etrans; [exact Hrun|by apply prefix_app_r].
  - intros fuel envs x402 walletHdr domainHdr w out w'.
    unfold handleX402Request.
    destruct (orElse walletHdr None) as [walletAddress|];
      [|by intros [= _ <-]].
    destruct (getCurrentPrice _ _ _) as [state ps].
    destruct (processPayment _ _ _ _ _ _) as [[r s1]|] eqn:Hrun; [|done].
    apply runPayment_prefix in Hrun.
    destruct (remainingCostCents r <=? 0); [by intros [= _ <-]|].
    destruct x402 as [|status|[|] transaction|]; by intros [= _ <-].
Qed.

End LogGrows.

Lemma log_is_append_only_witness :
  rtc sys_step (raceStore, []) (runSchedule raceSchedule (raceStore, [])) /\
  creditTransactions raceStore
    `prefix_of` creditTransactions (runSchedule raceSchedule (raceStore, [])).1.
Proof.
  pose proof (runSchedule_steps raceSchedule (raceStore, [])) as Hrun.
  split; [exact Hrun|].
  exact (proj1 (proj2 (log_is_append_only (zk := specZk))) _ _ Hrun).
Defined.

(** *** Lifetime totals *)

Lemma applyLedgerOp_lifetimesAgree (op : LedgerOp) (s : Store) :
  isRefundOp op = false -> lifetimesAgree s ->
  lifetimesAgree (applyLedgerOp op s).
Proof.
  intros Hop Hs.
  assert (Hins : forall u c l,
            balance c = lifetimePurchased c - lifetimeUsed c ->
            lifetimesAgree (mkStore (<[u := c]> (userCredits s)) l)).
  { intros u c l Hc u' c'. simpl.
    destruct (decide (u' = u)) as [->|Hne].
    - rewrite lookup_insert_eq. by intros [= <-].
    - rewrite lookup_insert_ne by done. apply Hs. }
  destruct op as [e u a h|envs cost u pref|e id]; [| |done]; simpl.
  - unfold mintCredits. destruct (findOneTx _ s); [done|].
    unfold upsertPurchase. simpl. apply Hins.
    destruct (userCredits s !! u) as [c|] eqn:Hl; simpl; [|lia].
    specialize (Hs u c Hl). lia.
  - destruct (applyDeduct_cases envs cost u pref s)
      as [Hsame|(c & d & Hl & Hd & Hs')];
      [simpl in Hsame; by rewrite Hsame|simpl in Hs'].
    rewrite Hs'. apply Hins. simpl. specialize (Hs u c Hl). lia.
Qed.

(** X8: fundings and deductions made one after the other keep
    [balance = lifetimePurchased - lifetimeUsed] on every account.  A
    successful refund does not: it raises the balance of the account by
    the refunded amount and leaves both lifetime totals as they are. *)
Theorem lifetime_totals_track_balance :
  (forall (ops : list LedgerOp) (s : Store),
     forallb (fun op => negb (isRefundOp op)) ops = true ->
     lifetimesAgree s -> lifetimesAgree (runLedger ops s)) /\
  (forall (e : Env) (id : string) (s : Store) (orig : CreditTransaction)
          (c : UserCredit),
     (refundCredits e id s).1 = true ->
     findOneTx (q_confirmedUsage id) s = Some orig ->
     userCredits s !! tx_userId orig = Some c ->
     exists c',
       userCredits (refundCredits e id s).2 !! tx_userId orig = Some c' /\
       balance c' = balance c + Z.abs (tx_amount orig) /\
       lifetimePurchased c' = lifetimePurchased c /\
       lifetimeUsed c' = lifetimeUsed c).
Proof.
  split.
  - intros ops. unfold runLedger.
    induction ops as [|op ops IH]; intros s Hall Hs; simpl; [done|].
    simpl in Hall. apply andb_prop in Hall as [Hop Hall].
    apply IH; [done|]. apply applyLedgerOp_lifetimesAgree; [|done].
    by destruct (isRefundOp op).
  - intros e id s orig c Hok H1 Hc.
    destruct (refundCredits_cases e id s) as [Hno|(orig' & H1' & H2 & _)];
      [rewrite Hno in Hok; done|].
    rewrite (refundCredits_applies _ _ _ _ H1 H2). simpl.
    rewrite lookup_alter_eq, Hc. simpl. by eexists.
Qed.

Lemma lifetime_totals_track_balance_witness :
  let ops := [DoMint env0 "0xabc" 100 "tx1";
              DoDeduct envs0 60 "0xabc" CREDITS_FIRST] in
  forallb (fun op => negb (isRefundOp op)) ops = true /\
  lifetimesAgree (mkStore ∅ []) /\
  lifetimesAgree (runLedger ops (mkStore ∅ [])).
Proof.
  intros ops.
  assert (H0 : lifetimesAgree (mkStore ∅ [])) by (intros u c Hl; done).
  split; [reflexivity|]. split; [exact H0|].
  exact (proj1 lifetime_totals_track_balance ops _ eq_refl H0).
Defined.

(** ** Payment middleware and x402 handler *)

Lemma processPayment_more_fuel (f f' : nat) (envs : nat -> Env) (c : Z)
    (u : string) (pref : PaymentPreference) (s : Store)
    (x : PaymentProcessResult * Store) :
  processPayment f envs c u pref s = Some x -> (f <= f')%nat ->
  processPayment f' envs c u pref s = Some x.
Proof. unfold processPayment. apply runPayment_more_fuel. Qed.

(** Whatever the fuel, a call that returns has returned what the
    three-operation run returns. *)
Lemma processPayment_returned (f : nat) (envs : nat -> Env) (c : Z)
    (u : string) (pref : PaymentPreference) (s s' : Store)
    (r : PaymentProcessResult) :
  processPayment f envs c u pref s = Some (r, s') ->
  0 <= creditsDeducted r <= Z.max 0 c /\
  remainingCostCents r = Z.max 0 c - creditsDeducted r.
Proof.
  intros Hrun.
  apply (processPayment_more_fuel f (f + 3)) in Hrun; [|lia].
  destruct (processPayment_alone_effect (f + 3) envs c u pref s)
    as (r' & s1 & Hrun' & Hd & Hrem & _); [lia|].
  rewrite Hrun in Hrun'. by injection Hrun' as <- <-.
Qed.

Section MiddlewareMore.
Context `{zk : ZkVerifier}.

(** X9: whenever the middleware lets a request through with a payment
    attached, fresh or resumed, the credits and the USDC amount of that
    payment add up to the current price of the wallet (a price that is not
    negative): the total the [/unlock] handler reports is the price. *)
Theorem payment_total_is_price (fuel : nat) (e : Env) (envs : nat -> Env)
    (x402 : X402Result) (req : Request) (w w' : World)
    (walletAddress : string) (p : Payment) :
  orElse (orElse (hdr_walletAddress req) (body_walletAddress req)) None
    = Some walletAddress ->
  0 <= view_cents
         (getCurrentPrice walletAddress (requestDomain req) (pricing w)).1 ->
  requirePayment fuel e envs x402 req w = Some (Next (Some p), w') ->
  unlock_totalPaid (Some p)
    = view_cents
        (getCurrentPrice walletAddress (requestDomain req) (pricing w)).1.
Proof.
  intros Hw Hprice. unfold requirePayment. rewrite Hw.
  fold (requestDomain req).
  destruct (getCurrentPrice walletAddress (requestDomain req) (pricing w))
    as [state ps]. cbn [fst] in *.
  destruct (truthy (hdr_paymentAuthorization req)); cbn [negb].
  - destruct (recoverDeduction (now e) (view_cents state) _)
      as [[remaining deducted] txid] eqn:Hrec.
    cbv beta iota zeta. rewrite andb_false_r.
    assert (Hsum : deducted + remaining = view_cents state).
    { unfold recoverDeduction in Hrec.
      destruct (findLatestUsage _ _) as [t|];
        [destruct (_ <? 300000)|]; injection Hrec as <- <- _; lia. }
    destruct x402 as [|status|[|] transaction|]; intros [= <- _]; simpl; lia.
  - destruct (processPayment _ _ _ _ _ _) as [[r s1]|] eqn:Hrun; [|done].
    apply processPayment_returned in Hrun as [Hd Hrem].
    cbv beta iota zeta. rewrite andb_true_r.
    destruct (Z.leb_spec (remainingCostCents r) 0).
    + intros [= <- _]. simpl. lia.
    + destruct x402 as [|status|[|] transaction|]; intros [= <- _]; simpl; lia.
Qed.


(** X10: a fresh request (no payment-authorization header, credits not
    switched off) of a wallet whose balance covers a positive price is let
    through on credits alone, whatever the resource server would have
    answered: the payment is the price in credits and no USDC, the balance
    drops by the price and the log grows by the one USAGE row.  The x402
    handler answers such a call with the covered response in the same
    way. *)
Theorem covered_by_credits_skips_x402 (fuel : nat) (e : Env)
    (envs : nat -> Env) (x402 : X402Result) (req : Request) (w : World)
    (walletAddress : string) :
  (3 <= fuel)%nat ->
  orElse (orElse (hdr_walletAddress req) (body_walletAddress req)) None
    = Some walletAddress ->
  truthy (hdr_paymentAuthorization req) = false ->
  body_useCreditsFirst req <> Some false ->
  let price :=
    view_cents (getCurrentPrice walletAddress (requestDomain req) (pricing w)).1 in
  0 < price <= getUserCredits walletAddress (store w) ->
  exists w' at_,
    requirePayment fuel e envs x402 req w
      = Some (Next (Some (mkPayment price 0 (Some (uuid (envs 0%nat))))), w') /\
    getUserCredits walletAddress (store w')
      = getUserCredits walletAddress (store w) - price /\
    creditTransactions (store w')
      = creditTransactions (store w)
        ++ [mkTx (uuid (envs 0%nat)) walletAddress USAGE (- price) None
                 CONFIRMED (Some (MetaUsage price)) at_] /\
    exists w2,
      handleX402Request fuel envs x402 (Some walletAddress)
        (Some (requestDomain req)) w
        = Some (XCovered (Some (uuid (envs 0%nat))) price, w2) /\
      store w2 = store w'.
Proof.
  intros Hfuel Hw Hauth Hpref price Hcover. subst price.
  assert (Hdom : default "unknown"
                   (orElse (Some (requestDomain req)) (Some "unknown"))
                 = requestDomain req).
  { assert (Hne : requestDomain req <> "").
    { unfold requestDomain.
      destruct (orElse (hdr_domain req) (body_domain req)) as [x|]; simpl;
        [case_bool_decide; simpl; done|done]. }
    simpl. by rewrite bool_decide_eq_false_2. }
  assert (Hwh : orElse (Some walletAddress) None = Some walletAddress).
  { unfold orElse in *. repeat (case_match; simplify_eq/=); done. }
  unfold requirePayment, handleX402Request. rewrite Hw, Hauth, Hwh, Hdom.
  fold (requestDomain req).
  destruct (getCurrentPrice walletAddress (requestDomain req) (pricing w))
    as [state ps]. cbn [fst negb] in *.
  assert (Hpref' : (if match body_useCreditsFirst req with
                       | Some false => false | _ => true end
                    then CREDITS_FIRST else PAY_DIRECT_USDC) = CREDITS_FIRST).
  { destruct (body_useCreditsFirst req) as [[|]|]; done. }
  rewrite Hpref'.
  pose proof (processPayment_alone fuel envs (view_cents state) walletAddress
                CREDITS_FIRST (store w) Hfuel) as Hal.
  cbv zeta in Hal.
  destruct (Z.ltb_spec 0 (view_cents state)) as [_|]; [|lia].
  destruct (Z.ltb_spec 0 (getUserCredits walletAddress (store w))) as [_|];
    [|lia].
  rewrite bool_decide_eq_true_2 in Hal by done. cbn [andb] in Hal.
  rewrite Z.min_r in Hal by lia.
  destruct (Z.ltb_spec 0 (view_cents state)) as [_|]; [|lia].
  destruct (findOneAndUpdate_deduct walletAddress (view_cents state)
              (now (envs 2%nat)) (store w)) as [s1|] eqn:Hcas.
  2:{ apply findOneAndUpdate_deduct_None in Hcas; lia. }
  rewrite Hal. cbv beta iota zeta.
  cbn [remainingCostCents creditsDeducted transactionId default].
  rewrite Z.sub_diag. cbn [Z.leb Z.compare andb].
  apply findOneAndUpdate_deduct_inv in Hcas as (_ & _ & Hu & _ & Hlog).
  eexists _, _. split; [reflexivity|]. cbn [store].
  split; [by rewrite getUserCredits_insertOneTx|].
  split; [simpl; by rewrite Hlog|].
  eexists. split; reflexivity.
Qed.


End MiddlewareMore.

Lemma payment_total_is_price_witness :
  orElse (orElse (hdr_walletAddress firstRequest)
                 (body_walletAddress firstRequest)) None = Some "0xabc" /\
  0 <= view_cents (getCurrentPrice (zk := specZk) "0xabc"
                     (requestDomain firstRequest) (pricing fundedWorld)).1 /\
  exists p w',
    requirePayment (zk := specZk) 3 env0 envs0
      (X402PaymentVerified true (Some "0xfeed")) firstRequest fundedWorld
      = Some (Next (Some p), w') /\
    unlock_totalPaid (Some p) = 10.
Proof.
  assert (Hp : 0 <= view_cents (getCurrentPrice (zk := specZk) "0xabc"
                       (requestDomain firstRequest) (pricing fundedWorld)).1)
    by (vm_compute; discriminate).
  split; [reflexivity|]. split; [exact Hp|].
  eexists _, _. split; [reflexivity|].
  exact (payment_total_is_price (zk := specZk) 3 env0 envs0
           (X402PaymentVerified true (Some "0xfeed")) firstRequest fundedWorld
           _ "0xabc" _ eq_refl Hp eq_refl).
Defined.

Lemma covered_by_credits_skips_x402_witness :
  let w := mkWorld (mkStore {["0xabc" := mkUserCredit 60 60 0 0]} []) ∅ in
  (3 <= 3)%nat /\
  truthy (hdr_paymentAuthorization firstRequest) = false /\
  body_useCreditsFirst firstRequest <> Some false /\
  exists w' at_,
    requirePayment (zk := specZk) 3 env0 envs0 X402Throws firstRequest w
      = Some (Next (Some (mkPayment 10 0 (Some (uuid (envs0 0%nat))))), w') /\
    getUserCredits "0xabc" (store w') = getUserCredits "0xabc" (store w) - 10 /\
    creditTransactions (store w')
      = creditTransactions (store w)
        ++ [mkTx (uuid (envs0 0%nat)) "0xabc" USAGE (- 10) None
                 CONFIRMED (Some (MetaUsage 10)) at_].
Proof.
  intros w.
  assert (H3 : (3 <= 3)%nat) by lia.
  assert (Hpref : body_useCreditsFirst firstRequest <> Some false) by done.
  assert (Hcover : 0 < 10 <= getUserCredits "0xabc" (store w))
    by (vm_compute; split; [reflexivity|discriminate]).
  destruct (covered_by_credits_skips_x402 (zk := specZk) 3 env0 envs0
              X402Throws firstRequest w "0xabc" H3 eq_refl eq_refl Hpref Hcover)
    as (w' & at_ & Hrun & Hbal & Hlog & _).
  split; [exact H3|]. split; [reflexivity|]. split; [exact Hpref|].
  exists w', at_. split; [exact Hrun|]. split; [exact Hbal|exact Hlog].
Defined.

Section X402Facts.
Context `{zk : ZkVerifier}.

Lemma getCurrentPrice_again (w d d' : string) (ps : PricingState) :
  getCurrentPrice w d' (getCurrentPrice w d ps).2
  = ((getCurrentPrice w d ps).1, (getCurrentPrice w d ps).2).
Proof.
  destruct (getCurrentPrice_entry w d ps) as (e0 & -> & Hl & _).
  cbn [fst snd]. unfold getCurrentPrice. by rewrite Hl.
Qed.

(** X11: the x402 handler runs [processPayment] on every call and never
    looks for an earlier deduction.  For a wallet whose balance [b] is
    short of the price, a first call takes the whole balance and, when
    challenged, is asked for [price - b]; any later call finds nothing to
    deduct, changes nothing and is challenged for the full price with 0
    credits deducted. *)
Theorem x402_retry_is_charged_in_full (fuel : nat) (envs1 envs2 : nat -> Env)
    (x402 : X402Result) (walletAddress : string) (domainHdr : option string)
    (w : World) :
  (3 <= fuel)%nat ->
  walletAddress <> "" ->
  let d := default "unknown" (orElse domainHdr (Some "unknown")) in
  let price := view_cents (getCurrentPrice walletAddress d (pricing w)).1 in
  let b := getUserCredits walletAddress (store w) in
  0 <= b < price ->
  exists out1 w1,
    handleX402Request fuel envs1 x402 (Some walletAddress) domainHdr w
      = Some (out1, w1) /\
    getUserCredits walletAddress (store w1) = 0 /\
    (forall status, x402 = X402PaymentError status ->
                    out1 = XChallenge status price (price - b) b) /\
    forall status,
      handleX402Request fuel envs2 (X402PaymentError status)
        (Some walletAddress) domainHdr w1
      = Some (XChallenge status price price 0, w1).
Proof.
  intros Hfuel Hne d price b Hb.
  assert (Hwh : orElse (Some walletAddress) None = Some walletAddress).
  { simpl. by rewrite bool_decide_eq_false_2. }
  unfold handleX402Request. rewrite Hwh. fold d.
  pose proof (getCurrentPrice_again walletAddress d d (pricing w)) as Hagain.
  destruct (getCurrentPrice walletAddress d (pricing w)) as [state ps] eqn:Hget.
  cbn [fst snd] in *. subst price. fold b.
  pose proof (processPayment_alone fuel envs1 (view_cents state) walletAddress
                CREDITS_FIRST (store w) Hfuel) as Hal.
  cbv zeta in Hal. fold b in Hal.
  destruct (Z.ltb_spec 0 (view_cents state)) as [_|]; [|lia].
  rewrite bool_decide_eq_true_2 in Hal by done. cbn [andb] in Hal.
  rewrite Hal. clear Hal.
  assert (Hsecond : forall s1 status,
            getUserCredits walletAddress s1 = 0 ->
            match processPayment fuel envs2 (view_cents state) walletAddress
                    CREDITS_FIRST s1 with
            | Some (result, s2) =>
                if remainingCostCents result <=? 0
                then Some (XCovered (transactionId result) (view_cents state),
                           mkWorld s2 ps)
                else Some (XChallenge status (view_cents state)
                             (remainingCostCents result)
                             (creditsDeducted result), mkWorld s2 ps)
            | None => None
            end
            = Some (XChallenge status (view_cents state) (view_cents state) 0,
                    mkWorld s1 ps)).
  { intros s1 status H0.
    pose proof (processPayment_alone fuel envs2 (view_cents state)
                  walletAddress CREDITS_FIRST s1 Hfuel) as Hal.
    cbv zeta in Hal. rewrite H0 in Hal.
    rewrite andb_false_r in Hal. cbn [Z.ltb Z.compare] in Hal.
    rewrite Hal. cbn [remainingCostCents creditsDeducted].
    destruct (Z.leb_spec (view_cents state) 0); [lia|].
    destruct (Z.leb_spec (view_cents state) 0); [lia|]. done. }
  destruct (Z.ltb_spec 0 b) as [Hpos|Hzero].
  - rewrite Z.min_l by lia.
    destruct (Z.ltb_spec 0 b) as [_|]; [|lia].
    destruct (findOneAndUpdate_deduct walletAddress b (now (envs1 2%nat))
                (store w)) as [s1|] eqn:Hcas.
    2:{ apply findOneAndUpdate_deduct_None in Hcas; [|done]. fold b in Hcas.
        lia. }
    apply findOneAndUpdate_deduct_inv in Hcas as (_ & _ & Hu & _ & _).
    fold b in Hu.
    cbn [default from_option id remainingCostCents creditsDeducted
         transactionId].
    destruct (Z.leb_spec (view_cents state - b) 0); [lia|].
    destruct x402 as [|st|[|] tr|];
      (eexists _, _; split; [reflexivity|]; cbn [store pricing];
       rewrite getUserCredits_insertOneTx;
       split; [lia|]; split;
       [intros status [= <-] || (intros status; discriminate); reflexivity
       |intros status; rewrite Hagain; apply Hsecond;
        rewrite getUserCredits_insertOneTx; lia]).
  - cbn [Z.ltb Z.compare remainingCostCents creditsDeducted transactionId].
    destruct (Z.leb_spec (view_cents state) 0); [lia|].
    destruct (Z.leb_spec (view_cents state) 0); [lia|].
    assert (b = 0) as Hb0 by lia.
    destruct x402 as [|st|[|] tr|];
      (eexists _, _; split; [reflexivity|]; cbn [store pricing];
       split; [done|]; split;
       [intros status [= <-] || (intros status; discriminate);
        rewrite Hb0, Z.sub_0_r; reflexivity
       |intros status; rewrite Hagain; by apply Hsecond]).
Qed.

End X402Facts.

Lemma x402_retry_is_charged_in_full_witness :
  (3 <= 3)%nat /\ "0xabc" <> "" /\
  0 <= getUserCredits "0xabc" (store fundedWorld)
    < view_cents (getCurrentPrice (zk := specZk) "0xabc" "acme.com"
                    (pricing fundedWorld)).1 /\
  exists out1 w1,
    handleX402Request (zk := specZk) 3 envs0 (X402PaymentError 402)
      (Some "0xabc") (Some "acme.com") fundedWorld = Some (out1, w1) /\
    out1 = XChallenge 402 10 (10 - 6) 6 /\
    handleX402Request (zk := specZk) 3 envs0 (X402PaymentError 402)
      (Some "0xabc") (Some "acme.com") w1
    = Some (XChallenge 402 10 10 0, w1).
Proof.
  assert (H3 : (3 <= 3)%nat) by lia.
  assert (Hne : "0xabc" <> "") by done.
  assert (Hb : 0 <= getUserCredits "0xabc" (store fundedWorld)
               < view_cents (getCurrentPrice (zk := specZk) "0xabc" "acme.com"
                               (pricing fundedWorld)).1)
    by (vm_compute; split; [discriminate|reflexivity]).
  destruct (x402_retry_is_charged_in_full (zk := specZk) 3 envs0 envs0
              (X402PaymentError 402) "0xabc" (Some "acme.com") fundedWorld
              H3 Hne Hb) as (out1 & w1 & Hrun & _ & Hout & Hretry).
  split; [exact H3|]. split; [exact Hne|]. split; [exact Hb|].
  exists out1, w1. split; [exact Hrun|].
  split; [exact (Hout 402 eq_refl)|exact (Hretry 402)].
Defined.

(** ** Negotiation price state, continued *)

Section PricingMore.
Context `{zk : ZkVerifier} `{txt : TextOps}.

(** X12: the tier of a wallet is fixed by its first price lookup.  The
    first lookup of an unknown wallet stores the starting price of the
    domain given; every later lookup, whatever domain it names, returns
    the stored price, round and attempts and changes nothing; and no
    lookup touches another wallet. *)
Theorem price_tier_fixed_by_first_lookup (w d d' : string)
    (ps : PricingState) :
  let r1 := getCurrentPrice w d ps in
  getCurrentPrice w d' r1.2 = (r1.1, r1.2) /\
  match ps !! w with
  | Some e =>
      r1 = (mkView (cents e) (round e) (negotiationAttempts e), ps)
  | None =>
      r1.1 = mkView (getStartingPrice d) 0 0 /\
      r1.2 !! w = Some (mkEntry (getStartingPrice d) 0 d None 0)
  end /\
  (forall w', w' <> w -> r1.2 !! w' = ps !! w').
Proof.
  intros r1. subst r1. split; [apply getCurrentPrice_again|].
  unfold getCurrentPrice. destruct (ps !! w) as [e|] eqn:Hl; simpl.
  - done.
  - rewrite lookup_insert_eq. split; [done|].
    intros w' Hne. by rewrite lookup_insert_ne.
Qed.

(** X14: the topic of a wallet is changed by its topic-naming turns and by
    nothing else.  Along any sequence of operations none of which is a
    turn of the wallet, whole or resumed, with a [quote_price] reply to a
    user message that names a topic, [getTopic] answers what it answered
    before; so the topic stored by a [quote_price] turn is still the one
    read after any such sequence, discounts, lookups, other wallets'
    turns and overlapping turns included. *)
Theorem topic_changed_by_naming_turns_only (ops : list PricingOp)
    (ps : PricingState) (w : string) :
  forallb (fun op => negb (namesTopic w op)) ops = true ->
  getTopic w (runOps ops ps) = getTopic w ps /\
  (forall k r m d t,
     action r = A_quote_price -> matchTopic m = Some t ->
     getTopic w (runOps ops (runNegotiationAgent (Some k) (Some r) m w d ps).2)
     = Some t).
Proof.
  intros Hall.
  assert (Hkept : forall st, getTopic w (runOps ops st) = getTopic w st).
  { unfold runOps. induction ops as [|op ops IH]; intros st; simpl; [done|].
    apply andb_prop in Hall as [Hop Hall].
    rewrite (IH Hall). apply applyOp_topic. by apply negb_true_iff. }
  split; [apply Hkept|].
  intros k r m d t Ha Hm. rewrite Hkept.
  rewrite runNegotiationAgent_uninterrupted. cbn [snd].
  destruct (getCurrentPrice_entry w d ps) as (e0 & -> & Hl0 & _).
  unfold runNegotiationAgent_resume. rewrite Ha, Hm. cbn [fst snd].
  rewrite (setTopic_entry _ _ _ _ Hl0).
  unfold getTopic. by rewrite lookup_insert_eq.
Qed.

(** X15: the price the agent reports is the price the paywall will
    charge, for a turn that resumes while the price it saw at its start is
    still the stored one.  When moreover the wallet's session is of the
    request's domain, its price is not below the floor and the schedule
    offers a lower price whenever the price is above the floor, then,
    whatever the model replied, the price in the agent's answer is the
    price stored when the turn ends. *)
Theorem reported_price_is_stored_price (cs : PriceView)
    (reply : option AIResponse) (m w d : string) (ps : PricingState)
    (e0 : PricingEntry) :
  ps !! w = Some e0 ->
  view_cents cs = cents e0 ->
  domain e0 = d ->
  getFloorPrice d <= cents e0 ->
  (getFloorPrice d < cents e0 -> getNextPrice d (cents e0) < cents e0) ->
  let out := runNegotiationAgent_resume cs reply m w d ps in
  Some (currentPrice_cents out.1) = priceOf w out.2.
Proof.
  intros Hl0 Hcs Hd Hfl Hnext out. subst out.
  unfold runNegotiationAgent_resume, priceOf. rewrite Hcs.
  destruct reply as [r|]; [|simpl; by rewrite Hl0].
  pose proof (incrementNegotiationAttempts_entry w _ e0 Hl0) as Hinc.
  set (e1 := mkEntry (cents e0) (round e0) (domain e0) (topic e0)
                     (negotiationAttempts e0 + 1)) in *.
  assert (Hl1 : <[w := e1]> ps !! w = Some e1) by apply lookup_insert_eq.
  destruct (action r).
  - destruct (matchTopic m) as [t|]; simpl.
    + rewrite (setTopic_entry _ _ _ _ Hl0). by rewrite lookup_insert_eq.
    + by rewrite Hl0.
  - rewrite Hinc. simpl. by rewrite Hl1.
  - destruct (view_negotiationAttempts cs =? 0).
    { rewrite Hinc. simpl. by rewrite Hl1. }
    rewrite Hinc. cbn [snd].
    destruct (Z.ltb_spec (getNextPrice d (cents e0)) (cents e0)) as [Hlt|Hge].
    + destruct (updatePrice_entry w (getNextPrice d (cents e0)) _ _ Hl1)
        as [Hps Hok].
      destruct (updatePrice w (getNextPrice d (cents e0)) (<[w:=e1]> ps))
        as [u ps2].
      simpl in Hps, Hok. subst ps2. rewrite Hok.
      destruct (getNextPrice d (cents e0) <? getFloorPrice (domain e0));
        simpl; [by rewrite Hl1|by rewrite lookup_insert_eq].
    + simpl. rewrite Hl1. simpl. f_equal.
      destruct (Z.lt_ge_cases (getFloorPrice d) (cents e0)); [|lia].
      specialize (Hnext ltac:(done)). lia.
  - rewrite Hinc. cbn [snd].
    destruct (Z.ltb_spec (getFloorPrice d) (cents e0)) as [Hlt|Hge].
    + destruct (updatePrice_entry w (getFloorPrice d) _ _ Hl1) as [Hps _].
      simpl. rewrite Hps. simpl. rewrite Hd.
      destruct (Z.ltb_spec (getFloorPrice d) (getFloorPrice d)); [lia|].
      by rewrite lookup_insert_eq.
    + simpl. rewrite Hl1. simpl. f_equal. lia.
  - simpl. by rewrite Hl0.
  - simpl. by rewrite Hl0.
Qed.

End PricingMore.

Section PricingRounds.
Context `{zk : ZkVerifier} `{txt : TextOps}.

Lemma runOps_counters (ops : list PricingOp) (ps : PricingState)
    (w : string) (e : PricingEntry) :
  ps !! w = Some e ->
  exists e', runOps ops ps !! w = Some e' /\
    domain e' = domain e /\
    round e <= round e' <= round e + Z.of_nat (length ops) /\
    negotiationAttempts e <= negotiationAttempts e'
      <= negotiationAttempts e + Z.of_nat (length ops).
Proof.
  revert ps e. unfold runOps.
  induction ops as [|op ops IH]; intros ps e Hl; simpl fold_left.
  - exists e. repeat split; simpl; lia || done.
  - destruct (applyOp_counters op ps w e Hl) as (e1 & Hl1 & Hd1 & Hr1 & Ha1).
    destruct (IH _ e1 Hl1) as (e' & Hl' & Hd' & Hr' & Ha').
    exists e'. split; [done|]. split; [congruence|].
    rewrite length_cons, Nat2Z.inj_succ. repeat split; lia.
Qed.

Lemma runOps_round (ops : list PricingOp) (ps : PricingState)
    (w : string) (e : PricingEntry) :
  allCurrent ops ps = true -> ps !! w = Some e ->
  exists e', runOps ops ps !! w = Some e' /\
    domain e' = domain e /\ round e <= round e' /\
    cents e' + (round e' - round e) <= cents e.
Proof.
  revert ps e. unfold runOps.
  induction ops as [|op ops IH]; intros ps e Hall Hl; simpl fold_left.
  - exists e. repeat split; simpl; lia || done.
  - simpl in Hall. apply andb_prop in Hall as [Hop Hall].
    destruct (applyOp_round op ps w e Hop Hl)
      as (e1 & Hl1 & Hd1 & Hr1 & Hc1 & _).
    destruct (IH _ e1 Hall Hl1) as (e' & Hl' & Hd' & Hr' & Hc').
    exists e'. split; [done|]. split; [congruence|]. split; lia.
Qed.

(** X16: discounts are counted and bounded.  Under every sequence of
    operations, direct [updatePrice] calls and turns resumed on their own
    included, the round and the attempts of a wallet never decrease and
    grow by at most one an operation.  Along price lookups and agent
    turns, interleaved in any way in which every turn resumes while the
    price it read at its start is still the stored price of its wallet,
    each step of the round is moreover a price cut of at least one cent,
    so with every tier starting at or above its floor and every stored
    price at or above its floor, the round can grow by at most the
    distance of the price to the floor. *)
Theorem discounts_are_bounded (ops : list PricingOp) (ps : PricingState)
    (w : string) (e : PricingEntry) :
  (forall d, getFloorPrice d <= getStartingPrice d) ->
  aboveFloor ps ->
  ps !! w = Some e ->
  exists e', runOps ops ps !! w = Some e' /\
    round e <= round e' <= round e + Z.of_nat (length ops) /\
    negotiationAttempts e <= negotiationAttempts e'
      <= negotiationAttempts e + Z.of_nat (length ops) /\
    (allCurrent ops ps = true ->
     cents e' <= cents e - (round e' - round e) /\
     round e' - round e <= cents e - getFloorPrice (domain e)).
Proof.
  intros Hstart Hfloor Hl.
  destruct (runOps_counters ops ps w e Hl) as (e' & Hl' & Hd' & Hr' & Ha').
  exists e'. split; [done|]. split; [done|]. split; [done|].
  intros Hall.
  destruct (runOps_round ops ps w e Hall Hl) as (e2 & Hl2 & _ & _ & Hc2).
  rewrite Hl' in Hl2. injection Hl2 as <-.
  pose proof (runOps_aboveFloor ops ps Hstart Hfloor w e' Hl') as Hfl.
  rewrite Hd' in Hfl. lia.
Qed.

(** X17: pricing state is kept per wallet.  A price lookup, a direct
    [updatePrice] or an agent turn for one wallet leaves the entry of
    every other wallet, present or absent, exactly as it was. *)
Theorem pricing_ops_touch_one_wallet (op : PricingOp) (ps : PricingState)
    (w' : string) :
  w' <> walletOf op -> applyOp op ps !! w' = ps !! w'.
Proof. apply applyOp_other. Qed.

End PricingRounds.

Lemma price_tier_fixed_by_first_lookup_witness :
  let r1 := getCurrentPrice (zk := specZk) "0xabc" "acme.com" ∅ in
  "0xdef" <> "0xabc" /\
  getCurrentPrice (zk := specZk) "0xabc" "school.edu" r1.2 = (r1.1, r1.2) /\
  r1.2 !! "0xdef" = (∅ : PricingState) !! "0xdef".
Proof.
  intros r1.
  destruct (price_tier_fixed_by_first_lookup (zk := specZk)
              "0xabc" "acme.com" "school.edu" ∅) as (Hagain & _ & Hother).
  assert (Hne : "0xdef" <> "0xabc") by done.
  split; [exact Hne|]. split; [exact Hagain|exact (Hother "0xdef" Hne)].
Defined.

(** A wallet asks about a topic and is quoted the price; it then
    complains twice while a turn of another wallet names another topic:
    the topic read for the first wallet is still its own. *)
Lemma topic_changed_by_naming_turns_only_witness :
  let quote := mkAI A_quote_price "That guide is $0.10" None in
  let ops :=
    [OpAgent (Some "key") (Some (mkAI A_pushback "no" None))
       "too expensive" "0xabc" "acme.com";
     OpAgent (Some "key") (Some quote) "about rust" "0xdef" "acme.com";
     OpAgent (Some "key") (Some (mkAI A_discount "ok" None))
       "about the price" "0xabc" "acme.com";
     OpUpdatePrice "0xabc" 5] in
  forallb (fun op => negb (namesTopic (txt := aboutText) "0xabc" op)) ops
    = true /\
  matchTopic (TextOps := aboutText) "about coq" = Some "coq" /\
  getTopic "0xabc"
    (runOps (zk := specZk) (txt := aboutText) ops
       (runNegotiationAgent (zk := specZk) (txt := aboutText) (Some "key")
          (Some quote) "about coq" "0xabc" "acme.com" ∅).2)
  = Some "coq".
Proof.
  intros quote ops.
  assert (Hall : forallb
            (fun op => negb (namesTopic (txt := aboutText) "0xabc" op)) ops
            = true) by reflexivity.
  assert (Hm : matchTopic (TextOps := aboutText) "about coq" = Some "coq")
    by reflexivity.
  split; [exact Hall|]. split; [exact Hm|].
  exact (proj2 (topic_changed_by_naming_turns_only (zk := specZk)
                  (txt := aboutText) ops ∅ "0xabc" Hall)
           "key" quote "about coq" "acme.com" "coq" eq_refl Hm).
Defined.

(** A reply that cannot be parsed is answered with the fallback line, at
    the price the turn saw, and changes nothing.  The line is the one of
    the source file, whose nine bytes after [answers ] are
    [c3 b0 c5 b8 cb 9c e2 80 b0]. *)
Example fallback_line :
  let ps : PricingState := {["0xabc" := mkEntry 7 1 "acme.com" None 2]} in
  let out := runNegotiationAgent_resume (zk := specZk) (txt := plainText)
               (mkView 7 1 2) None "hi" "0xabc" "acme.com" ps in
  out.2 = ps /\ currentPrice_cents out.1 = 7 /\ isDataOffer out.1 = false /\
  String.length (response out.1) = 73%nat /\
  List.map Ascii.nat_of_ascii
    (String.list_ascii_of_string (String.substring 40 9 (response out.1)))
  = [195; 176; 197; 184; 203; 156; 226; 128; 176]%nat.
Proof. vm_compute. repeat split. Qed.

(** A turn resumed after another turn's discount answers with the price
    it saw at its start: the wallet is told 10 while 7 is stored. *)
Example stale_turn_reports_old_price :
  let ps : PricingState := {["0xabc" := mkEntry 10 0 "acme.com" None 1]} in
  let first := runNegotiationAgent_begin (zk := specZk)
                 (Some "key") "0xabc" "acme.com" ps in
  let second := runNegotiationAgent (zk := specZk) (txt := plainText)
                  (Some "key") (Some (mkAI A_discount "ok" None))
                  "cheaper" "0xabc" "acme.com" first.2 in
  first.1 = Some (mkView 10 0 1) /\
  let resumed := runNegotiationAgent_resume (zk := specZk) (txt := plainText)
                   (mkView 10 0 1) (Some (mkAI A_chat "Hi!" None))
                   "hello" "0xabc" "acme.com" second.2 in
  currentPrice_cents resumed.1 = 10 /\
  priceOf "0xabc" resumed.2 = Some 7.
Proof. vm_compute. repeat split. Qed.

Lemma reported_price_is_stored_price_witness :
  let ps : PricingState := {["0xabc" := mkEntry 7 1 "acme.com" None 2]} in
  let out := runNegotiationAgent_resume (zk := specZk) (txt := plainText)
               (mkView 7 1 2) (Some (mkAI A_discount "ok" None))
               "cheaper" "0xabc" "acme.com" ps in
  ps !! "0xabc" = Some (mkEntry 7 1 "acme.com" None 2) /\
  getFloorPrice (ZkVerifier := specZk) "acme.com" <= 7 /\
  Some (currentPrice_cents out.1) = priceOf "0xabc" out.2 /\
  priceOf "0xabc" out.2 = Some 5.
Proof.
  intros ps out.
  assert (Hl : ps !! "0xabc" = Some (mkEntry 7 1 "acme.com" None 2))
    by reflexivity.
  assert (Hfl : getFloorPrice (ZkVerifier := specZk) "acme.com" <= 7)
    by (simpl; lia).
  assert (Hnext : getFloorPrice (ZkVerifier := specZk) "acme.com" < 7 ->
                  getNextPrice (ZkVerifier := specZk) "acme.com" 7 < 7)
    by (intros _; vm_compute; reflexivity).
  split; [exact Hl|]. split; [exact Hfl|].
  split; [|reflexivity].
  exact (reported_price_is_stored_price (zk := specZk) (txt := plainText)
           (mkView 7 1 2) (Some (mkAI A_discount "ok" None)) "cheaper"
           "0xabc" "acme.com" ps _ Hl eq_refl eq_refl Hfl Hnext).
Defined.

Lemma discounts_are_bounded_witness :
  let ps : PricingState := {["0xabc" := mkEntry 10 0 "acme.com" None 0]} in
  let turn := OpAgent (Some "key") (Some (mkAI A_discount "ok" None))
                      "cheaper" "0xabc" "acme.com" in
  let ops := [turn; turn; turn; turn; turn] in
  allCurrent (zk := specZk) (txt := plainText) ops ps = true /\
  ps !! "0xabc" = Some (mkEntry 10 0 "acme.com" None 0) /\
  exists e', runOps (zk := specZk) (txt := plainText) ops ps !! "0xabc"
               = Some e' /\
    0 <= round e' <= 0 + 5 /\ round e' - 0 <= 10 - 5.
Proof.
  intros ps turn ops.
  destruct (discounts_are_bounded (zk := specZk) (txt := plainText) ops ps
              "0xabc" (mkEntry 10 0 "acme.com" None 0)
              specZk_starts_above_floor aboveFloor_single eq_refl)
    as (e' & Hl & Hr & _ & Hb).
  split; [reflexivity|]. split; [reflexivity|].
  exists e'. split; [exact Hl|]. split; [exact Hr|exact (proj2 (Hb eq_refl))].
Defined.

Lemma pricing_ops_touch_one_wallet_witness :
  let ps : PricingState := {["0xabc" := mkEntry 10 0 "acme.com" None 0]} in
  let op := OpAgent (Some "key") (Some (mkAI A_floor "no" None))
                    "cheaper" "0xdef" "school.edu" in
  "0xabc" <> walletOf op /\
  applyOp (zk := specZk) (txt := plainText) op ps !! "0xabc" = ps !! "0xabc".
Proof.
  intros ps op.
  assert (Hne : "0xabc" <> walletOf op) by done.
  split; [exact Hne|].
  exact (pricing_ops_touch_one_wallet (zk := specZk) (txt := plainText)
           op ps "0xabc" Hne).
Defined.

(** ** Transaction verification, continued *)

Lemma hexValue_nonneg (s : string) (acc v : Z) :
  0 <= acc -> hexValue acc s = Some v -> 0 <= v.
Proof.
  revert acc. induction s as [|c s IH]; intros acc Hacc; simpl.
  - by intros [= <-].
  - destruct (hexDigit c) as [dgt|] eqn:Hd; [|done].
    apply IH. unfold hexDigit in Hd.
    repeat (case_match; simplify_eq); lia.
Qed.

Lemma BigInt_nonneg (data : string) (v : Z) :
  BigInt data = Some v -> 0 <= v.
Proof.
  unfold BigInt. intros H.
  repeat case_match; try discriminate;
    (eapply (hexValue_nonneg _ 0); [lia|exact H]).
Qed.

Lemma paidAmountRaw_nonneg (w : string) (logs : list Log) (acc v : Z) :
  0 <= acc -> paidAmountRaw w logs acc = Some v -> 0 <= v.
Proof.
  revert acc. induction logs as [|log logs IH]; intros acc Hacc; simpl.
  - by intros [= <-].
  - case_bool_decide; [|by apply IH].
    case_bool_decide; [|by apply IH].
    destruct (BigInt (log_data log)) as [x|] eqn:Hx; [|done].
    apply IH. assert (0 <= x); [|lia]. by eapply BigInt_nonneg.
Qed.

(** X18: what [verifyTransaction] does not look at.  Two receipts of the
    same status whose logs agree, one by one, on the event signature, the
    sender topic and the data give the same verdict: neither the contract
    that emitted a Transfer ([log.address]) nor its recipient (the third
    topic) is checked. *)
Theorem verifyTransaction_ignores_token_and_recipient (rc rc' : Receipt)
    (tx : option ChainTx) (expectedCents : Z) (userWallet : string) :
  rc_status rc = rc_status rc' ->
  Forall2 (fun l l' => log_topics l !! 0%nat = log_topics l' !! 0%nat /\
                       log_topics l !! 1%nat = log_topics l' !! 1%nat /\
                       log_data l = log_data l')
          (rc_logs rc) (rc_logs rc') ->
  verifyTransaction (Some rc) tx expectedCents userWallet
  = verifyTransaction (Some rc') tx expectedCents userWallet.
Proof.
  intros Hst Hlogs.
  assert (Hpaid : forall acc,
            paidAmountRaw userWallet (rc_logs rc) acc
            = paidAmountRaw userWallet (rc_logs rc') acc).
  { induction Hlogs as [|l l' ls ls' (H0 & H1 & Hd) _ IH]; intros acc;
      simpl; [done|].
    unfold fromHex. rewrite H0, H1, Hd.
    case_bool_decide; [|apply IH].
    case_bool_decide; [|apply IH].
    destruct (BigInt (log_data l')); [apply IH|done]. }
  unfold verifyTransaction. by rewrite Hst, Hpaid.
Qed.

Lemma verifyTransaction_ignores_token_and_recipient_witness :
  let other :=
    mkReceipt status_success
      [mkLog "0x000000000000000000000000000000000000dead"
         [transferSignature;
          "0x0000000000000000000000001111111111111111111111111111111111111111";
          "0x0000000000000000000000001111111111111111111111111111111111111111"]
         "0x61a80"] in
  rc_status paidReceipt = rc_status other /\
  verifyTransaction (Some paidReceipt) (Some (mkChainTx payerWallet 0)) 40
    payerWallet
  = verifyTransaction (Some other) (Some (mkChainTx payerWallet 0)) 40
      payerWallet.
Proof.
  intros other. split; [reflexivity|].
  apply (verifyTransaction_ignores_token_and_recipient paidReceipt other);
    [reflexivity|].
  repeat constructor.
Defined.

(** X19: the verdict depends on the claimed wallet only up to letter case,
    and a transaction accepted for an amount is accepted for every smaller
    one; the total decoded from the logs is never negative, so a request
    for nothing (or less) is accepted whenever sender, status and logs
    pass. *)
Theorem verifyTransaction_case_and_amount (receipt : option Receipt)
    (tx : option ChainTx) (c c' : Z) (w w' : string) :
  (toLowerCase w = toLowerCase w' ->
   verifyTransaction receipt tx c w = verifyTransaction receipt tx c w') /\
  (c' <= c -> verifyTransaction receipt tx c w = true ->
   verifyTransaction receipt tx c' w = true) /\
  (c <= 0 ->
   verifyTransaction receipt tx c w =
     match receipt, tx with
     | Some rc, Some t =>
         match rc_status rc with
         | status_success =>
             bool_decide (toLowerCase (chain_from t) = toLowerCase w)
             && bool_decide (is_Some (paidAmountRaw w (rc_logs rc) 0))
         | status_reverted => false
         end
     | _, _ => false
     end).
Proof.
  split; [|split].
  - intros Hw.
    assert (Hpaid : forall logs acc,
              paidAmountRaw w logs acc = paidAmountRaw w' logs acc).
    { induction logs as [|l ls IH]; intros acc; simpl; [done|].
      rewrite Hw. case_bool_decide; [|apply IH].
      case_bool_decide; [|apply IH].
      destruct (BigInt (log_data l)); [apply IH|done]. }
    unfold verifyTransaction. destruct receipt as [rc|]; [|done].
    destruct (rc_status rc); [|done]. destruct tx as [t|]; [|done].
    by rewrite Hw, Hpaid.
  - intros Hle. unfold verifyTransaction.
    destruct receipt as [rc|]; [|done].
    destruct (rc_status rc); [|done]. destruct tx as [t|]; [|done].
    destruct (negb _); [done|].
    destruct (paidAmountRaw w (rc_logs rc) 0) as [paid|]; [|done].
    destruct (Z.leb_spec (c * 10000) paid);
      destruct (Z.leb_spec (c' * 10000) paid); try done; lia.
  - intros Hc. unfold verifyTransaction.
    destruct receipt as [rc|]; [|done].
    destruct (rc_status rc); [|by destruct tx]. destruct tx as [t|]; [|done].
    case_bool_decide; simpl; [|done].
    destruct (paidAmountRaw w (rc_logs rc) 0) as [paid|] eqn:Hp.
    + apply paidAmountRaw_nonneg in Hp; [|done].
      rewrite bool_decide_eq_true_2 by (by eexists).
      destruct (Z.leb_spec (c * 10000) paid); [done|lia].
    + rewrite bool_decide_eq_false_2; [done|]. by intros [? ?].
Qed.

Lemma verifyTransaction_case_and_amount_witness :
  toLowerCase "0x1111111111111111111111111111111111111111"
    = toLowerCase "0X1111111111111111111111111111111111111111" /\
  10 <= 40 /\
  verifyTransaction (Some paidReceipt) (Some (mkChainTx payerWallet 0)) 40
    "0X1111111111111111111111111111111111111111" = true /\
  verifyTransaction (Some paidReceipt) (Some (mkChainTx payerWallet 0)) 10
    payerWallet = true.
Proof.
  destruct (verifyTransaction_case_and_amount (Some paidReceipt)
              (Some (mkChainTx payerWallet 0)) 40 10 payerWallet
              "0X1111111111111111111111111111111111111111")
    as (Hcase & Hmono & _).
  assert (Hlow : toLowerCase "0x1111111111111111111111111111111111111111"
                 = toLowerCase "0X1111111111111111111111111111111111111111")
    by reflexivity.
  assert (Hle : 10 <= 40) by lia.
  split; [exact Hlow|]. split; [exact Hle|]. split.
  - rewrite <- (Hcase Hlow). reflexivity.
  - exact (Hmono Hle eq_refl).
Defined.

(** ** The wallet routes *)

Lemma insertByDate_perm (t : CreditTransaction) (l : list CreditTransaction) :
  insertByDate t l ≡ₚ t :: l.
Proof.
  induction l as [|x l IH]; simpl; [done|].
  destruct (tx_createdAt x <=? tx_createdAt t); [done|].
  rewrite IH. apply Permutation_swap.
Qed.

Lemma sortNewestFirst_perm (l : list CreditTransaction) :
  sortNewestFirst l ≡ₚ l.
Proof.
  induction l as [|x l IH]; simpl; [done|].
  by rewrite insertByDate_perm, IH.
Qed.

Lemma insertByDate_sorted (t : CreditTransaction)
    (l : list CreditTransaction) :
  StronglySorted (fun a b => tx_createdAt b <= tx_createdAt a) l ->
  StronglySorted (fun a b => tx_createdAt b <= tx_createdAt a)
                 (insertByDate t l).
Proof.
  induction 1 as [|x l Hl IH Hx]; simpl.
  - by repeat constructor.
  - destruct (Z.leb_spec (tx_createdAt x) (tx_createdAt t)).
    + constructor; [by constructor|].
      constructor; [done|].
      eapply Forall_impl; [exact Hx|]. simpl. intros y Hy. lia.
    + constructor; [done|].
      rewrite insertByDate_perm. constructor; [lia|done].
Qed.

Lemma sortNewestFirst_sorted (l : list CreditTransaction) :
  StronglySorted (fun a b => tx_createdAt b <= tx_createdAt a)
                 (sortNewestFirst l).
Proof.
  induction l as [|x l IH]; simpl; [constructor|].
  by apply insertByDate_sorted.
Qed.

(** X20: the history page of a wallet holds at most 20 rows, each a row of
    the log that belongs to the wallet, newest first; the rows of the
    wallet it leaves out are none of them newer than a row it shows, and
    page and left-out rows together are exactly the wallet's rows.  A
    wallet with at most 20 rows gets all of them. *)
Theorem walletHistory_newest_page (walletAddress : string) (s : Store) :
  let mine := List.filter (q_ofUser walletAddress) (creditTransactions s) in
  let page := walletHistory walletAddress s in
  (length page <= 20)%nat /\
  (forall t, In t page ->
             In t (creditTransactions s) /\ tx_userId t = walletAddress) /\
  StronglySorted (fun a b => tx_createdAt b <= tx_createdAt a) page /\
  (exists rest,
     page ++ rest ≡ₚ mine /\
     forall shown left_out, In shown page -> In left_out rest ->
                            tx_createdAt left_out <= tx_createdAt shown) /\
  ((length mine <= 20)%nat -> page ≡ₚ mine).
Proof.
  intros mine page. subst page. unfold walletHistory. fold mine.
  pose proof (sortNewestFirst_perm mine) as Hperm.
  pose proof (sortNewestFirst_sorted mine) as Hsorted.
  split; [rewrite length_take; lia|]. split; [|split; [|split]].
  - intros t Ht.
    assert (Hin : In t mine).
    { apply list_elem_of_In. rewrite <- Hperm.
      apply list_elem_of_In in Ht. by apply (subseteq_take 20). }
    subst mine. apply List.filter_In in Hin as [Hin Hq]. split; [done|].
    unfold q_ofUser in Hq. by apply bool_decide_eq_true in Hq.
  - rewrite <- (take_drop 20 (sortNewestFirst mine)) in Hsorted.
    by apply StronglySorted_app_1_l in Hsorted.
  - exists (drop 20 (sortNewestFirst mine)). split.
    + by rewrite take_drop.
    + intros shown left_out Hs Hl.
      rewrite <- (take_drop 20 (sortNewestFirst mine)) in Hsorted.
      apply list_elem_of_In in Hs, Hl.
      exact (StronglySorted_app_1_elem_of _ _ _ _ _ Hsorted Hs Hl).
  - intros Hlen. rewrite take_ge; [done|].
    by rewrite Hperm.
Qed.

Lemma walletHistory_newest_page_witness :
  let s := runLedger [DoMint env0 "0xabc" 100 "tx1";
                      DoDeduct envs0 60 "0xabc" CREDITS_FIRST;
                      DoMint env0 "0xdef" 5 "tx2"] (mkStore ∅ []) in
  (length (List.filter (q_ofUser "0xabc") (creditTransactions s)) <= 20)%nat /\
  walletHistory "0xabc" s
    ≡ₚ List.filter (q_ofUser "0xabc") (creditTransactions s).
Proof.
  intros s.
  assert (Hlen : (length (List.filter (q_ofUser "0xabc")
                            (creditTransactions s)) <= 20)%nat)
    by (vm_compute; lia).
  split; [exact Hlen|].
  exact (proj2 (proj2 (proj2 (proj2 (walletHistory_newest_page "0xabc" s))))
           Hlen).
Defined.

(** The page of that wallet: the deduction (made at 1003) before the
    funding (made at 1000). *)
Example walletHistory_example :
  List.map tx_amount
    (walletHistory "0xabc"
       (runLedger [DoMint env0 "0xabc" 100 "tx1";
                   DoDeduct envs0 60 "0xabc" CREDITS_FIRST;
                   DoMint env0 "0xdef" 5 "tx2"] (mkStore ∅ [])))
  = [-60; 100].
Proof. vm_compute. reflexivity. Qed.

(** X21: the funding route.  It never answers with its failure response:
    a request with a wallet, a non-zero amount and a transaction hash is
    answered with success, every other request is rejected and changes
    nothing.  Success does not mean credit: when a CONFIRMED row already
    carries the hash, whoever it credited and whatever the amount, the
    answer is success and the store is unchanged; otherwise the balance of
    the wallet grows by the amount, which may be negative. *)
Theorem fundRoute_answers (e : Env) (body : FundBody) (s : Store) :
  let r := fundRoute e body s in
  r.1 <> FundFailed /\
  match orElse (fund_walletAddress body) None, fund_amountCents body,
        orElse (fund_txHash body) None with
  | Some w, Some a, Some h =>
      if a =? 0 then r = (FundMissingParameters, s)
      else
        r.1 = FundSuccess /\
        match findOneTx (q_confirmedDeposit h) s with
        | Some _ => r.2 = s
        | None =>
            getUserCredits w r.2 = getUserCredits w s + a /\
            creditTransactions r.2 =
              creditTransactions s
              ++ [mkTx (uuid e) w PURCHASE a (Some h) CONFIRMED None (now e)]
        end
  | _, _, _ => r = (FundMissingParameters, s)
  end.
Proof.
  intros r. subst r. unfold fundRoute.
  destruct (orElse (fund_walletAddress body) None) as [w|]; [|done].
  destruct (fund_amountCents body) as [a|]; [|done].
  destruct (orElse (fund_txHash body) None) as [h|]; [|done].
  destruct (a =? 0); [done|].
  destruct (findOneTx (q_confirmedDeposit h) s) as [t|] eqn:Hf.
  - unfold mintCredits. rewrite Hf. done.
  - rewrite (mintCredits_fresh _ _ _ _ _ Hf). cbn [fst snd].
    split; [done|]. split; [done|]. split; [|done].
    by rewrite getUserCredits_upsertPurchase.
Qed.

(** A hash already used for one wallet, presented for another: success is
    answered and nothing is credited. *)
Example fundRoute_reused_hash :
  let s := (mintCredits env0 "0xabc" 100 "tx1" (mkStore ∅ [])).2 in
  let r := fundRoute env0 (mkFund (Some "0xdef") (Some 500) (Some "tx1")) s in
  r.1 = FundSuccess /\ getUserCredits "0xdef" r.2 = 0.
Proof. vm_compute. split; reflexivity. Qed.
